(** * Telegram-Archive: database adapters and the SQLite -> PostgreSQL migrator

    A shallow embedding of
      - src/db_adapters/schema.py    (process-wide schema name),
      - src/db_adapters/models.py    (declarative models: table names,
                                      [__table_args__], foreign keys,
                                      relationships),
      - src/db_adapters/__init__.py  (the import chain of the package),
      - src/db_adapters/factory.py   ([create_database_adapter]),
      - src/db_adapters/adapter.py   (the [DatabaseAdapter] contract),
      - src/migrate_to_postgres.py   ([DataMigrator] and [main]),
    and the properties of the specification checked against them. *)

From Stdlib Require Import ZArith Lia Ascii.
From stdpp Require Import base gmap strings list fin_maps.

(** ** Python values, exceptions and results *)

(** The values that occur in rows, configuration attributes and statistics.
    [VDatetime] stands for a [datetime] object. *)
Inductive value :=
| VNone
| VBool (b : bool)
| VInt (z : Z)
| VStr (s : string)
| VDatetime (t : Z).

#[global] Instance value_eq_dec : EqDecision value.
Proof. solve_decision. Defined.

(** A row of a table, a configuration object's attributes: a Python dict
    with string keys. *)
Abbreviation row := (gmap string value).

(** Instances of [Exception].  [DatabaseError] stands for whatever the
    sqlite3 / SQLAlchemy / OS layer raises. *)
Inductive exn :=
| ValueError (msg : string)
| AttributeError (attr : string)
| KeyError (key : string)
| TypeError (what : string)
| DatabaseError (what : string).

Inductive result (X : Type) :=
| Ok (x : X)
| Raise (e : exn).
Arguments Ok {X} x.
Arguments Raise {X} e.

#[global] Instance result_ret : MRet result := fun _ x => Ok x.

#[global] Instance result_bind : MBind result := fun _ _ k r =>
  match r with
  | Ok x => k x
  | Raise e => Raise e
  end.

#[global] Instance result_fmap : FMap result := fun _ _ f r =>
  match r with
  | Ok x => Ok (f x)
  | Raise e => Raise e
  end.

(** Python truthiness ([if v], [not v]). *)
Definition truthy (v : value) : bool :=
  match v with
  | VNone => false
  | VBool b => b
  | VInt z => negb (z =? 0)%Z
  | VStr s => negb (String.eqb s "")
  | VDatetime _ => true
  end.

(** [str.lower()], on the ASCII range. *)
Definition lower_ascii (c : ascii) : ascii :=
  let n := nat_of_ascii c in
  if ((65 <=? n) && (n <=? 90))%nat then ascii_of_nat (n + 32) else c.

Fixpoint lower (s : string) : string :=
  match s with
  | EmptyString => EmptyString
  | String c s' => String (lower_ascii c) (lower s')
  end.


(** [getattr(obj, name, default)] and plain attribute access. *)
Definition getattr (obj : row) (name : string) (default : value) : value :=
  match obj !! name with
  | Some v => v
  | None => default
  end.

Definition attr (obj : row) (name : string) : result value :=
  match obj !! name with
  | Some v => Ok v
  | None => Raise (AttributeError name)
  end.

(** [d[key]] on a dict. *)
Definition getitem (d : row) (key : string) : result value :=
  match d !! key with
  | Some v => Ok v
  | None => Raise (KeyError key)
  end.

(** ** src/db_adapters/schema.py *)

Module Schema.

(** The module global [schema_name]; [None] until configured. *)
Definition state := option string.

Definition initial : state := None.

Definition set_schema_name (schema : option string) (_ : state) : state :=
  schema.

Definition get_schema_name (st : state) : option string := st.

End Schema.

(** ** src/db_adapters/models.py *)

Module Models.

(** An element of a [__table_args__] tuple: an [Index(...)] or the
    trailing dict of table keyword arguments. *)
Inductive table_arg :=
| Index (name : string) (columns : list string) (unique : bool)
| Kwargs (d : gmap string string).

(** [relationship(target, back_populates=..., cascade=..., uselist=...)];
    [cascade = None] when the keyword is not given. *)
Record relationship := {
  rel_name : string;
  rel_target : string;
  rel_back_populates : string;
  rel_cascade : option string;
  rel_uselist : bool
}.

(** [Column(..., ForeignKey("chats.id"))]: the column that holds the
    key, and the table and column it names, as written. *)
Record foreign_key := {
  fk_column : string;
  fk_table : string;
  fk_ref : string
}.

Record model := {
  tablename : string;
  table_args : list table_arg;
  foreign_keys : list foreign_key;
  relationships : list relationship
}.

(** [{'schema': schema} if schema else {}]: a string is truthy when it
    is not empty. *)
Definition schema_kwargs (schema : option string) : table_arg :=
  match schema with
  | Some s => if String.eqb s "" then Kwargs ∅ else Kwargs {[ "schema" := s ]}
  | None => Kwargs ∅
  end.

Section Declarations.
(** The models are declared when the module is imported: each class
    body reads [get_schema_name()] at that moment. *)
Variable st : Schema.state.

Definition Chat : model :=
  let schema := Schema.get_schema_name st in
  {| tablename := "chats";
     table_args := [ Index "idx_chat_type" ["type"] false;
                     Index "idx_chat_username" ["username"] false ];
     foreign_keys :=
       [];
     relationships :=
       [ {| rel_name := "messages"; rel_target := "Message";
            rel_back_populates := "chat";
            rel_cascade := Some "all, delete-orphan"; rel_uselist := true |};
         {| rel_name := "media_files"; rel_target := "Media";
            rel_back_populates := "chat";
            rel_cascade := Some "all, delete-orphan"; rel_uselist := true |};
         {| rel_name := "sync_status"; rel_target := "SyncStatus";
            rel_back_populates := "chat";
            rel_cascade := None; rel_uselist := false |} ] |}.

Definition Message : model :=
  let schema := Schema.get_schema_name st in
  {| tablename := "messages";
     table_args := [ Index "idx_message_chat_date" ["chat_id"; "date"] false;
                     Index "idx_message_sender" ["sender_id"] false;
                     Index "idx_message_media" ["media_type"] false;
                     Index "uq_message_id_chat" ["id"; "chat_id"] true;
                     schema_kwargs schema ];
     foreign_keys :=
       [ {| fk_column := "chat_id"; fk_table := "chats"; fk_ref := "id" |} ];
     relationships :=
       [ {| rel_name := "chat"; rel_target := "Chat";
            rel_back_populates := "messages";
            rel_cascade := None; rel_uselist := true |};
         {| rel_name := "reactions"; rel_target := "Reaction";
            rel_back_populates := "message";
            rel_cascade := Some "all, delete-orphan"; rel_uselist := true |} ] |}.

Definition User : model :=
  let schema := Schema.get_schema_name st in
  {| tablename := "users";
     table_args := [ Index "idx_user_username" ["username"] false;
                     Index "idx_user_phone" ["phone"] false;
                     schema_kwargs schema ];
     foreign_keys :=
       [];
     relationships := [] |}.

Definition Media : model :=
  let schema := Schema.get_schema_name st in
  {| tablename := "media";
     table_args := [ Index "idx_media_type" ["type"] false;
                     Index "idx_media_downloaded" ["downloaded"] false;
                     schema_kwargs schema ];
     foreign_keys :=
       [ {| fk_column := "chat_id"; fk_table := "chats"; fk_ref := "id" |} ];
     relationships :=
       [ {| rel_name := "chat"; rel_target := "Chat";
            rel_back_populates := "media_files";
            rel_cascade := None; rel_uselist := true |} ] |}.

Definition Reaction : model :=
  let schema := Schema.get_schema_name st in
  {| tablename := "reactions";
     table_args := [ Index "idx_reaction_message" ["message_id"] false;
                     Index "idx_reaction_emoji" ["emoji"] false;
                     schema_kwargs schema ];
     foreign_keys :=
       [ {| fk_column := "message_id"; fk_table := "messages"; fk_ref := "id" |};
         {| fk_column := "chat_id"; fk_table := "chats"; fk_ref := "id" |} ];
     relationships :=
       [ {| rel_name := "message"; rel_target := "Message";
            rel_back_populates := "reactions";
            rel_cascade := None; rel_uselist := true |} ] |}.

Definition SyncStatus : model :=
  let schema := Schema.get_schema_name st in
  {| tablename := "sync_status";
     table_args := [ Index "idx_sync_date" ["last_sync_date"] false;
                     schema_kwargs schema ];
     foreign_keys :=
       [ {| fk_column := "chat_id"; fk_table := "chats"; fk_ref := "id" |} ];
     relationships :=
       [ {| rel_name := "chat"; rel_target := "Chat";
            rel_back_populates := "sync_status";
            rel_cascade := None; rel_uselist := true |} ] |}.

Definition Metadata : model :=
  let schema := Schema.get_schema_name st in
  {| tablename := "metadata";
     table_args := [ Index "idx_metadata_key" ["key"] false;
                     schema_kwargs schema ];
     foreign_keys :=
       [];
     relationships := [] |}.

(** The seven entity tables registered on [Base]. *)
Definition all_models : list model :=
  [Chat; Message; User; Media; Reaction; SyncStatus; Metadata].
End Declarations.

(** What the declarative layer makes of [__table_args__]: when the last
    element of the tuple is a dict it holds the keyword arguments of the
    table, and the table is created under its ['schema'] entry; without
    one ([Base = declarative_base()] carries no schema of its own) the
    table lives in the default namespace, written [None]. *)
Definition table_schema (m : model) : option string :=
  match last (table_args m) with
  | Some (Kwargs d) => d !! "schema"
  | _ => None
  end.



End Models.

(** ** src/db_adapters/__init__.py: when the models are declared *)

Module Package.
Import Schema Models.

(** What the interpreter holds of the package once it is imported: the
    global of schema.py and the classes models.py declared. *)
Record loaded := Loaded {
  schema_name : Schema.state;
  declared : list model
}.

(** Importing the package, or any module of it ([db_adapters.schema]
    included), runs db_adapters/__init__.py first: its line 18 imports
    [.factory], whose line 10 imports [.adapter], whose line 11 imports
    [.models], whose line 23 imports [.schema], which sets
    [schema_name = None], before the seven class bodies run.  A
    module runs once: a later import finds it in [sys.modules].  [None]
    is the interpreter before the first import. *)
Definition import_package (py : option loaded) : loaded :=
  match py with
  | Some l => l
  | None => Loaded Schema.initial (all_models Schema.initial)
  end.

(** What a program can do to the schema configuration. *)
Inductive action :=
| Import
| SetSchemaName (schema : option string).

(** [set_schema_name] is reached through an import of the package. *)
Definition step (py : option loaded) (act : action) : option loaded :=
  let l := import_package py in
  match act with
  | Import => Some l
  | SetSchemaName schema =>
      Some (Loaded (set_schema_name schema (schema_name l)) (declared l))
  end.

Definition run (acts : list action) : option loaded := fold_left step acts None.

End Package.

(** ** src/db_adapters/factory.py *)

Module Factory.

(** The constructor call the factory ends in.  The adapters themselves
    (sqlite_adapter.py, postgres_adapter.py) are collaborators: building
    one opens the engine, so a returned request is the first point at
    which a connection can be attempted. *)
Inductive adapter_request :=
| SQLiteAdapter (database_path timeout : value)
| PostgreSQLAdapter (host port database user password pool_size : value).

Definition sqlite_message : string :=
  "For db_type='sqlite', use the original src.database.Database class. "
  +:+ "Set db_type='sqlite-alchemy' to use the SQLAlchemy SQLite adapter.".

Definition password_message : string :=
  "PostgreSQL password is required when using postgres-alchemy".

Definition unsupported_message (db_type : string) : string :=
  "Unsupported database type: " +:+ db_type.

(** [getattr(config, "db_type", "sqlite").lower()] *)
Definition db_type_of (config : row) : result string :=
  match getattr config "db_type" (VStr "sqlite") with
  | VStr s => Ok (lower s)
  | _ => Raise (AttributeError "lower")
  end.

Definition create_database_adapter (config : row) : result adapter_request :=
  db_type ← db_type_of config;
  if String.eqb db_type "sqlite" then
    Raise (ValueError sqlite_message)
  else if String.eqb db_type "sqlite-alchemy" then
    database_path ← attr config "database_path";
    timeout ← attr config "database_timeout";
    Ok (SQLiteAdapter database_path timeout)
  else if String.eqb db_type "postgres-alchemy" then
    let host := getattr config "postgres_host" (VStr "localhost") in
    let port := getattr config "postgres_port" (VInt 5432) in
    let database := getattr config "postgres_db" (VStr "telegram_backup") in
    let user := getattr config "postgres_user" (VStr "postgres") in
    let password := getattr config "postgres_password" (VStr "") in
    let pool_size := getattr config "postgres_pool_size" (VInt 5) in
    if negb (truthy password) then
      Raise (ValueError password_message)
    else
      Ok (PostgreSQLAdapter host port database user password pool_size)
  else
    Raise (ValueError (unsupported_message db_type)).

(** [db_type.lower() in ("sqlite-alchemy", "postgres-alchemy")] *)
Definition is_sqlalchemy_adapter (db_type : string) : bool :=
  let t := lower db_type in
  String.eqb t "sqlite-alchemy" || String.eqb t "postgres-alchemy".

(** The discriminators the factory builds an adapter for. *)
Definition supported : list string := ["sqlite-alchemy"; "postgres-alchemy"].


End Factory.

(** ** src/db_adapters/adapter.py *)

Module Adapter.

(** Aggregate statistics: entity name to count. *)
Abbreviation stats := (gmap string Z).

(** The operations of the abstract contract that return nothing. *)
Inductive adapter_call :=
| InitializeSchema
| Close
| UpsertChat (chat_data : row)
| InsertMessages (messages : list row)
| UpsertUser (user_data : row)
| UpsertMedia (media_data : row)
| InsertReactions (reactions : list row)
| UpdateSyncStatus (chat_id last_message_id message_count : value)
| SetMetadata (key val : value).

(** A backend implements the contract over its own state [A]; every
    operation may raise and leaves a new state behind. *)
Class DatabaseAdapter (A : Type) := {
  perform : adapter_call -> A -> result unit * A;
  get_stats : A -> result stats * A;
  delete_chat : value -> A -> result bool * A
}.

End Adapter.

(** ** src/migrate_to_postgres.py *)

Module Migrator.
Import Adapter.

(** The legacy store, [src.database.Database]: a read-only collaborator,
    whose answers do not change during a run.  A read returns or raises.
    [select_all t] stands for [get_connection()], [SELECT * FROM t],
    [dict(zip(columns, row))] over [fetchall()] and [conn.close()].
    [get_all_chats None] is the call without arguments. *)
Record SQLiteDatabase := {
  get_all_chats : option bool -> result (list row);
  get_messages : value -> nat -> nat -> result (list row);
  get_message_count : value -> result Z;
  select_all : string -> result (list row);
  get_metadata : result (list (string * value));
  db_close : result unit
}.

Inductive db_call :=
| GetAllChats (include_empty : option bool)
| GetMessages (chat_id : value) (limit offset : nat)
| GetMessageCount (chat_id : value)
| SelectAll (table : string)
| GetMetadata
| DbClose.

Inductive level := INFO | WARNING | ERROR.

(** The lines handed to [logger], by format string. *)
Inductive log_record :=
| Initialized_migrator (path : value)
| Migrating_table (table_name : string)
| Unknown_table (table_name : string)
| Error_reading (table_name : string) (e : exn)
| Error_migrating (table_name : string) (e : exn)
| Migrated (count : Z) (table_name : string)
| Verifying_migration
| Count_mismatch (key : string) (sqlite pg : Z)
| Count_ok (key : string) (n : Z)
| Verification_successful
| Verification_failed
| Starting_migration
| Password_not_set
| Database_not_found (path : value)
| Migrating_from (path : value)
| Migrating_to (host port database : value)
| Created_backup (path : value)
| Migration_completed
| Total_migrated (n : Z)
| Backup_available (path : value)
| To_use_the_new_database (line : nat)
| Migration_verification_failed
| Migration_failed (e : exn).

(** What a run does to the outside, in order. *)
Inductive event :=
| Logged (lvl : level) (r : log_record)
| DbRead (c : db_call)
| PgCall (c : adapter_call)
| PgGetStats.

(** [_convert_dict]: [if v == "": v = None]. *)
Definition convert_value (v : value) : value :=
  if decide (v = VStr "") then VNone else v.

Definition _convert_dict (r : row) : row :=
  map_fold (fun k v converted => <[k := convert_value v]> converted) ∅ r.

Definition batch_size : nat := 1000.

(** The tables [migrate_table] was entered for, read off its
    [Migrating table: ...] lines. *)
Definition invocations (tr : list event) : list string :=
  omap (fun ev => match ev with
                  | Logged INFO (Migrating_table t) => Some t
                  | _ => None
                  end) tr.

(** An event that does not announce a table. *)
Definition quiet (ev : event) : Prop := invocations [ev] = [].

(** The adapter write operations invoked, in order. *)
Definition pg_calls (tr : list event) : list adapter_call :=
  omap (fun ev => match ev with
                  | PgCall c => Some c
                  | _ => None
                  end) tr.

(** The table an event of a transfer works on: the table a line of
    [migrate_table] names, the table a read of the legacy store feeds
    ([get_all_chats(include_empty=True)] is the read of [_get_chats],
    [get_all_chats()] and [get_messages] those of [_get_messages]), and
    the table an adapter write fills. *)
Definition table_of (ev : event) : option string :=
  match ev with
  | Logged _ (Migrating_table t) | Logged _ (Unknown_table t)
  | Logged _ (Error_reading t _) | Logged _ (Error_migrating t _)
  | Logged _ (Migrated _ t) => Some t
  | DbRead (GetAllChats (Some _)) => Some "chats"
  | DbRead (GetAllChats None) | DbRead (GetMessages _ _ _) => Some "messages"
  | DbRead (SelectAll t) => Some t
  | DbRead GetMetadata => Some "metadata"
  | PgCall (UpsertChat _) => Some "chats"
  | PgCall (InsertMessages _) => Some "messages"
  | PgCall (UpsertUser _) => Some "users"
  | PgCall (UpsertMedia _) => Some "media"
  | PgCall (InsertReactions _) => Some "reactions"
  | PgCall (UpdateSyncStatus _ _ _) => Some "sync_status"
  | PgCall (SetMetadata _ _) => Some "metadata"
  | _ => None
  end.

(** No empty string among the values handed to an adapter write. *)
Definition clean_value (v : value) : Prop := v ≠ VStr "".

Definition clean_row (r : row) : Prop := forall k, r !! k ≠ Some (VStr "").

Definition clean_call (c : adapter_call) : Prop :=
  match c with
  | InitializeSchema | Close => True
  | UpsertChat r | UpsertUser r | UpsertMedia r => clean_row r
  | InsertMessages rs | InsertReactions rs => Forall clean_row rs
  | UpdateSyncStatus chat_id last_message_id message_count =>
      clean_value chat_id /\ clean_value last_message_id
      /\ clean_value message_count
  | SetMetadata key val => clean_value key /\ clean_value val
  end.

Definition clean_event (ev : event) : Prop :=
  match ev with
  | PgCall c => clean_call c
  | _ => True
  end.

(** The paging of the specification for one chat holding [n] messages:
    pages of [batch_size] rows at offsets 0, 1000, 2000, ..., the last
    request being the first whose page is short (or empty). *)
Definition spec_page_requests (chat_id : value) (n : nat) : list event :=
  (fun k => DbRead (GetMessages chat_id batch_size (k * batch_size)))
    <$> seq 0 (n / batch_size + 1).

(** Modelled from the spec: [get_messages] of the legacy store
    (src/database.py is missing), "paginated retrieval by chat with a
    limit/offset contract": a page that is returned is the [limit] rows
    after the first [offset] of the messages [stored] for the chat. *)
Definition paginated (db : SQLiteDatabase) (stored : value -> list row) : Prop :=
  forall chat_id limit offset rows,
    get_messages db chat_id limit offset = Ok rows ->
    rows = take limit (drop offset (stored chat_id)).

Section Run.
Context {A : Type} `{!DatabaseAdapter A}.

(** [datetime.fromisoformat]; raises [ValueError] on a malformed string. *)
Variable fromisoformat : string -> result Z.

Record world := World { pg : A; trace : list event }.

(** A computation of the migrator: it may return, raise, or (for the
    [while True] paging loop) use up its fuel, written [None]. *)
Definition M (X : Type) : Type := world -> option (result X) * world.

#[global] Instance M_ret : MRet M := fun _ x w => (Some (Ok x), w).

#[global] Instance M_bind : MBind M := fun _ _ k m w =>
  match m w with
  | (Some (Ok x), w') => k x w'
  | (Some (Raise e), w') => (Some (Raise e), w')
  | (None, w') => (None, w')
  end.

#[global] Instance M_fmap : FMap M := fun _ _ f m =>
  x ← m; mret (f x).

Definition lift {X} (r : result X) : M X := fun w => (Some r, w).

Definition diverge {X} : M X := fun w => (None, w).

(** [try: body  except Exception as e: handler e] *)
Definition try_except {X} (body : M X) (handler : exn -> M X) : M X :=
  fun w =>
    match body w with
    | (Some (Raise e), w') => handler e w'
    | r => r
    end.

Definition emit (ev : event) : M unit :=
  fun w => (Some (Ok tt), World (pg w) (trace w ++ [ev])).

Definition log (lvl : level) (r : log_record) : M unit := emit (Logged lvl r).

(** A call on the legacy store. *)
Definition db_do {X} (c : db_call) (r : result X) : M X :=
  fun w => (Some r, World (pg w) (trace w ++ [DbRead c])).

(** A call on the target adapter. *)
Definition pg_do (c : adapter_call) : M unit :=
  fun w =>
    let '(r, a) := perform c (pg w) in
    (Some r, World a (trace w ++ [PgCall c])).

Definition pg_get_stats : M stats :=
  fun w =>
    let '(r, a) := get_stats (pg w) in
    (Some r, World a (trace w ++ [PgGetStats])).

(** The adapter calls [cs] made one after the other, up to and
    including the first that raises: the calls made, the exception if
    one was raised, and the adapter's state at the end. *)
Fixpoint perform_all (cs : list adapter_call) (a : A)
  : list adapter_call * option exn * A :=
  match cs with
  | [] => ([], None, a)
  | c :: rest =>
      match perform c a with
      | (Ok _, a') =>
          let '(made, e, a'') := perform_all rest a' in (c :: made, e, a'')
      | (Raise e, a') => ([c], Some e, a')
      end
  end.

(** [m] appends events that all satisfy [Q], whatever its outcome, and
    the values it returns satisfy [φ]. *)
Definition emits {X} (Q : event -> Prop) (m : M X) (φ : X -> Prop) : Prop :=
  forall w,
    (exists δ, trace (m w).2 = trace w ++ δ /\ Forall Q δ)
    /\ (forall x, (m w).1 = Some (Ok x) -> φ x).

(** [m] never runs out of fuel. *)
Definition total {X} (m : M X) : Prop := forall w, (m w).1 ≠ None.

(** [m] leaves the target alone: it calls no adapter operation and the
    adapter's state is as before, whatever its outcome. *)
Definition reads_only {X} (m : M X) : Prop :=
  forall w,
    pg (m w).2 = pg w
    /\ exists δ, trace (m w).2 = trace w ++ δ /\ pg_calls δ = [].

(** [m] enters [migrate_table] for the tables [ts], one after the other
    (for the first of them only, if it runs out of fuel on the way). *)
Definition announces {X} (m : M X) (ts : list string) : Prop :=
  forall w, exists δ,
    trace (m w).2 = trace w ++ δ
    /\ invocations δ `prefix_of` ts
    /\ ((m w).1 ≠ None -> invocations δ = ts).

(** The world in which the first [try] of [migrate_table] starts. *)
Definition entered (table_name : string) (w : world) : world :=
  World (pg w) (trace w ++ [Logged INFO (Migrating_table table_name)]).

Section Migrator.
(** [self.sqlite_db] *)
Variable sqlite_db : SQLiteDatabase.

Definition _get_chats : M (list row) :=
  chats ← db_do (GetAllChats (Some true)) (get_all_chats sqlite_db (Some true));
  mret (_convert_dict <$> chats).

(** [if key in msg_dict and msg_dict[key]: if isinstance(.., str): ..] *)
Definition convert_date (key : string) (msg_dict : row) : result row :=
  match msg_dict !! key with
  | Some v =>
      if truthy v then
        match v with
        | VStr s => t ← fromisoformat s; mret (<[key := VDatetime t]> msg_dict)
        | _ => mret msg_dict
        end
      else mret msg_dict
  | None => mret msg_dict
  end.

Definition convert_message (msg : row) : result row :=
  let msg_dict := _convert_dict msg in
  msg_dict ← convert_date "date" msg_dict;
  convert_date "edit_date" msg_dict.

(** [for msg in messages: ...; all_messages.append(msg_dict)] *)
Fixpoint append_messages (messages all_messages : list row)
  : result (list row) :=
  match messages with
  | [] => mret all_messages
  | msg :: rest =>
      msg_dict ← convert_message msg;
      append_messages rest (all_messages ++ [msg_dict])
  end.

(** The [while True] loop of [_get_messages] for one chat. *)
Fixpoint page_loop (fuel : nat) (chat_id : value) (offset : nat)
    (all_messages : list row) : M (list row) :=
  match fuel with
  | O => diverge
  | S fuel' =>
      messages ← db_do (GetMessages chat_id batch_size offset)
                       (get_messages sqlite_db chat_id batch_size offset);
      match messages with
      | [] => mret all_messages
      | _ =>
          all_messages ← lift (append_messages messages all_messages);
          let offset := offset + batch_size in
          if length messages <? batch_size then mret all_messages
          else page_loop fuel' chat_id offset all_messages
      end
  end.

Fixpoint page_chats (fuel : nat) (chats : list row)
    (all_messages : list row) : M (list row) :=
  match chats with
  | [] => mret all_messages
  | chat :: rest =>
      chat_id ← lift (getitem chat "id");
      all_messages ← page_loop fuel chat_id 0 all_messages;
      page_chats fuel rest all_messages
  end.

Definition _get_messages (fuel : nat) : M (list row) :=
  chats ← db_do (GetAllChats None) (get_all_chats sqlite_db None);
  page_chats fuel chats [].

Definition select_converted (table : string) : M (list row) :=
  rows ← db_do (SelectAll table) (select_all sqlite_db table);
  mret (_convert_dict <$> rows).

Definition _get_users : M (list row) := select_converted "users".
Definition _get_media : M (list row) := select_converted "media".
Definition _get_reactions : M (list row) := select_converted "reactions".
Definition _get_sync_status : M (list row) := select_converted "sync_status".

Definition _get_metadata : M (list row) :=
  metadata ← db_do GetMetadata (get_metadata sqlite_db);
  mret ((fun kv => {[ "key" := VStr kv.1; "value" := kv.2 ]} : row) <$> metadata).

(** The first [try] block of [migrate_table]; [None] is the
    [Unknown table] branch. *)
Definition read_table (fuel : nat) (table_name : string)
  : M (option (list row)) :=
  if String.eqb table_name "chats" then Some <$> _get_chats
  else if String.eqb table_name "messages" then Some <$> _get_messages fuel
  else if String.eqb table_name "users" then Some <$> _get_users
  else if String.eqb table_name "media" then Some <$> _get_media
  else if String.eqb table_name "reactions" then Some <$> _get_reactions
  else if String.eqb table_name "sync_status" then Some <$> _get_sync_status
  else if String.eqb table_name "metadata" then Some <$> _get_metadata
  else log WARNING (Unknown_table table_name);; mret None.

(** The adapter write for one row. *)
Definition write_row (table_name : string) (r : row) : M unit :=
  if String.eqb table_name "chats" then pg_do (UpsertChat r)
  else if String.eqb table_name "messages" then mret tt
  else if String.eqb table_name "users" then pg_do (UpsertUser r)
  else if String.eqb table_name "media" then pg_do (UpsertMedia r)
  else if String.eqb table_name "reactions" then pg_do (InsertReactions [r])
  else if String.eqb table_name "sync_status" then
    chat_id ← lift (getitem r "chat_id");
    last_message_id ← lift (getitem r "last_message_id");
    message_count ← lift (getitem r "message_count");
    pg_do (UpdateSyncStatus chat_id last_message_id message_count)
  else if String.eqb table_name "metadata" then
    key ← lift (getitem r "key");
    val ← lift (getitem r "value");
    pg_do (SetMetadata key val)
  else mret tt.

(** [for row in sqlite_data: ...; count += 1] *)
Fixpoint write_rows (table_name : string)
    (transform_func : option (row -> result row))
    (sqlite_data : list row) (count : Z) : M Z :=
  match sqlite_data with
  | [] => mret count
  | r :: rest =>
      r ← lift (match transform_func with
                | Some f => f r
                | None => mret r
                end);
      write_row table_name r;;
      write_rows table_name transform_func rest (count + 1)%Z
  end.

Definition write_table (table_name : string)
    (transform_func : option (row -> result row))
    (sqlite_data : list row) : M Z :=
  count ← write_rows table_name transform_func sqlite_data 0%Z;
  (if String.eqb table_name "messages" && negb (bool_decide (sqlite_data = []))
   then pg_do (InsertMessages sqlite_data) else mret tt);;
  log INFO (Migrated count table_name);;
  mret count.

Definition migrate_table (fuel : nat) (table_name : string)
    (transform_func : option (row -> result row)) : M Z :=
  log INFO (Migrating_table table_name);;
  read ← try_except (inl <$> read_table fuel table_name)
           (fun e => log ERROR (Error_reading table_name e);; mret (inr 0%Z));
  match read with
  | inr returned => mret returned
  | inl None => mret 0%Z
  | inl (Some sqlite_data) =>
      try_except (write_table table_name transform_func sqlite_data)
        (fun e => log ERROR (Error_migrating table_name e);; mret 0%Z)
  end.

(** [sum(get_message_count(chat["id"]) for chat in chats)] *)
Fixpoint sum_message_counts (chats : list row) (acc : Z) : M Z :=
  match chats with
  | [] => mret acc
  | chat :: rest =>
      chat_id ← lift (getitem chat "id");
      n ← db_do (GetMessageCount chat_id) (get_message_count sqlite_db chat_id);
      sum_message_counts rest (acc + n)%Z
  end.

(** [for key in sqlite_stats: ...], with [pg_stats.get(key, 0)]. *)
Fixpoint compare_counts (sqlite_stats : list (string * Z)) (pg_stats : stats)
    (success : bool) : M bool :=
  match sqlite_stats with
  | [] => mret success
  | (key, n) :: rest =>
      let m := default 0%Z (pg_stats !! key) in
      if bool_decide (n ≠ m) then
        log ERROR (Count_mismatch key n m);;
        compare_counts rest pg_stats false
      else
        log INFO (Count_ok key n);;
        compare_counts rest pg_stats success
  end.

Definition verify_migration : M bool :=
  log INFO Verifying_migration;;
  chats ← db_do (GetAllChats None) (get_all_chats sqlite_db None);
  let n_chats := Z.of_nat (length chats) in
  chats ← db_do (GetAllChats None) (get_all_chats sqlite_db None);
  n_messages ← sum_message_counts chats 0%Z;
  let sqlite_stats := [("chats", n_chats); ("messages", n_messages)] in
  pg_stats ← pg_get_stats;
  success ← compare_counts sqlite_stats pg_stats true;
  (if (success : bool) then log INFO Verification_successful
   else log ERROR Verification_failed);;
  mret success.

(** [for table in tables: count = migrate_table(table); total += count] *)
Fixpoint migrate_tables (fuel : nat) (tables : list string)
    (total_migrated : Z) : M Z :=
  match tables with
  | [] => mret total_migrated
  | table :: rest =>
      count ← migrate_table fuel table None;
      migrate_tables fuel rest (total_migrated + count)%Z
  end.
End Migrator.

(** The order list of [main]. *)
Definition tables : list string :=
  ["users"; "chats"; "messages"; "media"; "reactions"; "sync_status"; "metadata"].

(** What [main] reaches outside the migrator: [Config()], [os.getenv],
    [os.path.exists], [shutil.copy2], and the constructors of the
    legacy store and of the adapter the factory selected. *)
Record Env := {
  new_Config : row;
  getenv : string -> option string;
  path_exists : value -> result bool;
  copy2 : value -> value -> result unit;
  open_database : value -> result SQLiteDatabase;
  connect : Factory.adapter_request -> result A
}.

(** [DataMigrator.__init__]; the events are appended to [tr]. *)
Definition new_DataMigrator (env : Env) (sqlite_db_path : value)
    (pg_config : row) (tr : list event)
  : result (SQLiteDatabase * A) * list event :=
  match
    sqlite_db ← open_database env sqlite_db_path;
    host ← getitem pg_config "host";
    port ← getitem pg_config "port";
    database ← getitem pg_config "database";
    user ← getitem pg_config "user";
    password ← getitem pg_config "password";
    let config : row :=
      <["postgres_password" := password]>
      (<["postgres_user" := user]>
      (<["postgres_db" := database]>
      (<["postgres_port" := port]>
      (<["postgres_host" := host]>
      (<["db_type" := VStr "postgres-alchemy"]> (new_Config env)))))) in
    request ← Factory.create_database_adapter config;
    a ← connect env request;
    mret (sqlite_db, a)
  with
  | Raise e => (Raise e, tr)
  | Ok (sqlite_db, a) =>
      let '(r, a) := perform InitializeSchema a in
      match r with
      | Raise e => (Raise e, tr ++ [PgCall InitializeSchema])
      | Ok _ =>
          (Ok (sqlite_db, a),
           tr ++ [PgCall InitializeSchema;
                  Logged INFO (Initialized_migrator sqlite_db_path)])
      end
  end.

(** The body of the [try] in [main] once the migrator exists. *)
Definition orchestrate (sqlite_db : SQLiteDatabase) (fuel : nat)
    (backup_path : value) : M Z :=
  total_migrated ← migrate_tables sqlite_db fuel tables 0%Z;
  verified ← verify_migration sqlite_db;
  if (verified : bool) then
    log INFO Migration_completed;;
    log INFO (Total_migrated total_migrated);;
    log INFO (Backup_available backup_path);;
    log INFO (To_use_the_new_database 0);;
    log INFO (To_use_the_new_database 1);;
    log INFO (To_use_the_new_database 2);;
    log INFO (To_use_the_new_database 3);;
    mret 0%Z
  else
    log ERROR Migration_verification_failed;;
    mret 1%Z.

(** [path + ".backup"] *)
Definition backup_of (path : value) : result value :=
  match path with
  | VStr p => Ok (VStr (p +:+ ".backup"))
  | _ => Raise (TypeError "unsupported operand type(s) for +")
  end.

(** The outcome of [main]: the value returned (or the exception that
    escaped; [None] when the fuel ran out), the events in order, and
    the adapter's state if the migrator was built. *)
Record run := Run {
  status : option (result Z);
  events : list event;
  target : option A
}.

Definition env_password_set (env : Env) : bool :=
  match getenv env "POSTGRES_PASSWORD" with
  | Some s => truthy (VStr s)
  | None => false
  end.

(** How [main] can end before its [try]. *)
Inductive early :=
| Returned (code : Z)
| Escaped (e : exn).

(** [main] up to the backup: the credential check, [pg_config], the
    check of the store file and [shutil.copy2]. *)
Definition prepare (env : Env)
  : (early + (value * value * row)) * list event :=
  let tr := [Logged INFO Starting_migration] in
  let config := new_Config env in
  if negb (env_password_set env) then
    (inl (Returned 1), tr ++ [Logged ERROR Password_not_set])
  else
    let host := getattr config "postgres_host" (VStr "localhost") in
    let port := getattr config "postgres_port" (VInt 5432) in
    let database := getattr config "postgres_db" (VStr "telegram_backup") in
    let pg_config : row :=
      {[ "host" := host; "port" := port; "database" := database;
         "user" := getattr config "postgres_user" (VStr "postgres");
         "password" := getattr config "postgres_password" (VStr "") ]} in
    match path ← attr config "database_path";
          found ← path_exists env path;
          mret (path, found) with
    | Raise e => (inl (Escaped e), tr)
    | Ok (path, false) =>
        (inl (Returned 1), tr ++ [Logged ERROR (Database_not_found path)])
    | Ok (path, true) =>
        let tr := tr ++ [Logged INFO (Migrating_from path);
                         Logged INFO (Migrating_to host port database)] in
        match backup_path ← backup_of path;
              copy2 env path backup_path;;
              mret backup_path with
        | Raise e => (inl (Escaped e), tr)
        | Ok backup_path =>
            (inr (path, backup_path, pg_config),
             tr ++ [Logged INFO (Created_backup backup_path)])
        end
    end.

(** The [finally] block when [migrator] is bound. *)
Definition teardown (sqlite_db : SQLiteDatabase) : M unit :=
  pg_do Close;; db_do DbClose (db_close sqlite_db).

Definition main (env : Env) (fuel : nat) : run :=
  match prepare env with
  | (inl (Returned code), tr) => Run (Some (Ok code)) tr None
  | (inl (Escaped e), tr) => Run (Some (Raise e)) tr None
  | (inr (path, backup_path, pg_config), tr) =>
      match new_DataMigrator env path pg_config tr with
      | (Raise e, tr) =>
          (* [except Exception]; [migrator] is unbound in [finally] *)
          Run (Some (Ok 1%Z)) (tr ++ [Logged ERROR (Migration_failed e)]) None
      | (Ok (sqlite_db, a), tr) =>
          let '(r, w) :=
            try_except (orchestrate sqlite_db fuel backup_path)
              (fun e => log ERROR (Migration_failed e);; mret 1%Z)
              (World a tr) in
          match r with
          | None => Run None (trace w) (Some (pg w))
          | Some r =>
              let '(c, w) := teardown sqlite_db w in
              Run (match c with
                   | Some (Ok _) => Some r
                   | Some (Raise e) => Some (Raise e)
                   | None => None
                   end) (trace w) (Some (pg w))
          end
      end
  end.
End Run.
End Migrator.

(** ** A reference adapter *)

Module Reference.
Import Adapter.

(** Modelled from the spec: the concrete adapters (sqlite_adapter.py and
    postgres_adapter.py, imported by factory.py) are missing from the
    sources, so the data semantics of the contract is taken from the
    specification, section 4.1 and the invariants of section 3.  The
    store holds the seven tables as lists of rows.  Connections and
    teardown are not data and are not modelled. *)
Record store := Store {
  chats : list row;
  messages : list row;
  users : list row;
  media : list row;
  reactions : list row;
  sync_status : list row;
  metadata : list row
}.

Definition empty : store := Store [] [] [] [] [] [] [].

(** [r] carries [v] in column [key]. *)
Definition has (key : string) (v : value) (r : row) : bool :=
  bool_decide (r !! key = Some v).

Definition same_key (keys : list string) (r old : row) : bool :=
  forallb (fun key => bool_decide (r !! key = old !! key)) keys.

(** Modelled from the spec: upsert, "insert-or-update by primary key",
    on the key columns [keys] (sqlite_adapter.py and postgres_adapter.py
    are missing); a row without one of them is refused. *)
Definition upsert (keys : list string) (r : row) (table : list row)
  : result (list row) :=
  if forallb (fun key => bool_decide (is_Some (r !! key))) keys then
    if existsb (same_key keys r) table then
      Ok ((fun old => if same_key keys r old then r ∪ old else old) <$> table)
    else Ok (table ++ [r])
  else Raise (DatabaseError "null value in key column").

(** Modelled from the spec: a batch insert (the adapters are missing),
    "either fully applies or fully rolls back". *)
Fixpoint upsert_all (keys : list string) (rows table : list row)
  : result (list row) :=
  match rows with
  | [] => Ok table
  | r :: rest => table ← upsert keys r table; upsert_all keys rest table
  end.

Definition keeps (key : string) (v : value) (table : list row) : list row :=
  List.filter (fun r => negb (has key v r)) table.

(** Modelled from the spec: the write operations of the missing adapters.
    Chats, users and media are upserted by id, messages by (id, chat_id),
    "duplicates from re-ingestion must not error"; reactions are
    "strictly additive"; sync status is "a single upsert-style update
    keyed by chat id"; metadata is "insert-or-overwrite" by key. *)
Definition ref_perform (c : adapter_call) (st : store) : result unit * store :=
  let put (r : result store) :=
    match r with
    | Ok st' => (Ok tt, st')
    | Raise e => (Raise e, st)
    end in
  match c with
  | InitializeSchema | Close => (Ok tt, st)
  | UpsertChat r =>
      put (t ← upsert ["id"] r (chats st);
           mret (Store t (messages st) (users st) (media st) (reactions st)
                       (sync_status st) (metadata st)))
  | InsertMessages rs =>
      put (t ← upsert_all ["id"; "chat_id"] rs (messages st);
           mret (Store (chats st) t (users st) (media st) (reactions st)
                       (sync_status st) (metadata st)))
  | UpsertUser r =>
      put (t ← upsert ["id"] r (users st);
           mret (Store (chats st) (messages st) t (media st) (reactions st)
                       (sync_status st) (metadata st)))
  | UpsertMedia r =>
      put (t ← upsert ["id"] r (media st);
           mret (Store (chats st) (messages st) (users st) t (reactions st)
                       (sync_status st) (metadata st)))
  | InsertReactions rs =>
      (Ok tt, Store (chats st) (messages st) (users st) (media st)
                    (reactions st ++ rs) (sync_status st) (metadata st))
  | UpdateSyncStatus chat_id last_message_id message_count =>
      put (t ← upsert ["chat_id"]
                 {[ "chat_id" := chat_id; "last_message_id" := last_message_id;
                    "message_count" := message_count ]} (sync_status st);
           mret (Store (chats st) (messages st) (users st) (media st)
                       (reactions st) t (metadata st)))
  | SetMetadata key val =>
      put (t ← upsert ["key"] {[ "key" := key; "value" := val ]} (metadata st);
           mret (Store (chats st) (messages st) (users st) (media st)
                       (reactions st) (sync_status st) t))
  end.

(** Modelled from the spec: [get_stats] of the missing adapters, "total
    counts across all major entities (chats, messages, users, media)". *)
Definition ref_get_stats (st : store) : result stats * store :=
  (Ok {[ "chats" := Z.of_nat (length (chats st));
         "messages" := Z.of_nat (length (messages st));
         "users" := Z.of_nat (length (users st));
         "media" := Z.of_nat (length (media st)) ]}, st).

(** Modelled from the spec: [delete_chat] of the missing adapters
    (sqlite_adapter.py, postgres_adapter.py; adapter.py only declares
    it), a "cascading delete returning whether a row existed", where
    "Chat deletion cascades to its Messages, Media, and SyncStatus (not
    to Users, which are shared across chats)"; a Message "owns
    Reactions", which go with it. *)
Definition ref_delete_chat (chat_id : value) (st : store) : result bool * store :=
  if existsb (has "id" chat_id) (chats st) then
    (Ok true,
     Store (keeps "id" chat_id (chats st))
           (keeps "chat_id" chat_id (messages st))
           (users st)
           (keeps "chat_id" chat_id (media st))
           (keeps "chat_id" chat_id (reactions st))
           (keeps "chat_id" chat_id (sync_status st))
           (metadata st))
  else (Ok false, st).

#[global] Instance reference_adapter : DatabaseAdapter store := {
  perform := ref_perform;
  get_stats := ref_get_stats;
  delete_chat := ref_delete_chat
}.

End Reference.

(** ** Example runs *)

Module Examples.
Import Adapter Migrator.

(** The legacy store of tests/test_migration.py: one chat, one message
    of it and one metadata key; the tables users, media, reactions and
    sync_status do not exist, so reading them raises. *)
Definition test_chat : row :=
  {[ "id" := VInt 123; "type" := VStr "private"; "title" := VStr "Test Chat";
     "first_name" := VStr "Test User" ]}.

Definition test_message : row :=
  {[ "id" := VInt 1; "chat_id" := VInt 123; "text" := VStr "Hello from SQLite";
     "date" := VStr "2024-01-01 00:00:00" ]}.

Definition test_stored (chat_id : value) : list row :=
  if decide (chat_id = VInt 123) then [test_message] else [].

Definition test_db : SQLiteDatabase := {|
  get_all_chats := fun _ => Ok [test_chat];
  get_messages := fun chat_id limit offset =>
    Ok (take limit (drop offset (test_stored chat_id)));
  get_message_count := fun chat_id => Ok (Z.of_nat (length (test_stored chat_id)));
  select_all := fun table => Raise (DatabaseError ("no such table: " +:+ table));
  get_metadata := Ok [("owner_id", VStr "456")];
  db_close := Ok tt
|}.

(** The same store with a metadata value that is the empty string. *)
Definition blank_metadata_db : SQLiteDatabase := {|
  get_all_chats := get_all_chats test_db;
  get_messages := get_messages test_db;
  get_message_count := get_message_count test_db;
  select_all := select_all test_db;
  get_metadata := Ok [("note", VStr "")];
  db_close := Ok tt
|}.

(** A stand-in for [datetime.fromisoformat] that accepts every string. *)
Definition test_fromisoformat (s : string) : result Z := Ok 0%Z.

Definition test_config : row :=
  {[ "database_path" := VStr "/data/telegram_backup.db";
     "postgres_user" := VStr "telegram";
     "postgres_password" := VStr "secure_password_123" ]}.

(** An environment in which everything outside the migrator works and
    the target is the reference adapter, empty. *)
Definition test_env : Env (A:=Reference.store) := {|
  new_Config := test_config;
  getenv := fun name =>
    if String.eqb name "POSTGRES_PASSWORD" then Some "secure_password_123"
    else None;
  path_exists := fun _ => Ok true;
  copy2 := fun _ _ => Ok tt;
  open_database := fun _ => Ok test_db;
  connect := fun _ => Ok Reference.empty
|}.

(** The world the migrator of [test_env] starts in. *)
Definition test_world : world (A:=Reference.store) := World Reference.empty [].

(** A target holding the chat of [test_db], its message, media and sync
    status, and the user who sent the message. *)
Definition test_user : row :=
  {[ "id" := VInt 456; "username" := VStr "owner" ]}.

Definition test_store : Reference.store := {|
  Reference.chats := [test_chat];
  Reference.messages := [<["sender_id" := VInt 456]> test_message];
  Reference.users := [test_user];
  Reference.media := [ {[ "id" := VStr "file-1"; "chat_id" := VInt 123 ]} ];
  Reference.reactions := [];
  Reference.sync_status :=
    [ {[ "chat_id" := VInt 123; "last_message_id" := VInt 1;
         "message_count" := VInt 1 ]} ];
  Reference.metadata := []
|}.

(** The world after the transfer of [test_db], before verification. *)
Definition migrated_world : world (A:=Reference.store) := World test_store [].

(** A store whose only chat holds exactly one full page of messages. *)
Definition full_page_db : SQLiteDatabase := {|
  get_all_chats := get_all_chats test_db;
  get_messages := fun chat_id limit offset =>
    Ok (take limit (drop offset (replicate 1000 test_message)));
  get_message_count := fun _ => Ok 1000%Z;
  select_all := select_all test_db;
  get_metadata := get_metadata test_db;
  db_close := Ok tt
|}.

(** A stand-in for [datetime.fromisoformat] that rejects everything but
    the date of [test_message]. *)
Definition strict_fromisoformat (s : string) : result Z :=
  if String.eqb s "2024-01-01 00:00:00" then Ok 0%Z
  else Raise (ValueError ("Invalid isoformat string: " +:+ s)).

(** The store of the migration test with a second message in the chat,
    whose date does not parse. *)
Definition malformed_message : row :=
  {[ "id" := VInt 2; "chat_id" := VInt 123; "text" := VStr "Hello again";
     "date" := VStr "yesterday" ]}.

Definition malformed_stored (chat_id : value) : list row :=
  if decide (chat_id = VInt 123) then [test_message; malformed_message] else [].

Definition malformed_db : SQLiteDatabase := {|
  get_all_chats := get_all_chats test_db;
  get_messages := fun chat_id limit offset =>
    Ok (take limit (drop offset (malformed_stored chat_id)));
  get_message_count := fun chat_id =>
    Ok (Z.of_nat (length (malformed_stored chat_id)));
  select_all := select_all test_db;
  get_metadata := get_metadata test_db;
  db_close := Ok tt
|}.

(** A [transform_func] that rewrites the text of a row. *)
Definition redact (r : row) : result row := Ok (<["text" := VStr "(redacted)"]> r).

(** A legacy store with all seven tables: the chat and the message of
    the migration test, the user who sent it, a media file without a file
    name, a reaction, the sync status of the chat and the metadata key. *)
Definition test_media : row :=
  {[ "id" := VStr "file-1"; "chat_id" := VInt 123; "type" := VStr "photo";
     "file_name" := VStr "" ]}.

Definition test_reaction : row :=
  {[ "message_id" := VInt 1; "chat_id" := VInt 123; "emoji" := VStr "+1" ]}.

Definition test_sync_status : row :=
  {[ "chat_id" := VInt 123; "last_message_id" := VInt 1;
     "message_count" := VInt 1; "last_sync_date" := VStr "2024-01-01 00:00:00" ]}.

Definition full_db : SQLiteDatabase := {|
  get_all_chats := get_all_chats test_db;
  get_messages := get_messages test_db;
  get_message_count := get_message_count test_db;
  select_all := fun table =>
    if String.eqb table "users" then Ok [test_user]
    else if String.eqb table "media" then Ok [test_media]
    else if String.eqb table "reactions" then Ok [test_reaction]
    else if String.eqb table "sync_status" then Ok [test_sync_status]
    else Raise (DatabaseError ("no such table: " +:+ table));
  get_metadata := get_metadata test_db;
  db_close := Ok tt
|}.

Definition full_env : Env (A:=Reference.store) := {|
  new_Config := test_config;
  getenv := getenv test_env;
  path_exists := path_exists test_env;
  copy2 := copy2 test_env;
  open_database := fun _ => Ok full_db;
  connect := connect test_env
|}.

(** A store whose only chat holds 2500 messages: two full pages and a
    short one. *)
Definition paged_stored (chat_id : value) : list row :=
  if decide (chat_id = VInt 123) then replicate 2500 test_message else [].

Definition paged_db : SQLiteDatabase := {|
  get_all_chats := get_all_chats test_db;
  get_messages := fun chat_id limit offset =>
    Ok (take limit (drop offset (paged_stored chat_id)));
  get_message_count := fun chat_id =>
    Ok (Z.of_nat (length (paged_stored chat_id)));
  select_all := select_all test_db;
  get_metadata := get_metadata test_db;
  db_close := Ok tt
|}.

(** No credential in the environment. *)
Definition no_password_env : Env (A:=Reference.store) := {|
  new_Config := test_config;
  getenv := fun _ => None;
  path_exists := path_exists test_env;
  copy2 := copy2 test_env;
  open_database := open_database test_env;
  connect := connect test_env
|}.

End Examples.

(** * Properties *)

(** ** Schema namespaces (models.py) *)

Module ModelsFacts.
Import Schema Models Package.

Lemma table_schema_kwargs (name : string) (args : list table_arg)
    (rels : list relationship) (schema : option string) :
  table_schema {| tablename := name;
                  table_args := args ++ [schema_kwargs schema];
                  foreign_keys := [];
                  relationships := rels |}
  = match schema with
    | Some s => if String.eqb s "" then None else Some s
    | None => None
    end.
Proof.
  unfold table_schema; simpl. rewrite last_snoc.
  destruct schema as [s|]; simpl; [|done].
  destruct (String.eqb s ""); simpl; [done|].
  by rewrite lookup_singleton_eq.
Qed.

(** What the class bodies do with a name that is there when they run:
    six of the seven pass it on. *)
Lemma namespaced_tables (s : string) (m : Schema.state -> model) :
  s ≠ "" ->
  m ∈ [Message; User; Media; Reaction; SyncStatus; Metadata] ->
  table_schema (m (set_schema_name (Some s) initial)) = Some s.
Proof.
  intros Hs Hm.
  assert (String.eqb s "" = false) as Hf by by apply String.eqb_neq.
  repeat (apply elem_of_cons in Hm as [->|Hm]);
    [ | | | | | | by apply elem_of_nil in Hm ];
    unfold table_schema; simpl; unfold schema_kwargs; rewrite Hf;
    by rewrite lookup_singleton_eq.
Qed.

(** [Chat.__table_args__] holds indexes only: the class body reads the
    name and does not use it. *)
Lemma chat_table_schema (st : Schema.state) : table_schema (Chat st) = None.
Proof. reflexivity. Qed.

(** Of the relationships of [Chat], [messages] and [media_files] cascade
    deletes; [sync_status] is declared without a cascade. *)
Lemma chat_relationship_cascades (st : Schema.state) :
  (fun r => (rel_name r, rel_cascade r)) <$> relationships (Chat st)
  = [ ("messages", Some "all, delete-orphan");
      ("media_files", Some "all, delete-orphan");
      ("sync_status", None) ].
Proof. reflexivity. Qed.




(** A name set through [set_schema_name] is returned by
    [get_schema_name] and reaches no table. *)
Example archive_set_after_import :
  let l := import_package (run [SetSchemaName (Some "archive"); Import]) in
  get_schema_name (schema_name l) = Some "archive"
  /\ table_schema <$> declared l = replicate 7 None.
Proof. split; reflexivity. Qed.

End ModelsFacts.

(** ** The factory (factory.py) *)

Module FactoryFacts.
Import Factory.

Lemma lower_ascii_idemp (c : ascii) : lower_ascii (lower_ascii c) = lower_ascii c.
Proof. by destruct c as [[] [] [] [] [] [] [] []]. Qed.

Lemma lower_idemp (s : string) : lower (lower s) = lower s.
Proof. induction s as [|c s IH]; simpl; [done|]. by rewrite lower_ascii_idemp, IH. Qed.

Lemma getattr_insert_ne (config : row) (k name : string) (v d : value) :
  k ≠ name -> getattr (<[k := v]> config) name d = getattr config name d.
Proof. intros Hne. unfold getattr. by rewrite lookup_insert_ne. Qed.

Lemma getattr_insert_eq (config : row) (k : string) (v d : value) :
  getattr (<[k := v]> config) k d = v.
Proof. unfold getattr. by rewrite lookup_insert_eq. Qed.

Lemma attr_insert_ne (config : row) (k name : string) (v : value) :
  k ≠ name -> attr (<[k := v]> config) name = attr config name.
Proof. intros Hne. unfold attr. by rewrite lookup_insert_ne. Qed.

(** Unfolds the factory up to the comparison chain on the lowercased
    discriminator. *)
Ltac enter_factory Hg :=
  unfold create_database_adapter, db_type_of; rewrite Hg;
  unfold mbind, result_bind.

Lemma create_not_str (config : row) :
  (forall s, getattr config "db_type" (VStr "sqlite") ≠ VStr s) ->
  create_database_adapter config = Raise (AttributeError "lower").
Proof.
  intros Hs. unfold create_database_adapter, db_type_of.
  destruct (getattr config "db_type" (VStr "sqlite")) as [| | |s|]; try done.
  by destruct (Hs s).
Qed.



(** C10: the discriminator is compared after [lower()], so two
    configurations that differ only in its letter case get the same
    answer; "sqlite" in any case (and a missing [db_type]) raises the
    [ValueError] that points to [src.database.Database]; and an adapter
    is requested only for "sqlite-alchemy" and "postgres-alchemy". *)
Theorem create_database_adapter_discriminator (config : row) :
  (forall s s', lower s = lower s' ->
     create_database_adapter (<["db_type" := VStr s]> config)
     = create_database_adapter (<["db_type" := VStr s']> config))
  /\ (forall s, getattr config "db_type" (VStr "sqlite") = VStr s ->
        lower s = "sqlite" ->
        create_database_adapter config = Raise (ValueError sqlite_message))
  /\ (forall request, create_database_adapter config = Ok request ->
        exists s, config !! "db_type" = Some (VStr s)
          /\ (lower s = "sqlite-alchemy"
                /\ (exists p t, request = SQLiteAdapter p t)
              \/ lower s = "postgres-alchemy"
                /\ (exists h p d u w n, request = PostgreSQLAdapter h p d u w n))).
Proof.
  split; [|split].
  - intros s s' Hl.
    enter_factory (getattr_insert_eq config "db_type" (VStr s) (VStr "sqlite")).
    enter_factory (getattr_insert_eq config "db_type" (VStr s') (VStr "sqlite")).
    rewrite Hl, !getattr_insert_ne, !attr_insert_ne by done. reflexivity.
  - intros s Hs Hl. enter_factory Hs. rewrite Hl. reflexivity.
  - intros request Hok.
    destruct (getattr config "db_type" (VStr "sqlite")) as [| | |s|] eqn:Hg;
      try (rewrite create_not_str in Hok; [discriminate|intros s'; by rewrite Hg]).
    revert Hok. enter_factory Hg. intros Hok.
    destruct (String.eqb_spec (lower s) "sqlite") as [|Hne]; [discriminate|].
    assert (config !! "db_type" = Some (VStr s)) as Hcfg.
    { unfold getattr in Hg. destruct (config !! "db_type") as [v|] eqn:E.
      - by subst.
      - injection Hg as <-. by destruct Hne. }
    exists s. split; [done|].
    destruct (String.eqb_spec (lower s) "sqlite-alchemy") as [E|_].
    + left. split; [done|].
      destruct (attr config "database_path") as [p|]; [|discriminate].
      destruct (attr config "database_timeout") as [t|]; [|discriminate].
      injection Hok as <-. eauto.
    + destruct (String.eqb_spec (lower s) "postgres-alchemy") as [E|_];
        [|discriminate].
      right. split; [done|].
      destruct (negb _); [discriminate|]. injection Hok as <-.
      do 6 eexists. reflexivity.
Qed.

End FactoryFacts.

(** ** The migrator (migrate_to_postgres.py) *)

Module MigratorFacts.
Import Adapter Migrator.

Section Logic.
Context {A : Type} `{!DatabaseAdapter A}.

Implicit Types (Q : event -> Prop) (w : world (A:=A)).

(** *** Rules for [emits] *)

Lemma emits_ret {X} Q (x : X) (φ : X -> Prop) : φ x -> emits Q (mret x : M (A:=A) X) φ.
Proof.
  intros Hx w. split.
  - exists []. by rewrite app_nil_r.
  - intros y [= <-]. done.
Qed.

Lemma emits_bind {X Y} Q (m : M (A:=A) X) (k : X -> M (A:=A) Y) (φ : X -> Prop) (ψ : Y -> Prop) :
  emits Q m φ -> (forall x, φ x -> emits Q (k x) ψ) -> emits Q (m ≫= k) ψ.
Proof.
  intros Hm Hk w. destruct (Hm w) as [(δ & Ht & HQ) Hφ].
  unfold mbind, M_bind. destruct (m w) as [[[x|e]|] w1]; simpl in *.
  - destruct (Hk x (Hφ x eq_refl) w1) as [(δ' & Ht' & HQ') Hψ]. split; [|done].
    exists (δ ++ δ'). rewrite Ht', Ht, app_assoc. split; [done|]. by apply Forall_app.
  - split; [eauto|]. intros y [=].
  - split; [eauto|]. intros y [=].
Qed.

Lemma emits_weaken {X} Q (m : M (A:=A) X) (φ ψ : X -> Prop) :
  emits Q m φ -> (forall x, φ x -> ψ x) -> emits Q m ψ.
Proof. intros Hm Hi w. destruct (Hm w) as [? Hφ]. split; [done|]. eauto. Qed.

Lemma emits_fmap {X Y} Q (f : X -> Y) (m : M (A:=A) X) (φ : X -> Prop) (ψ : Y -> Prop) :
  emits Q m φ -> (forall x, φ x -> ψ (f x)) -> emits Q (f <$> m) ψ.
Proof.
  intros Hm Hf. unfold fmap, M_fmap. eapply emits_bind; [exact Hm|].
  intros x Hx. apply emits_ret. auto.
Qed.

Lemma emits_lift {X} Q (r : result X) (φ : X -> Prop) :
  (forall x, r = Ok x -> φ x) -> emits Q (lift r : M (A:=A) X) φ.
Proof.
  intros Hr w. split.
  - exists []. by rewrite app_nil_r.
  - intros x [= ->]. auto.
Qed.

Lemma emits_diverge {X} Q (φ : X -> Prop) : emits Q (diverge : M (A:=A) X) φ.
Proof.
  intros w. split.
  - exists []. by rewrite app_nil_r.
  - intros x [=].
Qed.

Lemma emits_emit Q (ev : event) (φ : unit -> Prop) :
  Q ev -> φ tt -> emits Q (emit ev : M (A:=A) unit) φ.
Proof.
  intros Hev Hφ w. split.
  - exists [ev]. split; [done|]. by apply Forall_singleton.
  - by intros [] _.
Qed.

Lemma emits_log Q lvl r (φ : unit -> Prop) :
  Q (Logged lvl r) -> φ tt -> emits Q (log lvl r : M (A:=A) unit) φ.
Proof. apply emits_emit. Qed.

Lemma emits_db_do {X} Q (c : db_call) (r : result X) (φ : X -> Prop) :
  Q (DbRead c) -> (forall x, r = Ok x -> φ x) -> emits Q (db_do c r : M (A:=A) X) φ.
Proof.
  intros Hc Hr w. split.
  - exists [DbRead c]. split; [done|]. by apply Forall_singleton.
  - intros x [= ->]. auto.
Qed.

Lemma emits_pg_do Q (c : adapter_call) (φ : unit -> Prop) :
  Q (PgCall c) -> φ tt -> emits Q (pg_do c) φ.
Proof.
  intros Hc Hφ w. unfold pg_do. destruct (perform c (pg w)) as [r a]. split.
  - exists [PgCall c]. split; [done|]. by apply Forall_singleton.
  - by intros [] _.
Qed.

Lemma emits_pg_get_stats Q (φ : stats -> Prop) :
  Q PgGetStats -> (forall st, φ st) -> emits Q pg_get_stats φ.
Proof.
  intros Hc Hφ w. unfold pg_get_stats. destruct (get_stats (pg w)) as [r a]. split.
  - exists [PgGetStats]. split; [done|]. by apply Forall_singleton.
  - auto.
Qed.

Lemma emits_try {X} Q (body : M (A:=A) X) (handler : exn -> M (A:=A) X) (φ : X -> Prop) :
  emits Q body φ -> (forall e, emits Q (handler e) φ) ->
  emits Q (try_except body handler) φ.
Proof.
  intros Hb Hh w. destruct (Hb w) as [(δ & Ht & HQ) Hφ].
  unfold try_except. destruct (body w) as [[[x|e]|] w1]; simpl in *.
  - split; [eauto|]. done.
  - destruct (Hh e w1) as [(δ' & Ht' & HQ') Hψ]. split; [|done].
    exists (δ ++ δ'). rewrite Ht', Ht, app_assoc. split; [done|]. by apply Forall_app.
  - split; [eauto|]. done.
Qed.

Lemma log_then_trace {X} Q lvl r (k : M (A:=A) X) (φ : X -> Prop) w :
  emits Q k φ ->
  exists δ, trace ((log lvl r ≫= fun _ => k) w).2 = trace w ++ Logged lvl r :: δ
            /\ Forall Q δ.
Proof.
  intros Hk. unfold mbind, M_bind, log, emit. simpl.
  destruct (Hk (World (pg w) (trace w ++ [Logged lvl r]))) as [(δ & Ht & HQ) _].
  exists δ. split; [|done]. rewrite Ht. simpl. by rewrite <- app_assoc.
Qed.

(** *** Rules for [total] *)

Lemma total_ret {X} (x : X) : total (mret x : M (A:=A) X).
Proof. by intros w. Qed.

Lemma total_bind {X Y} (m : M (A:=A) X) (k : X -> M (A:=A) Y) :
  total m -> (forall x, total (k x)) -> total (m ≫= k).
Proof.
  intros Hm Hk w. specialize (Hm w). unfold mbind, M_bind.
  destruct (m w) as [[[x|e]|] w1]; simpl in *; [apply Hk|done|done].
Qed.

Lemma total_fmap {X Y} (f : X -> Y) (m : M (A:=A) X) : total m -> total (f <$> m).
Proof. intros Hm. apply total_bind; [done|]. intros x. apply total_ret. Qed.

Lemma total_lift {X} (r : result X) : total (lift r : M (A:=A) X).
Proof. by intros w. Qed.

Lemma total_log lvl r : total (log lvl r : M (A:=A) unit).
Proof. by intros w. Qed.

Lemma total_db_do {X} (c : db_call) (r : result X) : total (db_do c r : M (A:=A) X).
Proof. by intros w. Qed.

Lemma total_pg_do (c : adapter_call) : total (pg_do c).
Proof. intros w. unfold pg_do. by destruct (perform c (pg w)). Qed.

Lemma total_pg_get_stats : total pg_get_stats.
Proof. intros w. unfold pg_get_stats. by destruct (get_stats (pg w)). Qed.

Lemma total_try {X} (body : M (A:=A) X) (handler : exn -> M (A:=A) X) :
  total body -> (forall e, total (handler e)) -> total (try_except body handler).
Proof.
  intros Hb Hh w. specialize (Hb w). unfold try_except.
  destruct (body w) as [[[x|e]|] w1]; simpl in *; [done|apply Hh|done].
Qed.

End Logic.

(** The side condition [Q ev], from the hypotheses on [Q]. *)
Ltac emits_side :=
  first [ done
        | match goal with H : _ |- _ => apply H; done end ].

(** One step of a proof that a computation emits only [Q]-events. *)
Ltac emits_step :=
  cbv beta iota;
  lazymatch goal with
  | |- emits _ (mret _) _ => apply emits_ret; exact I
  | |- emits _ (lift _) _ => apply emits_lift; intros; exact I
  | |- emits _ (log _ _) _ => apply emits_log; [emits_side | exact I]
  | |- emits _ (db_do _ _) _ => apply emits_db_do; [emits_side | intros; exact I]
  | |- emits _ (pg_do _) _ => apply emits_pg_do; [emits_side | exact I]
  | |- emits _ pg_get_stats _ =>
      apply emits_pg_get_stats; [emits_side | intros; exact I]
  | |- emits _ diverge _ => apply emits_diverge
  | |- emits _ (fmap _ _) _ =>
      apply (emits_fmap _ _ _ (fun _ => True)); [|intros; exact I]
  | |- emits _ (try_except _ _) _ => apply emits_try; [|intros ?]
  | |- emits _ (mbind _ _) _ =>
      apply (emits_bind _ _ _ (fun _ => True)); [|intros ? _]
  | |- emits _ (if ?b then _ else _) _ => destruct b
  | |- emits _ (match ?x with _ => _ end) _ => destruct x
  end.

(** *** What each method of the migrator emits *)

Section Reads.
Context {A : Type} `{!DatabaseAdapter A}.
Variable fromisoformat : string -> result Z.
Variable sqlite_db : SQLiteDatabase.
Variable Q : event -> Prop.
Hypothesis Q_db : forall c, Q (DbRead c).
Hypothesis Q_log : forall lvl r, (forall t, r ≠ Migrating_table t) -> Q (Logged lvl r).

Lemma emits_page_loop fuel chat_id offset all_messages :
  emits (A:=A) Q (page_loop fromisoformat sqlite_db fuel chat_id offset all_messages)
    (fun _ => True).
Proof.
  revert offset all_messages.
  induction fuel as [|fuel IH]; intros offset acc; simpl; [apply emits_diverge|].
  apply (emits_bind _ _ _ (fun _ => True)); [apply emits_db_do; [done | intros; exact I]|].
  intros [|m ms] _; [emits_step|].
  apply (emits_bind _ _ _ (fun _ => True)); [apply emits_lift; intros; exact I|]. intros acc' _.
  destruct (_ <? _); [emits_step | apply IH].
Qed.

Lemma emits_page_chats fuel chats all_messages :
  emits (A:=A) Q (page_chats fromisoformat sqlite_db fuel chats all_messages)
    (fun _ => True).
Proof.
  revert all_messages. induction chats as [|chat rest IH]; intros acc; simpl.
  - emits_step.
  - emits_step; [emits_step|]. emits_step; [apply emits_page_loop | apply IH].
Qed.

Lemma emits_get_messages fuel :
  emits (A:=A) Q (_get_messages fromisoformat sqlite_db fuel) (fun _ => True).
Proof. unfold _get_messages. emits_step; [emits_step | apply emits_page_chats]. Qed.

Lemma emits_select_converted table :
  emits (A:=A) Q (select_converted sqlite_db table) (fun _ => True).
Proof. unfold select_converted. repeat emits_step. Qed.

Lemma emits_get_chats : emits (A:=A) Q (_get_chats sqlite_db) (fun _ => True).
Proof. unfold _get_chats. repeat emits_step. Qed.

Lemma emits_get_metadata : emits (A:=A) Q (_get_metadata sqlite_db) (fun _ => True).
Proof. unfold _get_metadata. repeat emits_step. Qed.

Lemma emits_read_table fuel table_name :
  emits (A:=A) Q (read_table fromisoformat sqlite_db fuel table_name) (fun _ => True).
Proof.
  unfold read_table, _get_users, _get_media, _get_reactions, _get_sync_status.
  repeat first [ apply emits_get_chats | apply emits_get_messages
               | apply emits_select_converted | apply emits_get_metadata
               | emits_step ].
Qed.

Lemma emits_sum_message_counts chats acc :
  emits (A:=A) Q (sum_message_counts sqlite_db chats acc) (fun _ => True).
Proof.
  revert acc. induction chats as [|chat rest IH]; intros acc; simpl.
  - emits_step.
  - emits_step; [emits_step|]. emits_step; [emits_step | apply IH].
Qed.

Lemma emits_compare_counts sqlite_stats pg_stats success :
  emits (A:=A) Q (compare_counts sqlite_stats pg_stats success) (fun _ => True).
Proof.
  revert success. induction sqlite_stats as [|[key n] rest IH]; intros success; simpl.
  - emits_step.
  - emits_step; (emits_step; [emits_step | apply IH]).
Qed.

Lemma emits_verify_migration :
  Q PgGetStats ->
  emits (A:=A) Q (verify_migration sqlite_db) (fun _ => True).
Proof.
  intros Q_stats. unfold verify_migration.
  repeat first [ apply emits_sum_message_counts | apply emits_compare_counts
               | emits_step ].
Qed.

Hypothesis Q_pg : forall c, Q (PgCall c).

Lemma emits_write_row table_name r :
  emits (A:=A) Q (write_row table_name r) (fun _ => True).
Proof. unfold write_row. repeat emits_step. Qed.

Lemma emits_write_rows table_name transform_func sqlite_data count :
  emits (A:=A) Q (write_rows table_name transform_func sqlite_data count)
    (fun _ => True).
Proof.
  revert count. induction sqlite_data as [|r rest IH]; intros count; simpl.
  - emits_step.
  - emits_step; [emits_step|].
    emits_step; [apply emits_write_row | apply IH].
Qed.

Lemma emits_write_table table_name transform_func sqlite_data :
  emits (A:=A) Q (write_table table_name transform_func sqlite_data) (fun _ => True).
Proof.
  unfold write_table. emits_step; [apply emits_write_rows|].
  repeat emits_step.
Qed.

(** [migrate_table] announces its table and then emits nothing that
    announces another. *)
Lemma migrate_table_trace fuel table_name transform_func (w : world (A:=A)) :
  exists δ,
    trace (migrate_table fromisoformat sqlite_db fuel table_name transform_func w).2
    = trace w ++ Logged INFO (Migrating_table table_name) :: δ
    /\ Forall Q δ.
Proof.
  unfold migrate_table. apply (log_then_trace Q _ _ _ (fun _ => True)).
  repeat first [ apply emits_read_table | apply emits_write_table | emits_step ].
Qed.

End Reads.

(** One step of a proof that a computation does not run out of fuel. *)
Ltac total_step :=
  cbv beta iota;
  lazymatch goal with
  | |- total (mret _) => apply total_ret
  | |- total (lift _) => apply total_lift
  | |- total (log _ _) => apply total_log
  | |- total (db_do _ _) => apply total_db_do
  | |- total (pg_do _) => apply total_pg_do
  | |- total pg_get_stats => apply total_pg_get_stats
  | |- total (fmap _ _) => apply total_fmap
  | |- total (try_except _ _) => apply total_try; [|intros ?]
  | |- total (mbind _ _) => apply total_bind; [|intros ?]
  | |- total (if ?b then _ else _) => destruct b
  | |- total (match ?x with _ => _ end) => destruct x
  end.

(** *** Termination of the paging loop *)

Section Termination.
Context {A : Type} `{!DatabaseAdapter A}.
Variable fromisoformat : string -> result Z.
Variable sqlite_db : SQLiteDatabase.
Variable stored : value -> list row.
Hypothesis served : paginated sqlite_db stored.

Lemma total_page_loop fuel chat_id offset all_messages :
  offset <= length (stored chat_id) ->
  length (stored chat_id) < offset + fuel * batch_size ->
  total (A:=A) (page_loop fromisoformat sqlite_db fuel chat_id offset all_messages).
Proof.
  revert offset all_messages.
  induction fuel as [|fuel IH]; intros offset acc Hlo Hhi w; [simpl in Hhi; lia|].
  simpl. unfold mbind at 1, M_bind, db_do. simpl.
  destruct (get_messages sqlite_db chat_id batch_size offset) as [rows|e] eqn:E;
    [|done].
  apply served in E. destruct rows as [|m ms]; [done|].
  unfold mbind, M_bind, lift.
  destruct (append_messages _ _ _) as [acc'|e]; [|done].
  destruct (_ <? _) eqn:Hlt; [done|].
  apply IH.
  - apply Nat.ltb_ge in Hlt. rewrite E, length_take, length_drop in Hlt. lia.
  - lia.
Qed.

Variable fuel : nat.
Hypothesis enough : forall chat_id, length (stored chat_id) < fuel * batch_size.

Lemma total_page_chats chats all_messages :
  total (A:=A) (page_chats fromisoformat sqlite_db fuel chats all_messages).
Proof.
  revert all_messages. induction chats as [|chat rest IH]; intros acc; simpl.
  - total_step.
  - total_step; [total_step|]. total_step; [|apply IH].
    apply total_page_loop; [lia|]. apply enough.
Qed.

Lemma total_get_messages : total (A:=A) (_get_messages fromisoformat sqlite_db fuel).
Proof. unfold _get_messages. total_step; [total_step | apply total_page_chats]. Qed.

Lemma total_read_table table_name :
  total (A:=A) (read_table fromisoformat sqlite_db fuel table_name).
Proof.
  unfold read_table, _get_chats, _get_users, _get_media, _get_reactions,
    _get_sync_status, _get_metadata, select_converted.
  repeat first [ apply total_get_messages | total_step ].
Qed.

Lemma total_write_rows table_name transform_func sqlite_data count :
  total (A:=A) (write_rows table_name transform_func sqlite_data count).
Proof.
  revert count. induction sqlite_data as [|r rest IH]; intros count; simpl.
  - total_step.
  - total_step; [total_step|]. total_step; [|apply IH].
    unfold write_row. repeat total_step.
Qed.

Lemma total_write_table table_name transform_func sqlite_data :
  total (A:=A) (write_table table_name transform_func sqlite_data).
Proof.
  unfold write_table. repeat first [ apply total_write_rows | total_step ].
Qed.

Lemma total_migrate_table table_name transform_func :
  total (A:=A) (migrate_table fromisoformat sqlite_db fuel table_name transform_func).
Proof.
  unfold migrate_table.
  repeat first [ apply total_read_table | apply total_write_table | total_step ].
Qed.

Lemma total_sum_message_counts chats acc :
  total (A:=A) (sum_message_counts sqlite_db chats acc).
Proof.
  revert acc. induction chats as [|chat rest IH]; intros acc; simpl.
  - total_step.
  - total_step; [total_step|]. total_step; [total_step | apply IH].
Qed.

Lemma total_compare_counts sqlite_stats pg_stats success :
  total (A:=A) (compare_counts sqlite_stats pg_stats success).
Proof.
  revert success. induction sqlite_stats as [|[key n] rest IH]; intros success; simpl.
  - total_step.
  - total_step; (total_step; [total_step | apply IH]).
Qed.

Lemma total_verify_migration : total (A:=A) (verify_migration sqlite_db).
Proof.
  unfold verify_migration.
  repeat first [ apply total_sum_message_counts | apply total_compare_counts
               | total_step ].
Qed.

End Termination.

(** *** [migrate_table] never lets an exception out *)

Section Isolation.
Context {A : Type} `{!DatabaseAdapter A}.
Variable fromisoformat : string -> result Z.
Variable sqlite_db : SQLiteDatabase.

Lemma migrate_table_read_raises fuel table_name transform_func w e w1 :
  read_table fromisoformat sqlite_db fuel table_name (entered table_name w)
  = (Some (Raise e), w1) ->
  migrate_table fromisoformat sqlite_db fuel table_name transform_func w
  = (Some (Ok 0%Z),
     World (pg w1) (trace w1 ++ [Logged ERROR (Error_reading table_name e)])).
Proof.
  intros Hread. unfold migrate_table, mbind, M_bind, try_except, fmap, M_fmap,
    mbind, M_bind, log, emit. simpl. fold (entered table_name w).
  rewrite Hread. reflexivity.
Qed.

Lemma migrate_table_write_raises fuel table_name transform_func w w1 rows e w2 :
  read_table fromisoformat sqlite_db fuel table_name (entered table_name w)
  = (Some (Ok (Some rows)), w1) ->
  write_table table_name transform_func rows w1 = (Some (Raise e), w2) ->
  migrate_table fromisoformat sqlite_db fuel table_name transform_func w
  = (Some (Ok 0%Z),
     World (pg w2) (trace w2 ++ [Logged ERROR (Error_migrating table_name e)])).
Proof.
  intros Hread Hwrite. unfold migrate_table, mbind, M_bind, try_except, fmap,
    M_fmap, mbind, M_bind, log, emit. simpl. fold (entered table_name w).
  rewrite Hread. simpl. rewrite Hwrite. reflexivity.
Qed.

Lemma migrate_table_returns fuel table_name transform_func w :
  (migrate_table fromisoformat sqlite_db fuel table_name transform_func w).1 = None
  \/ exists count,
      (migrate_table fromisoformat sqlite_db fuel table_name transform_func w).1
      = Some (Ok count).
Proof.
  unfold migrate_table, mbind, M_bind, try_except, fmap, M_fmap, mbind, M_bind,
    log, emit. simpl.
  destruct (read_table _ _ _ _ _) as [[[[rows|]|e]|] w1]; simpl; eauto.
  destruct (write_table _ _ _ _) as [[[n|e]|] w2]; simpl; eauto.
Qed.

End Isolation.

(** *** The orchestration loop *)

Lemma invocations_app (tr1 tr2 : list event) :
  invocations (tr1 ++ tr2) = invocations tr1 ++ invocations tr2.
Proof. apply omap_app. Qed.

Lemma invocations_quiet (δ : list event) : Forall quiet δ -> invocations δ = [].
Proof.
  induction 1 as [|ev δ Hev _ IH]; [done|].
  change (ev :: δ) with ([ev] ++ δ). by rewrite invocations_app, Hev, IH.
Qed.

Lemma quiet_log lvl r : (forall t, r ≠ Migrating_table t) -> quiet (Logged lvl r).
Proof.
  intros Hr. destruct r; try (by destruct lvl). by destruct (Hr table_name).
Qed.

Lemma quiet_db c : quiet (DbRead c).
Proof. reflexivity. Qed.

Lemma quiet_pg c : quiet (PgCall c).
Proof. reflexivity. Qed.

Lemma quiet_stats : quiet PgGetStats.
Proof. reflexivity. Qed.

Section Orchestration.
Context {A : Type} `{!DatabaseAdapter A}.
Variable fromisoformat : string -> result Z.

Lemma announces_nothing {X} (m : M (A:=A) X) :
  emits quiet m (fun _ => True) -> announces m [].
Proof.
  intros Hm w. destruct (Hm w) as [(δ & Ht & HQ) _]. exists δ.
  rewrite (invocations_quiet _ HQ). done.
Qed.

Lemma announces_bind {X Y} (m : M (A:=A) X) (k : X -> M (A:=A) Y) ts :
  announces m ts -> (forall x, emits quiet (k x) (fun _ => True)) ->
  announces (m ≫= k) ts.
Proof.
  intros Hm Hk w. destruct (Hm w) as (δ & Ht & Hpre & Hall).
  unfold mbind, M_bind. destruct (m w) as [[[x|e]|] w1]; simpl in *.
  - destruct (Hk x w1) as [(δ' & Ht' & HQ') _]. exists (δ ++ δ').
    rewrite Ht', Ht, app_assoc, invocations_app, (invocations_quiet _ HQ'), app_nil_r.
    split; [done|]. split; [done|]. intros _. by apply Hall.
  - exists δ. split; [done|]. split; [done|]. intros _. by apply Hall.
  - exists δ. split; [done|]. split; [done|]. done.
Qed.

Lemma announces_try {X} (body : M (A:=A) X) (handler : exn -> M (A:=A) X) ts :
  announces body ts -> (forall e, emits quiet (handler e) (fun _ => True)) ->
  announces (try_except body handler) ts.
Proof.
  intros Hm Hk w. destruct (Hm w) as (δ & Ht & Hpre & Hall).
  unfold try_except. destruct (body w) as [[[x|e]|] w1]; simpl in *.
  - exists δ. split; [done|]. split; [done|]. intros _. by apply Hall.
  - destruct (Hk e w1) as [(δ' & Ht' & HQ') _]. exists (δ ++ δ').
    rewrite Ht', Ht, app_assoc, invocations_app, (invocations_quiet _ HQ'), app_nil_r.
    split; [done|]. split; [done|]. intros _. by apply Hall.
  - exists δ. split; [done|]. split; [done|]. done.
Qed.

Variable sqlite_db : SQLiteDatabase.

Lemma announces_migrate_tables fuel ts total_migrated :
  announces (A:=A) (migrate_tables fromisoformat sqlite_db fuel ts total_migrated) ts.
Proof.
  revert total_migrated. induction ts as [|t ts IH]; intros n w; simpl.
  - exists []. by rewrite app_nil_r.
  - destruct (migrate_table_trace fromisoformat sqlite_db quiet quiet_db quiet_log
                quiet_pg fuel t None w) as (δ & Ht & HQ).
    destruct (migrate_table_returns fromisoformat sqlite_db fuel t None w)
      as [Hr|[c Hr]];
      unfold mbind, M_bind;
      destruct (migrate_table _ _ _ _ _ _) as [r w1]; simpl in *; subst r.
    + exists (Logged INFO (Migrating_table t) :: δ). split; [done|].
      change (Logged INFO (Migrating_table t) :: δ)
        with ([Logged INFO (Migrating_table t)] ++ δ).
      rewrite invocations_app, (invocations_quiet _ HQ). simpl.
      split; [|done]. apply prefix_cons, prefix_nil.
    + destruct (IH (n + c)%Z w1) as (δ' & Ht' & Hpre & Hall).
      exists ((Logged INFO (Migrating_table t) :: δ) ++ δ').
      rewrite Ht', Ht, <- app_assoc. split; [done|].
      change (Logged INFO (Migrating_table t) :: δ)
        with ([Logged INFO (Migrating_table t)] ++ δ).
      rewrite !invocations_app, (invocations_quiet _ HQ). simpl.
      split; [by apply prefix_cons|]. intros Hn. by rewrite Hall.
Qed.

Lemma migrate_tables_returns fuel ts total_migrated w :
  (migrate_tables fromisoformat sqlite_db fuel ts total_migrated w).1 = None
  \/ exists n w1,
      migrate_tables fromisoformat sqlite_db fuel ts total_migrated w
      = (Some (Ok n), w1).
Proof.
  revert total_migrated w. induction ts as [|t ts IH]; intros n w; simpl.
  - right. by exists n, w.
  - destruct (migrate_table_returns fromisoformat sqlite_db fuel t None w)
      as [Hr|[c Hr]];
      unfold mbind, M_bind;
      destruct (migrate_table _ _ _ _ _ _) as [r w1]; simpl in *; subst r.
    + by left.
    + apply IH.
Qed.

Lemma total_migrate_tables stored fuel ts total_migrated :
  paginated sqlite_db stored ->
  (forall chat_id, length (stored chat_id) < fuel * batch_size) ->
  total (A:=A) (migrate_tables fromisoformat sqlite_db fuel ts total_migrated).
Proof.
  intros Hs Hf. revert total_migrated.
  induction ts as [|t ts IH]; intros n; simpl; [apply total_ret|].
  apply total_bind; [|intros c; apply IH].
  by apply (total_migrate_table _ _ stored).
Qed.

(** C3: whatever exception the read or the write of a table raises,
    [migrate_table] catches it and returns 0 for that table; and the loop
    of [main], over any list of tables, returns normally after entering
    [migrate_table] for each table of the list, in order, whichever of
    them failed. *)
Theorem migrate_table_isolates_failures fuel table_name transform_func
    (w : world (A:=A)) :
  (forall e w1,
     read_table fromisoformat sqlite_db fuel table_name (entered table_name w)
     = (Some (Raise e), w1) ->
     (migrate_table fromisoformat sqlite_db fuel table_name transform_func w).1
     = Some (Ok 0%Z))
  /\ (forall rows w1 e w2,
       read_table fromisoformat sqlite_db fuel table_name (entered table_name w)
       = (Some (Ok (Some rows)), w1) ->
       write_table table_name transform_func rows w1 = (Some (Raise e), w2) ->
       (migrate_table fromisoformat sqlite_db fuel table_name transform_func w).1
       = Some (Ok 0%Z))
  /\ (forall stored,
       paginated sqlite_db stored ->
       (forall chat_id, length (stored chat_id) < fuel * batch_size) ->
       forall ts total_migrated, exists n w1 δ,
         migrate_tables fromisoformat sqlite_db fuel ts total_migrated w
         = (Some (Ok n), w1)
         /\ trace w1 = trace w ++ δ
         /\ invocations δ = ts).
Proof.
  split; [|split].
  - intros e w1 Hread.
    by rewrite (migrate_table_read_raises _ _ _ _ transform_func _ _ _ Hread).
  - intros rows w1 e w2 Hread Hwrite.
    by rewrite (migrate_table_write_raises _ _ _ _ _ _ _ _ _ _ Hread Hwrite).
  - intros stored Hs Hf ts n.
    pose proof (total_migrate_tables stored fuel ts n Hs Hf w) as Htot.
    destruct (announces_migrate_tables fuel ts n w) as (δ & Ht & _ & Hall).
    destruct (migrate_tables_returns fuel ts n w) as [Hr|(m & w1 & Hr)]; [done|].
    rewrite Hr in *. exists m, w1, δ. auto.
Qed.

End Orchestration.

(** *** [main] *)

Section Main.
Context {A : Type} `{!DatabaseAdapter A}.
Variable fromisoformat : string -> result Z.

Implicit Types (env : Env (A:=A)) (w : world (A:=A)).

Lemma bind_ok {X Y} (m : M (A:=A) X) (k : X -> M (A:=A) Y) w x w1 :
  m w = (Some (Ok x), w1) -> (m ≫= k) w = k x w1.
Proof. intros Hm. unfold mbind, M_bind. by rewrite Hm. Qed.

Lemma bind_raise {X Y} (m : M (A:=A) X) (k : X -> M (A:=A) Y) w e w1 :
  m w = (Some (Raise e), w1) -> (m ≫= k) w = (Some (Raise e), w1).
Proof. intros Hm. unfold mbind, M_bind. by rewrite Hm. Qed.

Lemma bind_none {X Y} (m : M (A:=A) X) (k : X -> M (A:=A) Y) w w1 :
  m w = (None, w1) -> (m ≫= k) w = (None, w1).
Proof. intros Hm. unfold mbind, M_bind. by rewrite Hm. Qed.

Lemma prepare_quiet env : invocations (prepare env).2 = [].
Proof.
  unfold prepare, mbind, result_bind, mret, result_ret.
  destruct (negb _); [done|].
  destruct (attr _ _) as [path|e]; [|done].
  destruct (path_exists env path) as [[|]|e]; [|done|done]. cbv beta iota.
  destruct (backup_of path) as [backup_path|e]; [|done].
  destruct (copy2 env path backup_path) as [[]|e]; done.
Qed.

Lemma new_DataMigrator_quiet env path pg_config tr :
  exists δ, (new_DataMigrator env path pg_config tr).2 = tr ++ δ
            /\ invocations δ = [].
Proof.
  unfold new_DataMigrator.
  destruct (mbind _ _) as [[sqlite_db a]|e]; [|exists []; by rewrite app_nil_r].
  destruct (perform InitializeSchema a) as [[[]|e] a']; eexists; split; done.
Qed.

(** The [except Exception] handler of [main]. *)
Lemma emits_handler Q (e : exn) :
  Q (Logged ERROR (Migration_failed e)) ->
  emits (A:=A) Q (log ERROR (Migration_failed e);; mret 1%Z) (fun _ => True).
Proof. intros HQ. repeat emits_step. Qed.

Lemma emits_teardown Q sqlite_db :
  Q (PgCall Close) -> Q (DbRead DbClose) ->
  emits (A:=A) Q (teardown sqlite_db) (fun _ => True).
Proof. intros H1 H2. unfold teardown. repeat emits_step. Qed.

Lemma announces_orchestrate sqlite_db fuel backup_path :
  announces (A:=A)
    (try_except (orchestrate fromisoformat sqlite_db fuel backup_path)
       (fun e => log ERROR (Migration_failed e);; mret 1%Z))
    tables.
Proof.
  apply announces_try; [|intros e; by apply emits_handler].
  unfold orchestrate. apply announces_bind; [apply announces_migrate_tables|].
  intros total_migrated.
  apply (emits_bind _ _ _ (fun _ => True)).
  - apply emits_verify_migration;
      auto using quiet_db, quiet_log, quiet_stats.
  - intros [|] _; repeat emits_step.
Qed.

Lemma total_orchestrate sqlite_db stored fuel backup_path :
  paginated sqlite_db stored ->
  (forall chat_id, length (stored chat_id) < fuel * batch_size) ->
  total (A:=A)
    (try_except (orchestrate fromisoformat sqlite_db fuel backup_path)
       (fun e => log ERROR (Migration_failed e);; mret 1%Z)).
Proof.
  intros Hs Hf. unfold orchestrate.
  repeat first [ by apply (total_migrate_tables _ _ stored)
               | apply total_verify_migration | total_step ].
Qed.

(** [main] enters [migrate_table] for users, chats, messages, media,
    reactions, sync_status and metadata, in this order and for nothing
    else: the tables entered are always an initial part of this list, and
    the whole of it once the migrator is built (the legacy store paging
    by limit and offset over fewer than [fuel] pages per chat). *)
Lemma main_enters_tables_in_order env fuel :
  invocations (events (main fromisoformat env fuel))
    `prefix_of` ["users"; "chats"; "messages"; "media"; "reactions";
                 "sync_status"; "metadata"]
  /\ forall path backup_path pg_config tr sqlite_db a tr' stored,
      prepare env = (inr (path, backup_path, pg_config), tr) ->
      new_DataMigrator env path pg_config tr = (Ok (sqlite_db, a), tr') ->
      paginated sqlite_db stored ->
      (forall chat_id, length (stored chat_id) < fuel * batch_size) ->
      invocations (events (main fromisoformat env fuel))
      = ["users"; "chats"; "messages"; "media"; "reactions";
         "sync_status"; "metadata"].
Proof.
  change ["users"; "chats"; "messages"; "media"; "reactions";
          "sync_status"; "metadata"] with tables.
  assert (forall path backup_path pg_config tr sqlite_db a tr',
    prepare env = (inr (path, backup_path, pg_config), tr) ->
    new_DataMigrator env path pg_config tr = (Ok (sqlite_db, a), tr') ->
    exists δ r,
      (try_except (orchestrate fromisoformat sqlite_db fuel backup_path)
         (fun e => log ERROR (Migration_failed e);; mret 1%Z) (World a tr')).1 = r
      /\ invocations (events (main fromisoformat env fuel)) = invocations δ
      /\ invocations δ `prefix_of` tables
      /\ (r ≠ None -> invocations δ = tables)) as Hrun.
  { intros path backup_path pg_config tr sqlite_db a tr' Hp Hn.
    pose proof (prepare_quiet env) as Hq. rewrite Hp in Hq. simpl in Hq.
    destruct (new_DataMigrator_quiet env path pg_config tr) as (δ0 & Ht0 & Hq0).
    rewrite Hn in Ht0. simpl in Ht0.
    destruct (announces_orchestrate sqlite_db fuel backup_path (World a tr'))
      as (δ & Ht & Hpre & Hall).
    exists δ. eexists. split; [reflexivity|].
    split; [|done].
    unfold main. rewrite Hp, Hn.
    destruct (try_except _ _ _) as [[r|] w]; simpl in Ht |- *.
    - destruct (emits_teardown quiet sqlite_db (quiet_pg _) (quiet_db _) w)
        as [(δ' & Ht' & HQ') _].
      destruct (teardown sqlite_db w) as [c w']. simpl in *.
      rewrite Ht', Ht, Ht0, !invocations_app, Hq, Hq0, (invocations_quiet _ HQ').
      by rewrite app_nil_r.
    - by rewrite Ht, Ht0, !invocations_app, Hq, Hq0. }
  split.
  - pose proof (prepare_quiet env) as Hq.
    destruct (prepare env) as [[[code|e]|[[path backup_path] pg_config]] tr] eqn:Hp.
    1, 2: unfold main; rewrite Hp; simpl in *; rewrite Hq; apply prefix_nil.
    destruct (new_DataMigrator_quiet env path pg_config tr) as (δ0 & Ht0 & Hq0).
    destruct (new_DataMigrator env path pg_config tr) as [[[sqlite_db a]|e] tr'] eqn:Hn.
    + destruct (Hrun _ _ _ _ _ _ _ eq_refl Hn) as (δ & r & _ & Heq & Hpre & _).
      by rewrite Heq.
    + unfold main. rewrite Hp, Hn. simpl in *.
      rewrite Ht0, !invocations_app, Hq, Hq0. apply prefix_nil.
  - intros path backup_path pg_config tr sqlite_db a tr' stored Hp Hn Hs Hf.
    destruct (Hrun _ _ _ _ _ _ _ Hp Hn) as (δ & r & Hr & Heq & _ & Hall).
    rewrite Heq. apply Hall. subst r.
    by apply (total_orchestrate sqlite_db stored).
Qed.

(** A configured password that is empty (or missing, which [main] turns
    into the empty string) stops [DataMigrator.__init__] before any
    adapter is built. *)
Lemma new_DataMigrator_requires_password env path (pg_config : row) tr pw :
  pg_config !! "password" = Some pw -> truthy pw = false ->
  exists e, new_DataMigrator env path pg_config tr = (Raise e, tr).
Proof.
  intros Hpw Hfalse. unfold new_DataMigrator, mbind, result_bind.
  destruct (open_database env path) as [sqlite_db|e]; [|by eexists].
  destruct (getitem pg_config "host") as [host|e]; [|by eexists].
  destruct (getitem pg_config "port") as [port|e]; [|by eexists].
  destruct (getitem pg_config "database") as [database|e]; [|by eexists].
  destruct (getitem pg_config "user") as [user|e]; [|by eexists].
  unfold getitem at 1. rewrite Hpw.
  match goal with
  | |- context [ Factory.create_database_adapter ?c ] => set (config := c)
  end.
  assert (getattr config "db_type" (VStr "sqlite") = VStr "postgres-alchemy") as Hdb
    by (unfold getattr, config; by simplify_map_eq).
  assert (getattr config "postgres_password" (VStr "") = pw) as Hcfg
    by (unfold getattr, config; by simplify_map_eq).
  assert (Factory.create_database_adapter config
          = Raise (ValueError Factory.password_message)) as ->.
  { unfold Factory.create_database_adapter, Factory.db_type_of.
    rewrite Hdb. unfold mbind, result_bind. simpl. by rewrite Hcfg, Hfalse. }
  by eexists.
Qed.

Lemma main_without_configured_password env fuel path backup_path pg_config tr pw :
  prepare env = (inr (path, backup_path, pg_config), tr) ->
  pg_config !! "password" = Some pw -> truthy pw = false ->
  status (main fromisoformat env fuel) = Some (Ok 1%Z).
Proof.
  intros Hp Hpw Hfalse.
  destruct (new_DataMigrator_requires_password env path pg_config tr pw Hpw Hfalse)
    as [e He].
  unfold main. by rewrite Hp, He.
Qed.

Lemma prepare_returns env code tr :
  prepare env = (inl (Returned code), tr) -> code = 1%Z.
Proof.
  unfold prepare, mbind, result_bind, mret, result_ret.
  destruct (negb _); [by intros [= <- _]|].
  destruct (attr _ _) as [path|e]; [|done].
  destruct (path_exists env path) as [[|]|e]; [|by intros [= <- _]|done].
  cbv beta iota.
  destruct (backup_of path) as [backup_path|e]; [|done].
  destruct (copy2 env path backup_path) as [[]|e]; done.
Qed.

(** The [try] of [main] once the tables are through: the exit code is
    decided by the verification alone. *)
Lemma orchestrate_verdict sqlite_db fuel backup_path w total_migrated w1 verdict w2 :
  migrate_tables fromisoformat sqlite_db fuel tables 0%Z w
  = (Some (Ok total_migrated), w1) ->
  verify_migration sqlite_db w1 = (Some verdict, w2) ->
  exists w3,
    try_except (orchestrate fromisoformat sqlite_db fuel backup_path)
      (fun e => log ERROR (Migration_failed e);; mret 1%Z) w
    = (Some (Ok (match verdict with Ok true => 0 | _ => 1 end)%Z), w3)
    /\ pg w3 = pg w2.
Proof.
  intros Hm Hv. unfold try_except, orchestrate.
  rewrite (bind_ok _ _ _ _ _ Hm).
  destruct verdict as [[|]|e].
  - rewrite (bind_ok _ _ _ _ _ Hv). eexists. split; reflexivity.
  - rewrite (bind_ok _ _ _ _ _ Hv). eexists. split; reflexivity.
  - rewrite (bind_raise _ _ _ _ _ Hv). eexists. split; reflexivity.
Qed.

Lemma teardown_closes sqlite_db w :
  (perform Close (pg w)).1 = Ok tt -> db_close sqlite_db = Ok tt ->
  (teardown sqlite_db w).1 = Some (Ok tt).
Proof.
  intros Hpg Hdb. unfold teardown, mbind, M_bind, pg_do, db_do.
  destruct (perform Close (pg w)) as [r a]. simpl in Hpg. subst r. simpl.
  by rewrite Hdb.
Qed.

(** C2, as the code has it: [main] returns 1 when the credential is
    missing, when the store file is missing, when building the migrator
    raises, when the verification reports a mismatch and when it raises;
    it returns 0 exactly when the verification reports success (and the
    connections close).  The seven table transfers always run to the end
    and their failures do not enter the exit status. *)
Theorem main_exit_status env fuel :
  (env_password_set env = false ->
     status (main fromisoformat env fuel) = Some (Ok 1%Z))
  /\ (forall path,
       env_password_set env = true ->
       attr (new_Config env) "database_path" = Ok path ->
       path_exists env path = Ok false ->
       status (main fromisoformat env fuel) = Some (Ok 1%Z))
  /\ (forall path backup_path pg_config tr,
       prepare env = (inr (path, backup_path, pg_config), tr) ->
       (forall e tr',
          new_DataMigrator env path pg_config tr = (Raise e, tr') ->
          status (main fromisoformat env fuel) = Some (Ok 1%Z))
       /\ (forall sqlite_db a tr' stored,
            new_DataMigrator env path pg_config tr = (Ok (sqlite_db, a), tr') ->
            paginated sqlite_db stored ->
            (forall chat_id, length (stored chat_id) < fuel * batch_size) ->
            exists total_migrated w1 verdict w2,
              migrate_tables fromisoformat sqlite_db fuel tables 0%Z (World a tr')
              = (Some (Ok total_migrated), w1)
              /\ verify_migration sqlite_db w1 = (Some verdict, w2)
              /\ ((perform Close (pg w2)).1 = Ok tt ->
                  db_close sqlite_db = Ok tt ->
                  status (main fromisoformat env fuel)
                  = Some (Ok (match verdict with Ok true => 0 | _ => 1 end)%Z))))
  /\ (status (main fromisoformat env fuel) = Some (Ok 0%Z) ->
      exists path backup_path pg_config tr sqlite_db a tr' total_migrated w1 w2,
        prepare env = (inr (path, backup_path, pg_config), tr)
        /\ new_DataMigrator env path pg_config tr = (Ok (sqlite_db, a), tr')
        /\ migrate_tables fromisoformat sqlite_db fuel tables 0%Z (World a tr')
           = (Some (Ok total_migrated), w1)
        /\ verify_migration sqlite_db w1 = (Some (Ok true), w2)).
Proof.
  split; [|split; [|split]].
  - intros Hpw. unfold main, prepare. by rewrite Hpw.
  - intros path Hpw Hattr Hex. unfold main, prepare, mbind, result_bind.
    by rewrite Hpw, Hattr, Hex.
  - intros path backup_path pg_config tr Hp. split.
    + intros e tr' Hn. unfold main. by rewrite Hp, Hn.
    + intros sqlite_db a tr' stored Hn Hs Hf.
      pose proof (total_migrate_tables fromisoformat sqlite_db stored fuel tables
                    0%Z Hs Hf (World a tr')) as Htot.
      destruct (migrate_tables_returns fromisoformat sqlite_db fuel tables 0%Z
                  (World a tr')) as [Hr|(n & w1 & Hm)]; [done|].
      pose proof (total_verify_migration sqlite_db w1) as Hv.
      destruct (verify_migration sqlite_db w1) as [[verdict|] w2] eqn:Hver; [|done].
      exists n, w1, verdict, w2. split; [done|]. split; [done|].
      intros Hpg Hdb.
      destruct (orchestrate_verdict sqlite_db fuel backup_path _ _ _ _ _ Hm Hver)
        as (w3 & Ho & Hw3).
      unfold main. rewrite Hp, Hn, Ho. rewrite <- Hw3 in Hpg.
      pose proof (teardown_closes sqlite_db w3 Hpg Hdb) as Ht.
      destruct (teardown sqlite_db w3) as [c w4]. simpl in Ht. by subst c.
  - unfold main.
    destruct (prepare env) as [[[code|e]|[[path backup_path] pg_config]] tr] eqn:Hp.
    + intros [= ->]. by apply prepare_returns in Hp.
    + done.
    + destruct (new_DataMigrator env path pg_config tr)
        as [[[sqlite_db a]|e] tr'] eqn:Hn; [|done].
      destruct (migrate_tables fromisoformat sqlite_db fuel tables 0%Z (World a tr'))
        as [[[n|e]|] w1] eqn:Hm.
      * destruct (verify_migration sqlite_db w1) as [[verdict|] w2] eqn:Hver.
        -- destruct (orchestrate_verdict sqlite_db fuel backup_path _ _ _ _ _ Hm Hver)
             as (w3 & Ho & _).
           rewrite Ho. destruct (teardown sqlite_db w3) as [[[[]|e]|] w4];
             simpl; [|done|done].
           destruct verdict as [[|]|e]; [|done|done]. intros _.
           by exists path, backup_path, pg_config, tr, sqlite_db, a, tr', n, w1, w2.
        -- unfold try_except, orchestrate.
           rewrite (bind_ok _ _ _ _ _ Hm), (bind_none _ _ _ _ Hver). done.
      * unfold try_except, orchestrate. rewrite (bind_raise _ _ _ _ _ Hm).
        unfold mbind, M_bind, log, emit, mret, M_ret.
        destruct (teardown sqlite_db _) as [[[[]|e']|] w4]; done.
      * unfold try_except, orchestrate. rewrite (bind_none _ _ _ _ Hm). done.
Qed.

End Main.

(** *** Verification *)

Section Verification.
Context {A : Type} `{!DatabaseAdapter A}.
Variable sqlite_db : SQLiteDatabase.

Implicit Types (w : world (A:=A)).

Lemma log_ok lvl r w :
  log lvl r w = (Some (Ok tt), World (pg w) (trace w ++ [Logged lvl r])).
Proof. reflexivity. Qed.

Lemma db_do_ok {X} (c : db_call) (r : result X) (x : X) w :
  r = Ok x -> db_do c r w = (Some (Ok x), World (pg w) (trace w ++ [DbRead c])).
Proof. by intros ->. Qed.

Lemma lift_ok {X} (r : result X) (x : X) w :
  r = Ok x -> lift r w = (Some (Ok x), w).
Proof. by intros ->. Qed.

Lemma sum_message_counts_ok chats ids counts acc w :
  Forall2 (fun (chat : row) id => chat !! "id" = Some id) chats ids ->
  Forall2 (fun id n => get_message_count sqlite_db id = Ok n) ids counts ->
  exists w1,
    sum_message_counts sqlite_db chats acc w
    = (Some (Ok (fold_left Z.add counts acc)), w1)
    /\ pg w1 = pg w.
Proof.
  intros Hids. revert counts acc w.
  induction Hids as [|chat id chats ids Hid _ IH]; intros counts acc w Hcounts.
  - apply Forall2_nil_inv_l in Hcounts as ->. by exists w.
  - apply Forall2_cons_inv_l in Hcounts as (n & counts' & Hn & Hcounts & ->).
    simpl.
    rewrite (bind_ok _ _ _ id w) by (apply lift_ok; unfold getitem; by rewrite Hid).
    rewrite (bind_ok _ _ _ _ _ (db_do_ok _ _ _ _ Hn)).
    destruct (IH counts' (acc + n)%Z
                (World (pg w) (trace w ++ [DbRead (GetMessageCount id)])) Hcounts)
      as (w1 & -> & Hpg).
    by exists w1.
Qed.

Lemma compare_counts_ok key1 n1 key2 n2 (pg_stats : stats) w :
  exists w1,
    compare_counts [(key1, n1); (key2, n2)] pg_stats true w
    = (Some (Ok (bool_decide (n1 = default 0%Z (pg_stats !! key1)
                              /\ n2 = default 0%Z (pg_stats !! key2)))), w1)
    /\ pg w1 = pg w.
Proof.
  simpl.
  destruct (decide (n1 = default 0%Z (pg_stats !! key1))) as [E1|E1];
    destruct (decide (n2 = default 0%Z (pg_stats !! key2))) as [E2|E2].
  - rewrite (bool_decide_eq_false_2 (n1 ≠ _)), (bool_decide_eq_false_2 (n2 ≠ _))
      by auto.
    rewrite bool_decide_eq_true_2 by done. eexists. split; reflexivity.
  - rewrite (bool_decide_eq_false_2 (n1 ≠ _)), (bool_decide_eq_true_2 (n2 ≠ _))
      by auto.
    rewrite bool_decide_eq_false_2 by tauto. eexists. split; reflexivity.
  - rewrite (bool_decide_eq_true_2 (n1 ≠ _)), (bool_decide_eq_false_2 (n2 ≠ _))
      by auto.
    rewrite bool_decide_eq_false_2 by tauto. eexists. split; reflexivity.
  - rewrite (bool_decide_eq_true_2 (n1 ≠ _)), (bool_decide_eq_true_2 (n2 ≠ _))
      by auto.
    rewrite bool_decide_eq_false_2 by tauto. eexists. split; reflexivity.
Qed.

(** C9: [verify_migration] counts the chats of the legacy store and sums
    their message counts, asks the adapter for its statistics once, and
    returns [True] exactly when both counts equal the adapter's "chats"
    and "messages" entries (a missing entry counting 0).  It invokes no
    adapter operation besides [get_stats], whatever the outcome: nothing
    written is deleted or rolled back, and the adapter is left in the
    state [get_stats] returned it in. *)
Theorem verify_migration_compares_counts w :
  (exists δ,
     trace (verify_migration sqlite_db w).2 = trace w ++ δ
     /\ Forall (fun ev => forall c, ev ≠ PgCall c) δ)
  /\ forall chats ids counts (pg_stats : stats) a,
      get_all_chats sqlite_db None = Ok chats ->
      Forall2 (fun (chat : row) id => chat !! "id" = Some id) chats ids ->
      Forall2 (fun id n => get_message_count sqlite_db id = Ok n) ids counts ->
      get_stats (pg w) = (Ok pg_stats, a) ->
      (verify_migration sqlite_db w).1
      = Some (Ok (bool_decide
                    (Z.of_nat (length chats) = default 0%Z (pg_stats !! "chats")
                     /\ fold_left Z.add counts 0%Z
                        = default 0%Z (pg_stats !! "messages"))))
      /\ pg (verify_migration sqlite_db w).2 = a.
Proof.
  split.
  - by apply (emits_verify_migration sqlite_db
                (fun ev => forall c, ev ≠ PgCall c)).
  - intros chats ids counts pg_stats a Hchats Hids Hcounts Hstats.
    unfold verify_migration.
    rewrite (bind_ok _ _ _ _ _ (log_ok _ _ _)).
    rewrite (bind_ok _ _ _ _ _ (db_do_ok _ _ _ _ Hchats)).
    rewrite (bind_ok _ _ _ _ _ (db_do_ok _ _ _ _ Hchats)).
    match goal with
    | |- context [ sum_message_counts _ _ _ ≫= _ ] =>
        match goal with |- ((_ ≫= _) ?w0).1 = _ /\ _ =>
          destruct (sum_message_counts_ok chats ids counts 0%Z w0 Hids Hcounts)
            as (w1 & Hsum & Hpg1)
        end
    end.
    rewrite (bind_ok _ _ _ _ _ Hsum).
    assert (pg_get_stats w1 = (Some (Ok pg_stats),
                               World a (trace w1 ++ [PgGetStats]))) as Hget.
    { unfold pg_get_stats. rewrite Hpg1. simpl. by rewrite Hstats. }
    rewrite (bind_ok _ _ _ _ _ Hget).
    match goal with
    | |- ((compare_counts [(?k1, ?n1); (?k2, ?n2)] _ _ ≫= _) ?w0).1 = _ /\ _ =>
        destruct (compare_counts_ok k1 n1 k2 n2 pg_stats w0) as (w2 & Hcmp & Hpg2)
    end.
    rewrite (bind_ok _ _ _ _ _ Hcmp).
    destruct (bool_decide _); simpl; by rewrite Hpg2.
Qed.

End Verification.

(** *** Normalization of rows *)

Lemma convert_dict_fmap (r : row) : _convert_dict r = convert_value <$> r.
Proof.
  unfold _convert_dict.
  apply (map_fold_weak_ind (fun converted m => converted = convert_value <$> m)).
  - by rewrite fmap_empty.
  - intros k v m converted _ ->. by rewrite fmap_insert.
Qed.

Lemma convert_value_clean (v : value) : clean_value (convert_value v).
Proof. unfold clean_value, convert_value. by case_decide. Qed.

Lemma convert_dict_clean (r : row) : clean_row (_convert_dict r).
Proof.
  intros k. rewrite convert_dict_fmap, lookup_fmap.
  destruct (r !! k) as [v|]; simpl; [|done].
  intros [= Hv]. by apply (convert_value_clean v).
Qed.

Lemma clean_row_lookup (r : row) k v : clean_row r -> r !! k = Some v -> clean_value v.
Proof. intros Hr Hk ->. by apply (Hr k). Qed.

Section Normalization.
Context {A : Type} `{!DatabaseAdapter A}.
Variable fromisoformat : string -> result Z.
Variable sqlite_db : SQLiteDatabase.

Lemma convert_date_clean key (msg_dict out : row) :
  clean_row msg_dict -> convert_date fromisoformat key msg_dict = Ok out ->
  clean_row out.
Proof.
  intros Hc. unfold convert_date.
  destruct (msg_dict !! key) as [v|]; [|by intros [= <-]].
  destruct (truthy v); [|by intros [= <-]].
  destruct v as [| | |s|]; try by intros [= <-].
  destruct (fromisoformat s) as [t|e]; [|done]. intros [= <-] k.
  destruct (decide (key = k)) as [->|Hne].
  - by rewrite lookup_insert_eq.
  - rewrite lookup_insert_ne by done. apply Hc.
Qed.

Lemma convert_message_clean (msg out : row) :
  convert_message fromisoformat msg = Ok out -> clean_row out.
Proof.
  unfold convert_message, mbind, result_bind.
  destruct (convert_date _ "date" _) as [d|e] eqn:Hd; [|done].
  intros He. eapply convert_date_clean; [|exact He].
  eapply convert_date_clean; [|exact Hd]. apply convert_dict_clean.
Qed.

Lemma append_messages_clean messages all_messages out :
  Forall clean_row all_messages ->
  append_messages fromisoformat messages all_messages = Ok out ->
  Forall clean_row out.
Proof.
  revert all_messages. induction messages as [|msg rest IH]; intros acc Hacc; simpl.
  - by intros [= <-].
  - unfold mbind, result_bind.
    destruct (convert_message _ msg) as [d|e] eqn:Hd; [|done].
    apply IH. apply Forall_app. split; [done|].
    apply Forall_singleton. by eapply convert_message_clean.
Qed.

Lemma clean_page_loop fuel chat_id offset all_messages :
  Forall clean_row all_messages ->
  emits (A:=A) clean_event
    (page_loop fromisoformat sqlite_db fuel chat_id offset all_messages)
    (Forall clean_row).
Proof.
  revert offset all_messages.
  induction fuel as [|fuel IH]; intros offset acc Hacc; simpl;
    [apply emits_diverge|].
  apply (emits_bind _ _ _ (fun _ => True)); [by apply emits_db_do|].
  intros [|m ms] _; [by apply emits_ret|].
  apply (emits_bind _ _ _ (Forall clean_row)).
  - apply emits_lift. intros out. by apply append_messages_clean.
  - intros acc' Hacc'. destruct (_ <? _); [by apply emits_ret | by apply IH].
Qed.

Lemma clean_page_chats fuel chats all_messages :
  Forall clean_row all_messages ->
  emits (A:=A) clean_event
    (page_chats fromisoformat sqlite_db fuel chats all_messages)
    (Forall clean_row).
Proof.
  revert all_messages. induction chats as [|chat rest IH]; intros acc Hacc; simpl.
  - by apply emits_ret.
  - apply (emits_bind _ _ _ (fun _ => True)); [by apply emits_lift|].
    intros chat_id _. apply (emits_bind _ _ _ (Forall clean_row)).
    + by apply clean_page_loop.
    + apply IH.
Qed.

Lemma clean_select_converted table :
  emits (A:=A) clean_event (select_converted sqlite_db table) (Forall clean_row).
Proof.
  unfold select_converted.
  apply (emits_bind _ _ _ (fun _ => True)); [by apply emits_db_do|].
  intros rows _. apply emits_ret. apply Forall_fmap, Forall_true.
  intros r. apply convert_dict_clean.
Qed.

Lemma clean_read_table fuel table_name :
  table_name ≠ "metadata" ->
  emits (A:=A) clean_event (read_table fromisoformat sqlite_db fuel table_name)
    (fun read => forall rows, read = Some rows -> Forall clean_row rows).
Proof.
  intros Hne. unfold read_table, _get_users, _get_media, _get_reactions,
    _get_sync_status.
  repeat match goal with
         | |- emits _ (if String.eqb ?a ?b then _ else _) _ =>
             destruct (String.eqb_spec a b)
         end; try done;
    try (apply (emits_fmap _ _ _ (Forall clean_row));
         [|by intros rows Hrows ? [= <-]]).
  - unfold _get_chats.
    apply (emits_bind _ _ _ (fun _ => True)); [by apply emits_db_do|].
    intros rows _. apply emits_ret. apply Forall_fmap, Forall_true.
    intros r. apply convert_dict_clean.
  - unfold _get_messages.
    apply (emits_bind _ _ _ (fun _ => True)); [by apply emits_db_do|].
    intros chats _. by apply clean_page_chats.
  - apply clean_select_converted.
  - apply clean_select_converted.
  - apply clean_select_converted.
  - apply clean_select_converted.
  - apply (emits_bind _ _ _ (fun _ => True)); [by apply emits_log|].
    intros _ _. by apply emits_ret.
Qed.

Lemma clean_write_row table_name (r : row) :
  table_name ≠ "metadata" -> clean_row r ->
  emits (A:=A) clean_event (write_row table_name r) (fun _ => True).
Proof.
  intros Hne Hr. unfold write_row.
  repeat match goal with
         | |- emits _ (if String.eqb ?a ?b then _ else _) _ =>
             destruct (String.eqb_spec a b)
         end; try done;
    try (by apply emits_pg_do); try (by apply emits_ret).
  - apply emits_pg_do; [|done]. simpl. by apply Forall_singleton.
  - apply (emits_bind _ _ _ clean_value).
    { apply emits_lift. unfold getitem. intros v.
      destruct (r !! "chat_id") eqn:E; [|done]. intros [= <-].
      by eapply clean_row_lookup. }
    intros chat_id Hc. apply (emits_bind _ _ _ clean_value).
    { apply emits_lift. unfold getitem. intros v.
      destruct (r !! "last_message_id") eqn:E; [|done]. intros [= <-].
      by eapply clean_row_lookup. }
    intros last Hl. apply (emits_bind _ _ _ clean_value).
    { apply emits_lift. unfold getitem. intros v.
      destruct (r !! "message_count") eqn:E; [|done]. intros [= <-].
      by eapply clean_row_lookup. }
    intros count Hn. by apply emits_pg_do.
Qed.

Lemma clean_write_rows table_name sqlite_data count :
  table_name ≠ "metadata" -> Forall clean_row sqlite_data ->
  emits (A:=A) clean_event (write_rows table_name None sqlite_data count)
    (fun _ => True).
Proof.
  intros Hne Hrows. revert count.
  induction Hrows as [|r rest Hr _ IH]; intros count; simpl.
  - by apply emits_ret.
  - apply (emits_bind _ _ _ clean_row).
    { apply emits_lift. by intros r' [= <-]. }
    intros r' Hr'. apply (emits_bind _ _ _ (fun _ => True)).
    + by apply clean_write_row.
    + intros _ _. apply IH.
Qed.

Lemma clean_write_table table_name sqlite_data :
  table_name ≠ "metadata" -> Forall clean_row sqlite_data ->
  emits (A:=A) clean_event (write_table table_name None sqlite_data)
    (fun _ => True).
Proof.
  intros Hne Hrows. unfold write_table.
  apply (emits_bind _ _ _ (fun _ => True)); [by apply clean_write_rows|].
  intros count _. apply (emits_bind _ _ _ (fun _ => True)).
  - destruct (_ && _); [by apply emits_pg_do | by apply emits_ret].
  - intros _ _. apply (emits_bind _ _ _ (fun _ => True)); [by apply emits_log|].
    intros _ _. by apply emits_ret.
Qed.

(** [_convert_dict] replaces exactly the values equal to the empty
    string by [None], so a converted row holds no empty string; and for
    every table but metadata no argument of an adapter write issued by
    [migrate_table] without a [transform_func] is the empty string, nor
    holds one. *)
Lemma convert_dict_normalizes (r : row) :
  _convert_dict r = convert_value <$> r
  /\ (forall k, _convert_dict r !! k ≠ Some (VStr ""))
  /\ (forall k, r !! k = Some (VStr "") -> _convert_dict r !! k = Some VNone)
  /\ (forall k v, r !! k = Some v -> v ≠ VStr "" -> _convert_dict r !! k = Some v)
  /\ (forall fuel table_name (w : world (A:=A)),
       table_name ≠ "metadata" ->
       exists δ,
         trace (migrate_table fromisoformat sqlite_db fuel table_name None w).2
         = trace w ++ δ
         /\ Forall clean_event δ).
Proof.
  split; [apply convert_dict_fmap|]. split; [apply convert_dict_clean|].
  split; [|split].
  - intros k Hk. by rewrite convert_dict_fmap, lookup_fmap, Hk.
  - intros k v Hk Hv. rewrite convert_dict_fmap, lookup_fmap, Hk. simpl.
    unfold convert_value. by case_decide.
  - intros fuel table_name w Hne. unfold migrate_table.
    destruct (log_then_trace clean_event INFO (Migrating_table table_name)
                (read ← try_except
                   (inl <$> read_table fromisoformat sqlite_db fuel table_name)
                   (fun e => log ERROR (Error_reading table_name e);;
                             mret (inr 0%Z));
                 match read with
                 | inr returned => mret returned
                 | inl None => mret 0%Z
                 | inl (Some sqlite_data) =>
                     try_except (write_table table_name None sqlite_data)
                       (fun e => log ERROR (Error_migrating table_name e);;
                                 mret 0%Z)
                 end) (fun _ => True) w) as (δ & Ht & HQ).
    + apply (emits_bind _ _ _
               (fun read => forall rows, read = inl (Some rows) ->
                                         Forall clean_row rows)).
      * apply emits_try.
        -- eapply emits_fmap; [by apply clean_read_table|].
           intros read Hread rows [= ->]. by apply Hread.
        -- intros e. apply (emits_bind _ _ _ (fun _ => True));
             [by apply emits_log|].
           intros _ _. by apply emits_ret.
      * intros [[rows|]|z] Hread; [|by apply emits_ret|by apply emits_ret].
        apply emits_try; [apply clean_write_table; auto|].
        intros e. apply (emits_bind _ _ _ (fun _ => True)); [by apply emits_log|].
        intros _ _. by apply emits_ret.
    + exists (Logged INFO (Migrating_table table_name) :: δ).
      split; [done|]. by apply Forall_cons.
Qed.

End Normalization.

(** *** Paging through the messages *)

Lemma batch_size_pos : 0 < batch_size.
Proof. unfold batch_size. lia. Qed.

Lemma div_batch_exact n k :
  k * batch_size <= n -> n < (k + 1) * batch_size -> n / batch_size = k.
Proof.
  intros Hlo Hhi. symmetry.
  apply (Nat.div_unique n batch_size k (n - k * batch_size)); lia.
Qed.

Lemma div_batch_lower n k : k * batch_size <= n -> k <= n / batch_size.
Proof.
  intros Hlo. apply Nat.div_le_lower_bound; [pose proof batch_size_pos|]; lia.
Qed.

Section Paging.
Context {A : Type} `{!DatabaseAdapter A}.
Variable fromisoformat : string -> result Z.
Variable sqlite_db : SQLiteDatabase.
Variable stored : value -> list row.

(** Every read of a page succeeds and is served by limit and offset. *)
Hypothesis serves : forall chat_id limit offset,
  get_messages sqlite_db chat_id limit offset
  = Ok (take limit (drop offset (stored chat_id))).

Implicit Types (w : world (A:=A)).

Lemma append_messages_converted messages outs all_messages :
  Forall2 (fun msg out => convert_message fromisoformat msg = Ok out) messages outs ->
  append_messages fromisoformat messages all_messages = Ok (all_messages ++ outs).
Proof.
  intros Hc. revert all_messages.
  induction Hc as [|msg out messages outs Hmsg _ IH]; intros acc; simpl.
  - by rewrite app_nil_r.
  - unfold mbind, result_bind. rewrite Hmsg, IH. by rewrite <- app_assoc.
Qed.

Lemma page_loop_S fuel chat_id offset all_messages :
  page_loop fromisoformat sqlite_db (S fuel) chat_id offset all_messages
  = (messages ← db_do (GetMessages chat_id batch_size offset)
                      (get_messages sqlite_db chat_id batch_size offset);
     match messages with
     | [] => mret all_messages
     | _ =>
         all_messages ← lift (append_messages fromisoformat messages all_messages);
         if length messages <? batch_size then mret all_messages
         else page_loop fromisoformat sqlite_db fuel chat_id
                (offset + batch_size) all_messages
     end : M (A:=A) _).
Proof. reflexivity. Qed.

Lemma page_loop_pages fuel chat_id k all_messages w outs :
  k * batch_size <= length (stored chat_id) ->
  length (stored chat_id) < (k + fuel) * batch_size ->
  Forall2 (fun msg out => convert_message fromisoformat msg = Ok out)
    (drop (k * batch_size) (stored chat_id)) outs ->
  page_loop fromisoformat sqlite_db fuel chat_id (k * batch_size) all_messages w
  = (Some (Ok (all_messages ++ outs)),
     World (pg w)
       (trace w ++
        ((fun j => DbRead (GetMessages chat_id batch_size (j * batch_size)))
           <$> seq k (length (stored chat_id) / batch_size + 1 - k)))).
Proof.
  pose proof batch_size_pos as Hpos.
  set (n := length (stored chat_id)).
  revert k all_messages w outs.
  induction fuel as [|fuel IH]; intros k acc w outs Hlo Hhi Hc; [lia|].
  rewrite page_loop_S.
  rewrite (bind_ok _ _ _ _ _ (db_do_ok _ _ _ _ (serves _ _ _))).
  pose proof (take_drop batch_size (drop (k * batch_size) (stored chat_id))) as Hsplit.
  rewrite drop_drop in Hsplit.
  destruct (take batch_size (drop (k * batch_size) (stored chat_id)))
    as [|m ms] eqn:Hpage.
  - (* an empty page: the chat holds exactly [k * batch_size] messages *)
    apply take_nil_inv in Hpage as [Hz|Hnil]; [lia|].
    rewrite Hnil in Hc. apply Forall2_nil_inv_l in Hc as ->.
    apply drop_nil_inv in Hnil. fold n in Hnil.
    rewrite (div_batch_exact n k) by lia.
    replace (k + 1 - k) with 1 by lia. simpl. by rewrite app_nil_r.
  - rewrite <- Hsplit in Hc.
    apply Forall2_app_inv_l in Hc as (o1 & o2 & Hc1 & Hc2 & ->).
    rewrite (bind_ok _ _ _ _ _
               (lift_ok _ _ _ (append_messages_converted _ _ acc Hc1))).
    assert (length (m :: ms) = min batch_size (n - k * batch_size)) as Hlen.
    { rewrite <- Hpage, length_take, length_drop. done. }
    destruct (length (m :: ms) <? batch_size) eqn:Hlt.
    + (* a short page: the last one *)
      apply Nat.ltb_lt in Hlt.
      assert (drop (k * batch_size + batch_size) (stored chat_id) = []) as Hrest.
      { apply drop_ge. fold n. lia. }
      rewrite Hrest in Hc2. apply Forall2_nil_inv_l in Hc2 as ->.
      rewrite (div_batch_exact n k) by lia.
      replace (k + 1 - k) with 1 by lia. simpl. by rewrite app_nil_r.
    + (* a full page: go on *)
      apply Nat.ltb_ge in Hlt.
      replace (k * batch_size + batch_size) with (S k * batch_size) in * by lia.
      rewrite (IH (S k) (acc ++ o1) _ o2) by (fold n; try done; lia).
      pose proof (div_batch_lower n (S k) ltac:(lia)) as Hdiv.
      replace (n / batch_size + 1 - k) with (S (n / batch_size + 1 - S k)) by lia.
      simpl. by rewrite <- !app_assoc.
Qed.

Lemma page_chats_pages fuel chats ids all_messages w outs :
  Forall2 (fun (chat : row) id => chat !! "id" = Some id) chats ids ->
  (forall id, id ∈ ids -> length (stored id) < fuel * batch_size) ->
  Forall2 (fun msg out => convert_message fromisoformat msg = Ok out)
    (concat (stored <$> ids)) outs ->
  page_chats fromisoformat sqlite_db fuel chats all_messages w
  = (Some (Ok (all_messages ++ outs)),
     World (pg w)
       (trace w ++
        concat ((fun id => spec_page_requests id (length (stored id))) <$> ids))).
Proof.
  intros Hids. revert all_messages w outs.
  induction Hids as [|chat id chats ids Hid _ IH]; intros acc w outs Hf Hc; simpl.
  - apply Forall2_nil_inv_l in Hc as ->. destruct w. by rewrite !app_nil_r.
  - simpl in Hc. apply Forall2_app_inv_l in Hc as (o1 & o2 & Hc1 & Hc2 & ->).
    rewrite (bind_ok _ _ _ id w) by (apply lift_ok; unfold getitem; by rewrite Hid).
    pose proof (page_loop_pages fuel id 0 acc w o1) as Hloop.
    change (0 * batch_size) with 0 in Hloop. rewrite drop_0, Nat.sub_0_r in Hloop.
    rewrite (bind_ok _ _ _ _ _ (Hloop ltac:(lia)
               ltac:(apply Hf; by left) Hc1)).
    rewrite (IH _ _ o2) by (try done; intros id' Hin; apply Hf; by right).
    cbn [pg trace]. unfold spec_page_requests. by rewrite <- !app_assoc.
Qed.

Lemma convertible_all (messages : list row) :
  (forall msg, msg ∈ messages ->
     exists out, convert_message fromisoformat msg = Ok out) ->
  exists outs,
    Forall2 (fun msg out => convert_message fromisoformat msg = Ok out) messages outs.
Proof.
  induction messages as [|msg rest IH]; intros Hc.
  - by exists [].
  - destruct (Hc msg) as [out Hout]; [by left|].
    destruct IH as [outs Houts]; [intros m Hm; apply Hc; by right|].
    exists (out :: outs). by constructor.
Qed.

Lemma page_sizes (l : list row) :
  (forall k, k < length l / batch_size ->
     length (take batch_size (drop (k * batch_size) l)) = batch_size)
  /\ length (take batch_size (drop (length l / batch_size * batch_size) l))
     < batch_size.
Proof.
  pose proof batch_size_pos as Hpos.
  pose proof (Nat.div_mod_eq (length l) batch_size) as Hdm.
  pose proof (Nat.mod_upper_bound (length l) batch_size ltac:(lia)) as Hmod.
  split.
  - intros k Hk. rewrite length_take, length_drop.
    assert (S k * batch_size <= length l / batch_size * batch_size)
      by (apply Nat.mul_le_mono_r; lia).
    lia.
  - rewrite length_take, length_drop. lia.
Qed.

End Paging.
End MigratorFacts.

(** ** Cascading delete on the reference adapter *)

Module ReferenceFacts.
Import Adapter Reference.

Lemma elem_of_keeps key v (table : list row) (r : row) :
  r ∈ keeps key v table <-> r ∈ table /\ r !! key ≠ Some v.
Proof.
  unfold keeps, has. rewrite !list_elem_of_In, filter_In, negb_true_iff.
  by rewrite bool_decide_eq_false.
Qed.

Lemma existsb_has key v (table : list row) :
  existsb (has key v) table = true <->
  exists r, r ∈ table /\ r !! key = Some v.
Proof.
  rewrite existsb_exists. unfold has. split.
  - intros (r & Hin & Hr). exists r.
    by rewrite list_elem_of_In, <- (bool_decide_eq_true (r !! key = Some v)).
  - intros (r & Hin & Hr). exists r.
    by rewrite <- list_elem_of_In, bool_decide_eq_true.
Qed.

(** C4, on the reference adapter: deleting a chat that is present
    returns [True] and leaves no chat with that id, no message, no media
    and no sync status of that chat; the users are the same as before, and
    so are the chats, messages, media and sync statuses of other chats. *)
Theorem delete_chat_cascades (st : store) (chat_id : value) :
  (exists chat, chat ∈ chats st /\ chat !! "id" = Some chat_id) ->
  exists st',
    delete_chat chat_id st = (Ok true, st')
    /\ (forall chat, chat ∈ chats st' -> chat !! "id" ≠ Some chat_id)
    /\ (forall m, m ∈ messages st' -> m !! "chat_id" ≠ Some chat_id)
    /\ (forall m, m ∈ media st' -> m !! "chat_id" ≠ Some chat_id)
    /\ (forall s, s ∈ sync_status st' -> s !! "chat_id" ≠ Some chat_id)
    /\ users st' = users st
    /\ (forall chat, chat ∈ chats st -> chat !! "id" ≠ Some chat_id ->
                     chat ∈ chats st')
    /\ (forall m, m ∈ messages st -> m !! "chat_id" ≠ Some chat_id ->
                  m ∈ messages st')
    /\ (forall m, m ∈ media st -> m !! "chat_id" ≠ Some chat_id -> m ∈ media st')
    /\ (forall s, s ∈ sync_status st -> s !! "chat_id" ≠ Some chat_id ->
                  s ∈ sync_status st').
Proof.
  intros Hchat. apply existsb_has in Hchat.
  unfold delete_chat, reference_adapter, ref_delete_chat. rewrite Hchat.
  eexists. split; [reflexivity|]. simpl.
  repeat split; try (intros r Hr; by apply elem_of_keeps in Hr as [_ ?]);
    intros r Hr Hne; by apply elem_of_keeps.
Qed.

(** A chat that is absent: nothing changes and [False] is returned. *)
Lemma delete_chat_absent (st : store) (chat_id : value) :
  (forall chat, chat ∈ chats st -> chat !! "id" ≠ Some chat_id) ->
  delete_chat chat_id st = (Ok false, st).
Proof.
  intros Habs. unfold delete_chat, reference_adapter, ref_delete_chat.
  destruct (existsb _ _) eqn:E; [|done].
  apply existsb_has in E as (r & Hin & Hr). by destruct (Habs r Hin).
Qed.

End ReferenceFacts.

(** ** Concrete runs *)

Module Runs.
Import Adapter Migrator Reference Examples Factory.
Import FactoryFacts MigratorFacts ReferenceFacts.

Lemma test_db_serves chat_id limit offset :
  get_messages test_db chat_id limit offset
  = Ok (take limit (drop offset (test_stored chat_id))).
Proof. reflexivity. Qed.

Lemma test_db_paginated : paginated test_db test_stored.
Proof.
  intros chat_id limit offset rows. rewrite test_db_serves. by intros [= <-].
Qed.

Lemma test_stored_short chat_id : length (test_stored chat_id) < 1 * batch_size.
Proof. unfold test_stored, batch_size. case_decide; simpl; lia. Qed.

(** The factory on "SQLite-Alchemy" against "sqlite-alchemy", on "SQLite"
    and without a [db_type]. *)
Lemma create_database_adapter_discriminator_witness :
  create_database_adapter (<["db_type" := VStr "SQLite-Alchemy"]> test_config)
  = create_database_adapter (<["db_type" := VStr "sqlite-alchemy"]> test_config)
  /\ create_database_adapter {[ "db_type" := VStr "SQLite" ]}
     = Raise (ValueError sqlite_message)
  /\ create_database_adapter ∅ = Raise (ValueError sqlite_message).
Proof.
  split; [|split].
  - destruct (create_database_adapter_discriminator test_config) as [H _].
    apply H. vm_compute. reflexivity.
  - destruct (create_database_adapter_discriminator {[ "db_type" := VStr "SQLite" ]})
      as (_ & H & _).
    apply (H "SQLite"); vm_compute; reflexivity.
  - destruct (create_database_adapter_discriminator ∅) as (_ & H & _).
    apply (H "sqlite"); vm_compute; reflexivity.
Defined.



(** The store of the migration test has no users table: its transfer
    counts 0 and all seven tables are entered. *)
Lemma migrate_table_isolates_failures_witness :
  (migrate_table test_fromisoformat test_db 1 "users" None test_world).1
  = Some (Ok 0%Z)
  /\ exists n w1 δ,
      migrate_tables test_fromisoformat test_db 1 tables 0%Z test_world
      = (Some (Ok n), w1)
      /\ trace w1 = trace test_world ++ δ
      /\ invocations δ = tables.
Proof.
  destruct (migrate_table_isolates_failures test_fromisoformat test_db 1 "users"
              None test_world) as (Hread & _ & Hloop).
  split.
  - apply (Hread (DatabaseError "no such table: users")
             (World Reference.empty
                [Logged INFO (Migrating_table "users"); DbRead (SelectAll "users")])).
    vm_compute. reflexivity.
  - apply (Hloop test_stored test_db_paginated test_stored_short).
Defined.

(** C2 as stated fails: in the run of the migration test the read of
    the users table raises inside [migrate_table] (as do media, reactions
    and sync_status), and [main] returns 0. *)
Lemma main_returns_0_after_table_failures :
  events (main test_fromisoformat test_env 1) !! 8
  = Some (Logged ERROR (Error_reading "users" (DatabaseError "no such table: users")))
  /\ status (main test_fromisoformat test_env 1) = Some (Ok 0%Z).
Proof. split; vm_compute; reflexivity. Qed.

Lemma main_exit_status_witness :
  status (main test_fromisoformat no_password_env 1) = Some (Ok 1%Z)
  /\ status (main test_fromisoformat test_env 1) = Some (Ok 0%Z)
  /\ (exists path backup_path pg_config tr sqlite_db a tr' total_migrated w1 w2,
        prepare test_env = (inr (path, backup_path, pg_config), tr)
        /\ new_DataMigrator test_env path pg_config tr = (Ok (sqlite_db, a), tr')
        /\ migrate_tables test_fromisoformat sqlite_db 1 tables 0%Z (World a tr')
           = (Some (Ok total_migrated), w1)
        /\ verify_migration sqlite_db w1 = (Some (Ok true), w2))
  /\ (exists a tr' total_migrated w1 verdict w2,
        migrate_tables test_fromisoformat test_db 1 tables 0%Z (World a tr')
        = (Some (Ok total_migrated), w1)
        /\ verify_migration test_db w1 = (Some verdict, w2)).
Proof.
  destruct (main_exit_status test_fromisoformat no_password_env 1) as (Hpw & _).
  destruct (main_exit_status test_fromisoformat test_env 1)
    as (_ & _ & Hrun & Hzero).
  assert (status (main test_fromisoformat test_env 1) = Some (Ok 0%Z)) as H0
    by (vm_compute; reflexivity).
  split; [|split; [|split]].
  - apply Hpw. vm_compute. reflexivity.
  - exact H0.
  - exact (Hzero H0).
  - edestruct Hrun as [_ Hbuilt]; [vm_compute; reflexivity|].
    edestruct (fun tr' => Hbuilt test_db Reference.empty tr' test_stored)
      as (n & w1 & verdict & w2 & Hm & Hv & _);
      [vm_compute; reflexivity | apply test_db_paginated
      | apply test_stored_short |].
    do 6 eexists. split; [exact Hm | exact Hv].
Defined.

(** A chat of exactly 1000 messages takes two requests, at offsets 0 and
    1000, and does not fit in one round of the loop. *)
Example two_pages :
  trace (_get_messages test_fromisoformat full_page_db 2 test_world).2
  = [ DbRead (GetAllChats None);
      DbRead (GetMessages (VInt 123) 1000 0);
      DbRead (GetMessages (VInt 123) 1000 1000) ]
  /\ (_get_messages test_fromisoformat full_page_db 2 test_world).1
     = Some (Ok (replicate 1000 (<["date" := VDatetime 0]> test_message)))
  /\ (_get_messages test_fromisoformat full_page_db 1 test_world).1 = None.
Proof. repeat split; vm_compute; reflexivity. Qed.

(** A metadata value that is the empty string is handed to
    [set_metadata] as it is. *)
Example metadata_keeps_empty_string :
  trace (migrate_table test_fromisoformat blank_metadata_db 1 "metadata" None
           test_world).2
  = [ Logged INFO (Migrating_table "metadata");
      DbRead GetMetadata;
      PgCall (SetMetadata (VStr "note") (VStr ""));
      Logged INFO (Migrated 1 "metadata") ]
  /\ ~ Forall clean_event
        (trace (migrate_table test_fromisoformat blank_metadata_db 1 "metadata"
                  None test_world).2).
Proof.
  assert (trace (migrate_table test_fromisoformat blank_metadata_db 1 "metadata"
                   None test_world).2
          = [ Logged INFO (Migrating_table "metadata");
              DbRead GetMetadata;
              PgCall (SetMetadata (VStr "note") (VStr ""));
              Logged INFO (Migrated 1 "metadata") ]) as E
    by (vm_compute; reflexivity).
  split; [exact E|]. rewrite E. intros H.
  apply (Forall_lookup_1 _ _ 2 _ H eq_refl). reflexivity.
Qed.

Lemma verify_migration_compares_counts_witness :
  (verify_migration test_db migrated_world).1 = Some (Ok true)
  /\ pg (verify_migration test_db migrated_world).2 = test_store
  /\ (verify_migration test_db test_world).1 = Some (Ok false).
Proof.
  destruct (verify_migration_compares_counts test_db migrated_world) as [_ H].
  destruct (verify_migration_compares_counts test_db test_world) as [_ H'].
  destruct (H [test_chat] [VInt 123] [1%Z]
              {[ "chats" := 1%Z; "messages" := 1%Z; "users" := 1%Z;
                 "media" := 1%Z ]} test_store) as [Hr Hpg];
    [ reflexivity
    | constructor; [vm_compute; reflexivity | constructor]
    | constructor; [vm_compute; reflexivity | constructor]
    | vm_compute; reflexivity | ].
  destruct (H' [test_chat] [VInt 123] [1%Z]
              {[ "chats" := 0%Z; "messages" := 0%Z; "users" := 0%Z;
                 "media" := 0%Z ]} Reference.empty) as [Hr' _];
    [ reflexivity
    | constructor; [vm_compute; reflexivity | constructor]
    | constructor; [vm_compute; reflexivity | constructor]
    | vm_compute; reflexivity | ].
  split; [|split].
  - etransitivity; [exact Hr|]. vm_compute. reflexivity.
  - exact Hpg.
  - etransitivity; [exact Hr'|]. vm_compute. reflexivity.
Defined.

Lemma delete_chat_cascades_witness :
  exists st',
    delete_chat (VInt 123) test_store = (Ok true, st')
    /\ chats st' = [] /\ messages st' = [] /\ media st' = []
    /\ sync_status st' = [] /\ users st' = [test_user].
Proof.
  destruct (delete_chat_cascades test_store (VInt 123))
    as (st' & Hdel & _ & _ & _ & _ & Husers & _).
  - exists test_chat. split; [by left | vm_compute; reflexivity].
  - exists st'. split; [exact Hdel|].
    assert (st' = (delete_chat (VInt 123) test_store).2) as -> by by rewrite Hdel.
    repeat split; vm_compute; reflexivity.
Defined.

End Runs.


(** * Further properties *)

(** ** The factory and the models *)

Module FactoryMore.
Import Factory FactoryFacts.

(** X1: the factory returns an adapter in exactly two situations: for
    "sqlite-alchemy" (in any letter case) when the configuration has both
    [database_path] and [database_timeout], which are passed on as they
    are; and for "postgres-alchemy" when the password is truthy, every
    other connection parameter falling back to its default (localhost,
    5432, telegram_backup, postgres, pool size 5) when not configured. *)
Theorem create_database_adapter_succeeds (config : row) (request : adapter_request) :
  create_database_adapter config = Ok request <->
  exists s, config !! "db_type" = Some (VStr s)
    /\ ((lower s = "sqlite-alchemy"
         /\ exists p t, config !! "database_path" = Some p
                        /\ config !! "database_timeout" = Some t
                        /\ request = SQLiteAdapter p t)
        \/ (lower s = "postgres-alchemy"
            /\ truthy (getattr config "postgres_password" (VStr "")) = true
            /\ request
               = PostgreSQLAdapter
                   (getattr config "postgres_host" (VStr "localhost"))
                   (getattr config "postgres_port" (VInt 5432))
                   (getattr config "postgres_db" (VStr "telegram_backup"))
                   (getattr config "postgres_user" (VStr "postgres"))
                   (getattr config "postgres_password" (VStr ""))
                   (getattr config "postgres_pool_size" (VInt 5)))).
Proof.
  split.
  - intros Hok.
    destruct (getattr config "db_type" (VStr "sqlite")) as [| | |s|] eqn:Hg;
      try (rewrite create_not_str in Hok; [discriminate|intros s'; by rewrite Hg]).
    revert Hok. enter_factory Hg. intros Hok.
    destruct (String.eqb_spec (lower s) "sqlite") as [|Hne]; [discriminate|].
    assert (config !! "db_type" = Some (VStr s)) as Hcfg.
    { unfold getattr in Hg. destruct (config !! "db_type") as [v|] eqn:E.
      - by subst.
      - injection Hg as <-. by destruct Hne. }
    exists s. split; [done|].
    destruct (String.eqb_spec (lower s) "sqlite-alchemy") as [E|_].
    + left. split; [done|]. unfold attr in Hok.
      destruct (config !! "database_path") as [p|]; [|discriminate].
      destruct (config !! "database_timeout") as [t|]; [|discriminate].
      injection Hok as <-. by exists p, t.
    + destruct (String.eqb_spec (lower s) "postgres-alchemy") as [E|_];
        [|discriminate].
      right. split; [done|].
      destruct (truthy _); [|discriminate]. by injection Hok as <-.
  - intros (s & Hcfg & H).
    assert (getattr config "db_type" (VStr "sqlite") = VStr s) as Hg
      by (unfold getattr; by rewrite Hcfg).
    enter_factory Hg.
    destruct H as [(Hl & p & t & Hp & Ht & ->)|(Hl & Hpw & ->)]; rewrite Hl; simpl.
    + unfold attr. by rewrite Hp, Ht.
    + by rewrite Hpw.
Qed.

(** X2: [is_sqlalchemy_adapter] and the factory agree: it is true exactly
    for the two discriminators the factory builds an adapter for, in any
    letter case; when it is false the factory raises a [ValueError], and
    whenever the factory returns an adapter it is true. *)
Theorem is_sqlalchemy_adapter_agrees (config : row) (s : string) :
  config !! "db_type" = Some (VStr s) ->
  (is_sqlalchemy_adapter s = true <-> lower s ∈ supported)
  /\ is_sqlalchemy_adapter (lower s) = is_sqlalchemy_adapter s
  /\ (is_sqlalchemy_adapter s = false ->
      exists msg, create_database_adapter config = Raise (ValueError msg))
  /\ (forall request, create_database_adapter config = Ok request ->
                      is_sqlalchemy_adapter s = true).
Proof.
  intros Hcfg.
  assert (getattr config "db_type" (VStr "sqlite") = VStr s) as Hg
    by (unfold getattr; by rewrite Hcfg).
  assert (is_sqlalchemy_adapter s = true <-> lower s ∈ supported) as Hiff.
  { unfold is_sqlalchemy_adapter, supported.
    rewrite orb_true_iff, !String.eqb_eq, !elem_of_cons, elem_of_nil. tauto. }
  split; [done|]. split; [|split].
  - unfold is_sqlalchemy_adapter. by rewrite lower_idemp.
  - intros Hfalse. enter_factory Hg. unfold is_sqlalchemy_adapter in Hfalse.
    apply orb_false_iff in Hfalse as [H1 H2]. rewrite H1, H2.
    destruct (String.eqb (lower s) "sqlite"); eauto.
  - intros request Hok. apply Hiff. revert Hok. enter_factory Hg.
    unfold supported. rewrite !elem_of_cons.
    destruct (String.eqb_spec (lower s) "sqlite"); [discriminate|].
    destruct (String.eqb_spec (lower s) "sqlite-alchemy"); [auto|].
    destruct (String.eqb_spec (lower s) "postgres-alchemy"); [auto|discriminate].
Qed.

End FactoryMore.

(** ** The migrator, further *)

Module MigratorMore.
Import Adapter Migrator MigratorFacts.

(** *** Row normalization *)

Lemma convert_value_idemp (v : value) : convert_value (convert_value v) = convert_value v.
Proof. unfold convert_value. repeat case_decide; done. Qed.

(** X4: [_convert_dict] keeps the keys of a row, changes nothing in a row
    that holds no empty string, and applying it twice is the same as
    applying it once. *)
Theorem convert_dict_idempotent (r : row) :
  dom (_convert_dict r) = dom r
  /\ _convert_dict (_convert_dict r) = _convert_dict r
  /\ (clean_row r -> _convert_dict r = r).
Proof.
  rewrite !convert_dict_fmap. split; [apply dom_fmap_L|]. split.
  - rewrite <- map_fmap_compose. apply map_fmap_ext.
    intros k v _. apply convert_value_idemp.
  - intros Hclean. apply map_eq. intros k. rewrite lookup_fmap.
    destruct (r !! k) as [v|] eqn:Hk; [|done]. simpl. f_equal.
    unfold convert_value. case_decide; [|done]. subst. by destruct (Hclean k).
Qed.

Section Dates.
Variable fromisoformat : string -> result Z.

Lemma convert_date_cases key (d : row) :
  convert_date fromisoformat key d
  = match d !! key with
    | Some (VStr s) =>
        if String.eqb s "" then Ok d
        else t ← fromisoformat s; Ok (<[key := VDatetime t]> d)
    | _ => Ok d
    end.
Proof.
  unfold convert_date. destruct (d !! key) as [[| | |s|]|]; try done.
  - by destruct (truthy _).
  - by destruct (truthy _).
  - simpl. by destruct (String.eqb s "").
Qed.

Lemma convert_date_ok key (d out : row) :
  convert_date fromisoformat key d = Ok out ->
  dom out = dom d
  /\ (forall k, k ≠ key -> out !! k = d !! k)
  /\ match d !! key with
     | Some (VStr s) =>
         if String.eqb s "" then out !! key = Some (VStr s)
         else exists t, fromisoformat s = Ok t /\ out !! key = Some (VDatetime t)
     | other => out !! key = other
     end.
Proof.
  rewrite convert_date_cases.
  destruct (d !! key) as [v|] eqn:Hk; [|by intros [= <-]].
  destruct v as [| | |s|]; try (by intros [= <-]).
  destruct (String.eqb s ""); [by intros [= <-]|].
  unfold mbind, result_bind. destruct (fromisoformat s) as [t|e]; [|done].
  intros [= <-]. split; [|split].
  - rewrite dom_insert_L. apply subseteq_union_1_L, singleton_subseteq_l.
    by apply elem_of_dom_2 in Hk.
  - intros k Hne. by rewrite lookup_insert_ne.
  - exists t. by rewrite lookup_insert_eq.
Qed.

Lemma convert_date_raises key (d : row) e :
  convert_date fromisoformat key d = Raise e ->
  exists s, d !! key = Some (VStr s) /\ s ≠ "" /\ fromisoformat s = Raise e.
Proof.
  rewrite convert_date_cases.
  destruct (d !! key) as [v|]; [|done]. destruct v as [| | |s|]; try done.
  destruct (String.eqb_spec s ""); [done|].
  unfold mbind, result_bind. destruct (fromisoformat s) as [t|e'] eqn:E; [done|].
  intros [= ->]. by exists s.
Qed.

(** The normalized value under a key, by the legacy value. *)
Lemma convert_dict_string (msg : row) k s :
  msg !! k = Some (VStr s) ->
  _convert_dict msg !! k = Some (if String.eqb s "" then VNone else VStr s).
Proof.
  intros Hk. rewrite convert_dict_fmap, lookup_fmap, Hk. simpl. f_equal.
  unfold convert_value. destruct (String.eqb_spec s "") as [->|Hne]; [done|].
  case_decide as E; [|done]. injection E as ->. done.
Qed.

Lemma convert_dict_other (msg : row) k :
  (forall s, msg !! k ≠ Some (VStr s)) -> _convert_dict msg !! k = msg !! k.
Proof.
  intros Hk. rewrite convert_dict_fmap, lookup_fmap.
  destruct (msg !! k) as [v|] eqn:E; [|done]. simpl. f_equal.
  unfold convert_value. case_decide; [|done]. subst. by destruct (Hk "").
Qed.

(** One date key through normalization and [convert_date]. *)
Lemma converted_date_value key (msg d out : row) :
  d !! key = _convert_dict msg !! key ->
  match d !! key with
  | Some (VStr s) =>
      if String.eqb s "" then out !! key = Some (VStr s)
      else exists t, fromisoformat s = Ok t /\ out !! key = Some (VDatetime t)
  | other => out !! key = other
  end ->
  match msg !! key with
  | Some (VStr s) =>
      if String.eqb s "" then out !! key = Some VNone
      else exists t, fromisoformat s = Ok t /\ out !! key = Some (VDatetime t)
  | other => out !! key = other
  end.
Proof.
  intros Hd Hout. destruct (msg !! key) as [v|] eqn:Hk.
  - destruct v as [| | |s|];
      try (rewrite convert_dict_other in Hd by (intros s; by rewrite Hk);
           rewrite Hd, Hk in Hout; exact Hout).
    rewrite (convert_dict_string _ _ _ Hk) in Hd. rewrite Hd in Hout.
    destruct (String.eqb s "") eqn:E; simpl in Hout; [done|]. by rewrite E in Hout.
  - rewrite convert_dict_other in Hd by (intros s; by rewrite Hk).
    rewrite Hd, Hk in Hout. exact Hout.
Qed.

(** X5: what [_get_messages] does to one message: every key is kept;
    outside "date" and "edit_date" a value is only normalized (the empty
    string becomes [None]); a date that is a non-empty string is replaced
    by the [datetime] that [fromisoformat] parses from it, an empty one
    becomes [None] without being parsed, and any other value is kept.
    The conversion raises only when [fromisoformat] raises on one of the
    two dates, with that exception. *)
Theorem convert_message_dates (msg : row) :
  (forall out, convert_message fromisoformat msg = Ok out ->
     dom out = dom msg
     /\ (forall k, k ≠ "date" -> k ≠ "edit_date" ->
                   out !! k = convert_value <$> msg !! k)
     /\ (forall k, k = "date" \/ k = "edit_date" ->
           match msg !! k with
           | Some (VStr s) =>
               if String.eqb s "" then out !! k = Some VNone
               else exists t, fromisoformat s = Ok t /\ out !! k = Some (VDatetime t)
           | other => out !! k = other
           end))
  /\ (forall e, convert_message fromisoformat msg = Raise e ->
        exists k s, (k = "date" \/ k = "edit_date")
                    /\ msg !! k = Some (VStr s) /\ s ≠ ""
                    /\ fromisoformat s = Raise e).
Proof.
  unfold convert_message, mbind, result_bind.
  destruct (convert_date fromisoformat "date" (_convert_dict msg)) as [d1|e1] eqn:H1.
  - apply convert_date_ok in H1 as (Hdom1 & Hrest1 & Hdate).
    split.
    + intros out H2. apply convert_date_ok in H2 as (Hdom2 & Hrest2 & Hedit).
      split; [|split].
      * rewrite Hdom2, Hdom1, convert_dict_fmap. apply dom_fmap_L.
      * intros k Hk1 Hk2.
        by rewrite Hrest2, Hrest1, convert_dict_fmap, lookup_fmap.
      * intros k [-> | ->].
        -- apply (converted_date_value "date" msg (_convert_dict msg)); [done|].
           rewrite Hrest2 by done. exact Hdate.
        -- apply (converted_date_value "edit_date" msg d1); [by apply Hrest1|].
           exact Hedit.
    + intros e H2. apply convert_date_raises in H2 as (s & Hs & Hne & Hraise).
      rewrite Hrest1 in Hs by done.
      exists "edit_date", s. split; [auto|]. split; [|done].
      destruct (msg !! "edit_date") as [v|] eqn:Hk.
      * destruct v as [| | |s'|];
          try (rewrite convert_dict_other in Hs by (intros s0; by rewrite Hk);
               by rewrite Hk in Hs).
        rewrite (convert_dict_string _ _ _ Hk) in Hs.
        destruct (String.eqb s' ""); [done|]. by injection Hs as ->.
      * rewrite convert_dict_other in Hs by (intros s0; by rewrite Hk).
        by rewrite Hk in Hs.
  - split; [done|]. intros e [= <-].
    apply convert_date_raises in H1 as (s & Hs & Hne & Hraise).
    exists "date", s. split; [auto|]. split; [|done].
    destruct (msg !! "date") as [v|] eqn:Hk.
    + destruct v as [| | |s'|];
        try (rewrite convert_dict_other in Hs by (intros s0; by rewrite Hk);
             by rewrite Hk in Hs).
      rewrite (convert_dict_string _ _ _ Hk) in Hs.
      destruct (String.eqb s' ""); [done|]. by injection Hs as ->.
    + rewrite convert_dict_other in Hs by (intros s0; by rewrite Hk).
      by rewrite Hk in Hs.
Qed.

End Dates.

(** *** What a table transfer writes *)

Lemma pg_calls_app (tr1 tr2 : list event) :
  pg_calls (tr1 ++ tr2) = pg_calls tr1 ++ pg_calls tr2.
Proof. apply omap_app. Qed.

Section Writes.
Context {A : Type} `{!DatabaseAdapter A}.
Variable fromisoformat : string -> result Z.
Variable sqlite_db : SQLiteDatabase.

Implicit Types (w : world (A:=A)).

Lemma write_rows_count table_name transform_func rows count w n w' :
  write_rows table_name transform_func rows count w = (Some (Ok n), w') ->
  n = (count + Z.of_nat (length rows))%Z.
Proof.
  revert count w. induction rows as [|r rest IH]; intros count w; simpl.
  - intros [= <- _]. lia.
  - unfold mbind, M_bind, lift.
    destruct (match transform_func with Some f => f r | None => mret r end)
      as [r'|e]; [|done].
    destruct (write_row table_name r' w) as [[[[]|e]|] w1]; [|done|done].
    intros Hrest. apply IH in Hrest. lia.
Qed.

Lemma write_table_count table_name transform_func rows w n w' :
  write_table table_name transform_func rows w = (Some (Ok n), w') ->
  n = Z.of_nat (length rows).
Proof.
  unfold write_table, mbind, M_bind.
  destruct (write_rows _ _ _ _ _) as [[[c|e]|] w1] eqn:Hrows; [|done|done].
  apply write_rows_count in Hrows.
  destruct (_ && _).
  - destruct (pg_do _ w1) as [[[[]|e]|] w2]; [|done|done].
    intros [= <- _]. lia.
  - intros [= <- _]. lia.
Qed.

(** X6: the count [migrate_table] returns is the number of rows it read
    from the legacy store when the transfer went through, and 0 in every
    other case (unknown table, failed read, failed write). *)
Theorem migrate_table_counts_rows fuel table_name transform_func w n :
  (migrate_table fromisoformat sqlite_db fuel table_name transform_func w).1
  = Some (Ok n) ->
  n = 0%Z
  \/ exists rows w1 w2,
      read_table fromisoformat sqlite_db fuel table_name (entered table_name w)
      = (Some (Ok (Some rows)), w1)
      /\ write_table table_name transform_func rows w1 = (Some (Ok n), w2)
      /\ n = Z.of_nat (length rows).
Proof.
  unfold migrate_table, mbind, M_bind, try_except, fmap, M_fmap, mbind, M_bind,
    log, emit. simpl. fold (entered table_name w).
  destruct (read_table _ _ _ _ _) as [[[[rows|]|e]|] w1]; simpl;
    try (intros [= <-]; by left); try done.
  destruct (write_table _ _ _ _) as [[[c|e]|] w2] eqn:Hw; simpl;
    try (intros [= <-]; by left); try done.
  intros [= ->]. right. exists rows, w1, w2.
  split; [done|]. split; [done|]. by eapply write_table_count.
Qed.

Lemma write_rows_messages transform_func rows count w :
  (forall r f, r ∈ rows -> transform_func = Some f -> exists r', f r = Ok r') ->
  write_rows "messages" transform_func rows count w
  = (Some (Ok (count + Z.of_nat (length rows))%Z), w).
Proof.
  revert count. induction rows as [|r rest IH]; intros count Hf.
  - simpl. by rewrite Z.add_0_r.
  - replace (count + Z.of_nat (length (r :: rest)))%Z
      with (count + 1 + Z.of_nat (length rest))%Z by (simpl length; lia).
    simpl.
    assert (exists r', match transform_func with Some f => f r | None => mret r end
                       = Ok r') as [r' ->].
    { destruct transform_func as [f|]; [|by exists r].
      apply (Hf r f); [by left | done]. }
    unfold mbind at 1, M_bind, lift. cbv beta iota.
    change (write_row "messages" r') with (mret tt : M (A:=A) unit).
    unfold mbind at 1, M_bind, mret at 1, M_ret. cbv beta iota.
    apply IH. intros r0 f Hin. apply Hf. by right.
Qed.

(** X7: the rows of the messages table go to the adapter in one
    [insert_messages] call, made after the loop, that carries the rows as
    they were read: the row a [transform_func] returns is dropped.  (The
    function is still called on every row; the statement is for one that
    returns without raising and leaves its argument as it is.)  With no
    row at all the adapter is not called. *)
Theorem messages_written_in_one_batch transform_func rows w :
  (forall r f, r ∈ rows -> transform_func = Some f -> exists r', f r = Ok r') ->
  write_table "messages" transform_func rows w
  = match rows with
    | [] => (Some (Ok 0%Z),
             World (pg w) (trace w ++ [Logged INFO (Migrated 0 "messages")]))
    | _ =>
        let '(outcome, a) := perform (InsertMessages rows) (pg w) in
        match outcome with
        | Ok _ =>
            (Some (Ok (Z.of_nat (length rows))),
             World a (trace w ++
                      [PgCall (InsertMessages rows);
                       Logged INFO (Migrated (Z.of_nat (length rows)) "messages")]))
        | Raise e =>
            (Some (Raise e), World a (trace w ++ [PgCall (InsertMessages rows)]))
        end
    end.
Proof.
  intros Hf. unfold write_table.
  rewrite (bind_ok _ _ _ _ _ (write_rows_messages transform_func rows 0 w Hf)).
  destruct rows as [|r rest]; [reflexivity|].
  change (String.eqb "messages" "messages" && negb (bool_decide (r :: rest = [])))
    with true. cbv beta iota.
  unfold mbind, M_bind, pg_do, log, emit.
  destruct (perform (InsertMessages (r :: rest)) (pg w)) as [[[]|e] a]; simpl;
    [|done].
  by rewrite <- app_assoc.
Qed.

(** The calls of a table whose rows are written one by one. *)
Lemma write_rows_calls table_name (mk : row -> adapter_call) rows count w :
  Forall (fun r => write_row (A:=A) table_name r = pg_do (mk r)) rows ->
  exists δ,
    trace (write_rows table_name None rows count w).2 = trace w ++ δ
    /\ pg_calls δ `prefix_of` (mk <$> rows)
    /\ (forall n, (write_rows table_name None rows count w).1 = Some (Ok n) ->
                  pg_calls δ = mk <$> rows).
Proof.
  intros Hrows. revert count w.
  induction Hrows as [|r rest Hr _ IH]; intros count w.
  - exists []. simpl. by rewrite app_nil_r.
  - assert (write_rows table_name None (r :: rest) count w
            = match perform (mk r) (pg w) with
              | (Ok _, a) =>
                  write_rows table_name None rest (count + 1)%Z
                    (World a (trace w ++ [PgCall (mk r)]))
              | (Raise e, a) =>
                  (Some (Raise e), World a (trace w ++ [PgCall (mk r)]))
              end) as ->.
    { simpl. unfold mbind at 1, M_bind, lift, mret at 1, result_ret.
      cbv beta iota. rewrite Hr. unfold mbind at 1, M_bind, pg_do.
      by destruct (perform (mk r) (pg w)) as [[[]|e] a]. }
    destruct (perform (mk r) (pg w)) as [[[]|e] a].
    + destruct (IH (count + 1)%Z (World a (trace w ++ [PgCall (mk r)])))
        as (δ & Ht & Hpre & Hall).
      exists (PgCall (mk r) :: δ). rewrite Ht. simpl. rewrite <- app_assoc.
      split; [done|]. split; [by apply prefix_cons|].
      intros n Hn. f_equal. by eapply Hall.
    + exists [PgCall (mk r)]. simpl. split; [done|].
      split; [apply prefix_cons, prefix_nil|]. done.
Qed.

Lemma write_table_calls table_name (mk : row -> adapter_call) rows w :
  String.eqb table_name "messages" = false ->
  Forall (fun r => write_row (A:=A) table_name r = pg_do (mk r)) rows ->
  exists δ,
    trace (write_table table_name None rows w).2 = trace w ++ δ
    /\ pg_calls δ `prefix_of` (mk <$> rows)
    /\ (forall n, (write_table table_name None rows w).1 = Some (Ok n) ->
                  pg_calls δ = mk <$> rows).
Proof.
  intros Hne Hrows.
  destruct (write_rows_calls table_name mk rows 0%Z w Hrows)
    as (δ & Ht & Hpre & Hall).
  assert (write_table table_name None rows w
          = match write_rows table_name None rows 0%Z w with
            | (Some (Ok c), w1) =>
                (Some (Ok c),
                 World (pg w1) (trace w1 ++ [Logged INFO (Migrated c table_name)]))
            | other => other
            end) as ->.
  { unfold write_table, mbind, M_bind. rewrite Hne.
    by destruct (write_rows table_name None rows 0 w) as [[[c|e]|] w1]. }
  destruct (write_rows table_name None rows 0 w) as [[[c|e]|] w1];
    simpl in *; [| by exists δ | by exists δ].
  exists (δ ++ [Logged INFO (Migrated c table_name)]).
  rewrite Ht, <- app_assoc, pg_calls_app, app_nil_r.
  split; [done|]. split; [done|]. intros n _. by eapply Hall.
Qed.

(** X8: for chats, users, media and reactions the write phase calls the
    adapter once per row, in the order the rows were read: [upsert_chat],
    [upsert_user], [upsert_media], respectively [insert_reactions] with
    that single row.  When it stops on an exception the calls made are
    those for the rows up to the failing one. *)
Theorem rows_written_one_by_one rows w :
  Forall (fun '(table_name, mk) =>
            exists δ,
              trace (write_table table_name None rows w).2 = trace w ++ δ
              /\ pg_calls δ `prefix_of` (mk <$> rows)
              /\ (forall n, (write_table table_name None rows w).1 = Some (Ok n) ->
                            pg_calls δ = mk <$> rows))
    [ ("chats", UpsertChat); ("users", UpsertUser); ("media", UpsertMedia);
      ("reactions", fun r => InsertReactions [r]) ].
Proof.
  repeat apply Forall_cons_2; try apply Forall_nil_2;
    (apply write_table_calls; [reflexivity|]; by apply Forall_true).
Qed.

(** X9: of a sync_status row only [chat_id], [last_message_id] and
    [message_count] are transferred: rows that agree on these three are
    written alike (the legacy [last_sync_date] is not carried over); a
    row that lacks one of them raises [KeyError] before the adapter is
    called. *)
Theorem sync_status_row_keys (r : row) :
  (forall r' : row,
     r' !! "chat_id" = r !! "chat_id" ->
     r' !! "last_message_id" = r !! "last_message_id" ->
     r' !! "message_count" = r !! "message_count" ->
     write_row (A:=A) "sync_status" r' = write_row "sync_status" r)
  /\ (forall w,
       r !! "chat_id" = None \/ r !! "last_message_id" = None
       \/ r !! "message_count" = None ->
       exists key,
         key ∈ ["chat_id"; "last_message_id"; "message_count"]
         /\ r !! key = None
         /\ write_row "sync_status" r w = (Some (Raise (KeyError key)), w)).
Proof.
  split.
  - intros r' H1 H2 H3.
    change (write_row (A:=A) "sync_status" r')
      with (chat_id ← lift (getitem r' "chat_id");
            last_message_id ← lift (getitem r' "last_message_id");
            message_count ← lift (getitem r' "message_count");
            pg_do (UpdateSyncStatus chat_id last_message_id message_count)
            : M (A:=A) unit).
    unfold getitem. by rewrite H1, H2, H3.
  - intros w Hmiss.
    change (write_row (A:=A) "sync_status" r)
      with (chat_id ← lift (getitem r "chat_id");
            last_message_id ← lift (getitem r "last_message_id");
            message_count ← lift (getitem r "message_count");
            pg_do (UpdateSyncStatus chat_id last_message_id message_count)
            : M (A:=A) unit).
    unfold getitem, mbind, M_bind, lift.
    destruct (r !! "chat_id") as [a|] eqn:E1;
      [|exists "chat_id"; rewrite !elem_of_cons; auto].
    destruct (r !! "last_message_id") as [b|] eqn:E2;
      [|exists "last_message_id"; rewrite !elem_of_cons; auto].
    destruct (r !! "message_count") as [c|] eqn:E3;
      [|exists "message_count"; rewrite !elem_of_cons; auto].
    by destruct Hmiss as [?|[?|?]].
Qed.

End Writes.

(** *** Reading leaves the target alone *)

Section ReadsOnly.
Context {A : Type} `{!DatabaseAdapter A}.
Variable fromisoformat : string -> result Z.
Variable sqlite_db : SQLiteDatabase.

Implicit Types (w : world (A:=A)).

Lemma reads_only_ret {X} (x : X) : reads_only (mret x : M (A:=A) X).
Proof. intros w. split; [done|]. exists []. by rewrite app_nil_r. Qed.

Lemma reads_only_lift {X} (r : result X) : reads_only (lift r : M (A:=A) X).
Proof. intros w. split; [done|]. exists []. by rewrite app_nil_r. Qed.

Lemma reads_only_diverge {X} : reads_only (diverge : M (A:=A) X).
Proof. intros w. split; [done|]. exists []. by rewrite app_nil_r. Qed.

Lemma reads_only_log lvl r : reads_only (log lvl r : M (A:=A) unit).
Proof. intros w. split; [done|]. by exists [Logged lvl r]. Qed.

Lemma reads_only_db_do {X} (c : db_call) (r : result X) :
  reads_only (db_do c r : M (A:=A) X).
Proof. intros w. split; [done|]. by exists [DbRead c]. Qed.

Lemma reads_only_bind {X Y} (m : M (A:=A) X) (k : X -> M (A:=A) Y) :
  reads_only m -> (forall x, reads_only (k x)) -> reads_only (m ≫= k).
Proof.
  intros Hm Hk w. unfold mbind, M_bind.
  destruct (Hm w) as (Hpg & δ & Ht & Hc).
  destruct (m w) as [[[x|e]|] w1]; simpl in *.
  - destruct (Hk x w1) as (Hpg' & δ' & Ht' & Hc').
    split; [congruence|]. exists (δ ++ δ').
    by rewrite Ht', Ht, <- app_assoc, pg_calls_app, Hc, Hc'.
  - split; [done|]. by exists δ.
  - split; [done|]. by exists δ.
Qed.

Lemma reads_only_fmap {X Y} (f : X -> Y) (m : M (A:=A) X) :
  reads_only m -> reads_only (f <$> m).
Proof.
  intros Hm. unfold fmap, M_fmap. apply reads_only_bind; [done|].
  intros x. apply reads_only_ret.
Qed.

Lemma reads_only_try {X} (body : M (A:=A) X) (handler : exn -> M (A:=A) X) :
  reads_only body -> (forall e, reads_only (handler e)) ->
  reads_only (try_except body handler).
Proof.
  intros Hb Hh w. unfold try_except.
  destruct (Hb w) as (Hpg & δ & Ht & Hc).
  destruct (body w) as [[[x|e]|] w1]; simpl in *.
  - split; [done|]. by exists δ.
  - destruct (Hh e w1) as (Hpg' & δ' & Ht' & Hc').
    split; [congruence|]. exists (δ ++ δ').
    by rewrite Ht', Ht, <- app_assoc, pg_calls_app, Hc, Hc'.
  - split; [done|]. by exists δ.
Qed.

Ltac reads_step :=
  cbv beta iota;
  lazymatch goal with
  | |- reads_only (mret _) => apply reads_only_ret
  | |- reads_only (lift _) => apply reads_only_lift
  | |- reads_only diverge => apply reads_only_diverge
  | |- reads_only (log _ _) => apply reads_only_log
  | |- reads_only (db_do _ _) => apply reads_only_db_do
  | |- reads_only (fmap _ _) => apply reads_only_fmap
  | |- reads_only (try_except _ _) => apply reads_only_try; [|intros ?]
  | |- reads_only (mbind _ _) => apply reads_only_bind; [|intros ?]
  | |- reads_only (if ?b then _ else _) => destruct b
  | |- reads_only (match ?x with _ => _ end) => destruct x
  end.

Lemma reads_only_page_loop fuel chat_id offset all_messages :
  reads_only (A:=A)
    (page_loop fromisoformat sqlite_db fuel chat_id offset all_messages).
Proof.
  revert offset all_messages.
  induction fuel as [|fuel IH]; intros offset all_messages; simpl.
  - reads_step.
  - reads_step; [reads_step|]. reads_step; [reads_step|].
    reads_step; [reads_step|]. reads_step; [reads_step | apply IH].
Qed.

Lemma reads_only_page_chats fuel chats all_messages :
  reads_only (A:=A) (page_chats fromisoformat sqlite_db fuel chats all_messages).
Proof.
  revert all_messages. induction chats as [|chat rest IH]; intros acc; simpl.
  - reads_step.
  - reads_step; [reads_step|].
    reads_step; [apply reads_only_page_loop | apply IH].
Qed.

Lemma reads_only_read_table fuel table_name :
  reads_only (A:=A) (read_table fromisoformat sqlite_db fuel table_name).
Proof.
  unfold read_table, _get_chats, _get_messages, _get_users, _get_media,
    _get_reactions, _get_sync_status, _get_metadata, select_converted.
  repeat first [ apply reads_only_page_chats | reads_step ].
Qed.

(** X15: a table name that is none of the seven is not an error: the
    call logs a warning and returns 0, without a read on the legacy
    store and without touching the target. *)
Theorem migrate_table_unknown fuel table_name transform_func w :
  table_name ∉ tables ->
  migrate_table fromisoformat sqlite_db fuel table_name transform_func w
  = (Some (Ok 0%Z),
     World (pg w)
       (trace w ++ [Logged INFO (Migrating_table table_name);
                    Logged WARNING (Unknown_table table_name)])).
Proof.
  intros Hnot. unfold tables in Hnot.
  rewrite !not_elem_of_cons in Hnot.
  destruct Hnot as (H1 & H2 & H3 & H4 & H5 & H6 & H7 & _).
  unfold migrate_table, read_table.
  apply String.eqb_neq in H1, H2, H3, H4, H5, H6, H7.
  rewrite H1, H2, H3, H4, H5, H6, H7.
  unfold mbind, M_bind, try_except, fmap, M_fmap, mbind, M_bind, log, emit,
    mret, M_ret. simpl. by rewrite <- app_assoc.
Qed.

(** X16: when the read of a table raises, [migrate_table] has not
    touched the target: no adapter operation was called, the adapter is
    in the state it was in, and the call returns 0 after logging the
    read error. *)
Theorem read_failure_leaves_target fuel table_name transform_func w e w1 :
  read_table fromisoformat sqlite_db fuel table_name (entered table_name w)
  = (Some (Raise e), w1) ->
  exists δ,
    migrate_table fromisoformat sqlite_db fuel table_name transform_func w
    = (Some (Ok 0%Z),
       World (pg w) (trace w ++ δ ++ [Logged ERROR (Error_reading table_name e)]))
    /\ pg_calls δ = [].
Proof.
  intros Hread.
  destruct (reads_only_read_table fuel table_name (entered table_name w))
    as (Hpg & δ & Ht & Hc).
  rewrite Hread in Hpg, Ht. simpl in Hpg, Ht.
  exists (Logged INFO (Migrating_table table_name) :: δ). split; [|done].
  rewrite (migrate_table_read_raises _ _ _ _ _ _ _ _ Hread), Hpg, Ht.
  simpl. by rewrite <- !app_assoc.
Qed.

End ReadsOnly.

(** *** Whole transfers *)

Section Transfers.
Context {A : Type} `{!DatabaseAdapter A}.
Variable fromisoformat : string -> result Z.
Variable sqlite_db : SQLiteDatabase.

Implicit Types (w : world (A:=A)).

Lemma migrate_table_written fuel table_name transform_func w w1 rows n w2 :
  read_table fromisoformat sqlite_db fuel table_name (entered table_name w)
  = (Some (Ok (Some rows)), w1) ->
  write_table table_name transform_func rows w1 = (Some (Ok n), w2) ->
  migrate_table fromisoformat sqlite_db fuel table_name transform_func w
  = (Some (Ok n), w2).
Proof.
  intros Hread Hwrite. unfold migrate_table, mbind, M_bind, try_except, fmap,
    M_fmap, mbind, M_bind, log, emit. simpl. fold (entered table_name w).
  rewrite Hread. simpl. rewrite Hwrite. reflexivity.
Qed.

Lemma metadata_row_written (kv : string * value) :
  write_row (A:=A) "metadata" ({[ "key" := VStr kv.1; "value" := kv.2 ]} : row)
  = pg_do (SetMetadata (VStr kv.1) kv.2).
Proof.
  set (r := ({[ "key" := VStr kv.1; "value" := kv.2 ]} : row)).
  change (write_row (A:=A) "metadata" r)
    with (key ← lift (getitem r "key");
          val ← lift (getitem r "value");
          pg_do (SetMetadata key val) : M (A:=A) unit).
  assert (getitem r "key" = Ok (VStr kv.1)) as ->
    by (unfold getitem, r; by simplify_map_eq).
  assert (getitem r "value" = Ok kv.2) as ->
    by (unfold getitem, r; by simplify_map_eq).
  reflexivity.
Qed.

(** *** The verification report *)

Lemma sum_message_counts_reads chats ids counts acc w :
  Forall2 (fun (chat : row) id => chat !! "id" = Some id) chats ids ->
  Forall2 (fun id n => get_message_count sqlite_db id = Ok n) ids counts ->
  sum_message_counts sqlite_db chats acc w
  = (Some (Ok (fold_left Z.add counts acc)),
     World (pg w)
       (trace w ++ ((fun id => DbRead (GetMessageCount id)) <$> ids))).
Proof.
  intros Hids. revert counts acc w.
  induction Hids as [|chat id chats ids Hid _ IH]; intros counts acc w Hcounts.
  - apply Forall2_nil_inv_l in Hcounts as ->. simpl. destruct w.
    by rewrite app_nil_r.
  - apply Forall2_cons_inv_l in Hcounts as (n & counts' & Hn & Hcounts & ->).
    simpl.
    rewrite (bind_ok _ _ _ id w) by (apply lift_ok; unfold getitem; by rewrite Hid).
    rewrite (bind_ok _ _ _ _ _ (db_do_ok _ _ _ _ Hn)).
    rewrite (IH counts' (acc + n)%Z _ Hcounts). simpl. by rewrite <- app_assoc.
Qed.

(** X10: what a verification does, in order: it lists the chats twice,
    asks the message count of every chat, asks the adapter for its
    statistics once, then logs one line for the chats and one for the
    messages (a mismatch on the chats does not stop the comparison of the
    messages), and a last line that agrees with the value returned:
    success exactly when both counts match. *)
Theorem verify_migration_report chats ids counts (pg_stats : stats) a w :
  get_all_chats sqlite_db None = Ok chats ->
  Forall2 (fun (chat : row) id => chat !! "id" = Some id) chats ids ->
  Forall2 (fun id n => get_message_count sqlite_db id = Ok n) ids counts ->
  get_stats (pg w) = (Ok pg_stats, a) ->
  let line key (n : Z) :=
    let m := default 0%Z (pg_stats !! key) in
    if bool_decide (n = m) then Logged INFO (Count_ok key n)
    else Logged ERROR (Count_mismatch key n m) in
  let verdict :=
    bool_decide (Z.of_nat (length chats) = default 0%Z (pg_stats !! "chats")
                 /\ fold_left Z.add counts 0%Z
                    = default 0%Z (pg_stats !! "messages")) in
  verify_migration sqlite_db w
    = (Some (Ok verdict),
       World a
         (trace w
          ++ [Logged INFO Verifying_migration;
              DbRead (GetAllChats None); DbRead (GetAllChats None)]
          ++ ((fun id => DbRead (GetMessageCount id)) <$> ids)
          ++ [PgGetStats;
              line "chats" (Z.of_nat (length chats));
              line "messages" (fold_left Z.add counts 0%Z);
              if verdict then Logged INFO Verification_successful
              else Logged ERROR Verification_failed])).
Proof.
  intros Hchats Hids Hcounts Hstats line verdict.
  unfold verify_migration.
  rewrite (bind_ok _ _ _ _ _ (log_ok _ _ _)).
  rewrite (bind_ok _ _ _ _ _ (db_do_ok _ _ _ _ Hchats)).
  rewrite (bind_ok _ _ _ _ _ (db_do_ok _ _ _ _ Hchats)).
  rewrite (bind_ok _ _ _ _ _ (sum_message_counts_reads _ _ _ _ _ Hids Hcounts)).
  unfold mbind at 1, M_bind, pg_get_stats. cbn [pg trace]. rewrite Hstats.
  unfold line, verdict, compare_counts.
  destruct (decide (Z.of_nat (length chats) = default 0%Z (pg_stats !! "chats")))
    as [E1|E1];
    destruct (decide (fold_left Z.add counts 0%Z
                      = default 0%Z (pg_stats !! "messages"))) as [E2|E2];
    rewrite ?(bool_decide_eq_true_2 _ E1), ?(bool_decide_eq_false_2 _ E1),
      ?(bool_decide_eq_true_2 _ E2), ?(bool_decide_eq_false_2 _ E2),
      ?(bool_decide_eq_false_2 (_ ≠ _) (λ H, H E1)),
      ?(bool_decide_eq_false_2 (_ ≠ _) (λ H, H E2)),
      ?(bool_decide_eq_true_2 (_ ≠ _) E1), ?(bool_decide_eq_true_2 (_ ≠ _) E2);
    first [ rewrite (bool_decide_eq_true_2 (_ /\ _)) by done
          | rewrite (bool_decide_eq_false_2 (_ /\ _)) by tauto ];
    unfold mbind, M_bind, log, emit, mret, M_ret; cbn [pg trace];
    rewrite <- !app_assoc; reflexivity.
Qed.

End Transfers.

(** *** One malformed date *)

Section Malformed.
Context {A : Type} `{!DatabaseAdapter A}.
Variable fromisoformat : string -> result Z.
Variable sqlite_db : SQLiteDatabase.
Variable stored : value -> list row.
Hypothesis served : paginated sqlite_db stored.

Implicit Types (w : world (A:=A)).

(** A message one of whose dates is a non-empty string that
    [fromisoformat] rejects. *)
Lemma convert_message_malformed (msg : row) k s e :
  k = "date" \/ k = "edit_date" ->
  msg !! k = Some (VStr s) -> s ≠ "" -> fromisoformat s = Raise e ->
  exists e', convert_message fromisoformat msg = Raise e'.
Proof.
  intros Hk Hs Hne Hraise.
  assert (_convert_dict msg !! k = Some (VStr s)) as Hd.
  { rewrite (convert_dict_string _ _ _ Hs).
    by destruct (String.eqb_spec s ""). }
  unfold convert_message, mbind, result_bind.
  destruct (convert_date fromisoformat "date" (_convert_dict msg))
    as [d1|e1] eqn:H1; [|by exists e1].
  destruct Hk as [-> | ->].
  - rewrite convert_date_cases, Hd in H1.
    destruct (String.eqb_spec s ""); [done|].
    unfold mbind, result_bind in H1. by rewrite Hraise in H1.
  - apply convert_date_ok in H1 as (_ & Hrest & _).
    exists e. rewrite convert_date_cases, Hrest, Hd by done.
    destruct (String.eqb_spec s ""); [done|].
    unfold mbind, result_bind. by rewrite Hraise.
Qed.

Lemma append_messages_raises messages all_messages :
  Exists (fun msg => exists e, convert_message fromisoformat msg = Raise e)
    messages ->
  exists e, append_messages fromisoformat messages all_messages = Raise e.
Proof.
  revert all_messages. induction messages as [|msg rest IH]; intros acc Hbad.
  - by apply Exists_nil in Hbad.
  - simpl. unfold mbind, result_bind.
    destruct (convert_message fromisoformat msg) as [out|e] eqn:Hmsg;
      [|by exists e].
    apply Exists_cons in Hbad as [[e He]|Hrest]; [congruence|]. by apply IH.
Qed.

Lemma page_loop_raises fuel chat_id k all_messages w :
  length (stored chat_id) < (k + fuel) * batch_size ->
  Exists (fun msg => exists e, convert_message fromisoformat msg = Raise e)
    (drop (k * batch_size) (stored chat_id)) ->
  exists e w',
    page_loop fromisoformat sqlite_db fuel chat_id (k * batch_size) all_messages w
    = (Some (Raise e), w').
Proof.
  pose proof batch_size_pos as Hpos.
  revert k all_messages w.
  induction fuel as [|fuel IH]; intros k acc w Hhi Hbad.
  - rewrite drop_ge in Hbad by lia. by apply Exists_nil in Hbad.
  - rewrite page_loop_S.
    destruct (get_messages sqlite_db chat_id batch_size (k * batch_size))
      as [page|e] eqn:Hpage.
    2:{ eexists _, _. apply bind_raise. unfold db_do. reflexivity. }
    rewrite (bind_ok _ _ _ _ _ (db_do_ok _ (Ok page) _ _ eq_refl)).
    apply served in Hpage.
    pose proof (take_drop batch_size (drop (k * batch_size) (stored chat_id)))
      as Hsplit.
    rewrite drop_drop, <- Hpage in Hsplit. rewrite <- Hsplit in Hbad.
    destruct page as [|m ms].
    { symmetry in Hpage. apply take_nil_inv in Hpage as [Hz|Hnil]; [lia|].
      simpl in Hsplit, Hbad. rewrite Hsplit, Hnil in Hbad.
      by apply Exists_nil in Hbad. }
    destruct (append_messages fromisoformat (m :: ms) acc) as [acc'|e] eqn:Happ.
    2:{ eexists _, _. by apply bind_raise. }
    rewrite (bind_ok _ _ _ _ _ (lift_ok (Ok acc') _ _ eq_refl)).
    apply Exists_app in Hbad as [Hhere|Hlater].
    { destruct (append_messages_raises _ acc Hhere) as [e He]. congruence. }
    destruct (length (m :: ms) <? batch_size) eqn:Hlt.
    + apply Nat.ltb_lt in Hlt.
      rewrite Hpage, length_take, length_drop in Hlt.
      rewrite drop_ge in Hlater by lia. by apply Exists_nil in Hlater.
    + replace (k * batch_size + batch_size) with (S k * batch_size) in * by lia.
      apply IH; [lia | done].
Qed.

Variable fuel : nat.
Hypothesis enough : forall chat_id, length (stored chat_id) < fuel * batch_size.

Lemma page_chats_raises chats all_messages w :
  Exists (fun chat : row =>
            exists id, chat !! "id" = Some id
              /\ Exists (fun msg => exists e,
                           convert_message fromisoformat msg = Raise e)
                   (stored id)) chats ->
  exists e w',
    page_chats fromisoformat sqlite_db fuel chats all_messages w
    = (Some (Raise e), w').
Proof.
  revert all_messages w. induction chats as [|chat rest IH]; intros acc w Hbad.
  - by apply Exists_nil in Hbad.
  - simpl. destruct (chat !! "id") as [id|] eqn:Hid.
    2:{ eexists _, _. apply bind_raise. unfold lift, getitem. by rewrite Hid. }
    rewrite (bind_ok _ _ _ id w) by (apply lift_ok; unfold getitem; by rewrite Hid).
    pose proof (total_page_loop fromisoformat sqlite_db stored served fuel id 0 acc
                  ltac:(lia) ltac:(apply enough) w) as Htot.
    destruct (page_loop fromisoformat sqlite_db fuel id 0 acc w)
      as [[[acc'|e]|] w1] eqn:Hloop; [| |done].
    2:{ eexists _, _. by apply bind_raise. }
    rewrite (bind_ok _ _ _ _ _ Hloop).
    apply Exists_cons in Hbad as [(id' & Hid' & Hhere)|Hlater]; [|by apply IH].
    rewrite Hid in Hid'. injection Hid' as <-.
    destruct (page_loop_raises fuel id 0 acc w) as (e & w' & He);
      [apply enough | by rewrite drop_0 |].
    change (0 * batch_size) with 0 in He. congruence.
Qed.

(** X17: the messages are transferred all or not at all.  When one
    stored message of one listed chat has a date ([date] or [edit_date])
    that is a non-empty string [fromisoformat] rejects, the read of the
    messages table raises, [migrate_table] returns 0 and no message of
    any chat reaches the adapter: no adapter operation is called. *)
Theorem malformed_date_loses_all_messages chats transform_func w
    (chat msg : row) id k s e :
  get_all_chats sqlite_db None = Ok chats ->
  chat ∈ chats -> chat !! "id" = Some id -> msg ∈ stored id ->
  k = "date" \/ k = "edit_date" ->
  msg !! k = Some (VStr s) -> s ≠ "" -> fromisoformat s = Raise e ->
  exists e' δ,
    migrate_table fromisoformat sqlite_db fuel "messages" transform_func w
    = (Some (Ok 0%Z),
       World (pg w)
         (trace w ++ δ ++ [Logged ERROR (Error_reading "messages" e')]))
    /\ pg_calls δ = [].
Proof.
  intros Hchats Hchat Hid Hmsg Hk Hs Hne Hraise.
  assert (exists e' w1,
            read_table fromisoformat sqlite_db fuel "messages"
              (entered "messages" w) = (Some (Raise e'), w1))
    as (e' & w1 & Hread).
  { change (read_table fromisoformat sqlite_db fuel "messages")
      with (Some <$> _get_messages fromisoformat sqlite_db fuel : M (A:=A) _).
    edestruct (page_chats_raises chats []) as (e' & w1 & Hp).
    { apply Exists_exists. exists chat. split; [done|]. exists id.
      split; [done|]. apply Exists_exists. exists msg. split; [done|].
      by eapply convert_message_malformed. }
    exists e', w1. unfold fmap, M_fmap. apply bind_raise. unfold _get_messages.
    rewrite (bind_ok _ _ _ _ _ (db_do_ok _ _ _ _ Hchats)). exact Hp. }
  destruct (reads_only_read_table fromisoformat sqlite_db fuel "messages"
              (entered "messages" w)) as (Hpg & δ & Ht & Hc).
  rewrite Hread in Hpg, Ht. simpl in Hpg, Ht.
  exists e', (Logged INFO (Migrating_table "messages") :: δ). split; [|done].
  rewrite (migrate_table_read_raises _ _ _ _ _ _ _ _ Hread), Hpg, Ht.
  simpl. by rewrite <- !app_assoc.
Qed.

End Malformed.

(** *** The run as a whole *)

Section MainMore.
Context {A : Type} `{!DatabaseAdapter A}.
Variable fromisoformat : string -> result Z.

Implicit Types (env : Env (A:=A)) (w : world (A:=A)).

Lemma prepare_ready env path backup_path pg_config tr :
  prepare env = (inr (path, backup_path, pg_config), tr) ->
  let config := new_Config env in
  env_password_set env = true
  /\ attr config "database_path" = Ok path
  /\ path_exists env path = Ok true
  /\ backup_of path = Ok backup_path
  /\ copy2 env path backup_path = Ok tt
  /\ pg_config
     = {[ "host" := getattr config "postgres_host" (VStr "localhost");
          "port" := getattr config "postgres_port" (VInt 5432);
          "database" := getattr config "postgres_db" (VStr "telegram_backup");
          "user" := getattr config "postgres_user" (VStr "postgres");
          "password" := getattr config "postgres_password" (VStr "") ]}
  /\ pg_calls tr = [].
Proof.
  unfold prepare, mbind, result_bind, mret, result_ret.
  destruct (env_password_set env); [|done]. simpl negb. cbv beta iota.
  destruct (attr _ _) as [path'|e] eqn:Ha; [|done].
  destruct (path_exists env path') as [[|]|e] eqn:He; [|done|done].
  cbv beta iota.
  destruct (backup_of path') as [backup_path'|e] eqn:Hb; [|done].
  destruct (copy2 env path' backup_path') as [[]|e] eqn:Hc; [|done].
  intros [= <- <- <- <-]. done.
Qed.

Lemma prepare_early env r tr :
  prepare env = (inl r, tr) -> pg_calls tr = [].
Proof.
  unfold prepare, mbind, result_bind, mret, result_ret.
  destruct (negb _); [by intros [= <- <-]|].
  destruct (attr _ _) as [path|e]; [|by intros [= <- <-]].
  destruct (path_exists env path) as [[|]|e];
    [|by intros [= <- <-]|by intros [= <- <-]].
  cbv beta iota.
  destruct (backup_of path) as [backup_path|e]; [|by intros [= <- <-]].
  destruct (copy2 env path backup_path) as [[]|e]; [done|by intros [= <- <-]].
Qed.



Lemma teardown_cases sqlite_db w :
  exists a,
    perform Close (pg w) = ((perform Close (pg w)).1, a)
    /\ teardown sqlite_db w
       = match (perform Close (pg w)).1 with
         | Ok _ => (Some (db_close sqlite_db),
                    World a (trace w ++ [PgCall Close; DbRead DbClose]))
         | Raise e => (Some (Raise e), World a (trace w ++ [PgCall Close]))
         end.
Proof.
  unfold teardown, mbind, M_bind, pg_do, db_do.
  destruct (perform Close (pg w)) as [[[]|e] a]; exists a; simpl;
    by rewrite <- ?app_assoc.
Qed.


Lemma new_DataMigrator_failed env path pg_config tr e tr' :
  new_DataMigrator env path pg_config tr = (Raise e, tr') ->
  tr' = tr \/ tr' = tr ++ [PgCall InitializeSchema].
Proof.
  unfold new_DataMigrator.
  destruct (_ ≫= _) as [[sqlite_db a]|e']; [|intros [= _ <-]; by left].
  destruct (perform InitializeSchema a) as [[[]|e'] a']; [done|].
  intros [= _ <-]. by right.
Qed.

(** X12: the [finally] block closes what the migrator holds, and only
    that.  When the migrator was built, a run that ends does so by
    closing the adapter and then the legacy store, the store being
    skipped exactly when the adapter's [close] raised.  When it was not
    built, nothing is closed: the only adapter operation that can have
    been called is [initialize_schema], on an adapter that the
    constructor connected and that is then left open. *)
Theorem main_closes_what_it_built env fuel :
  match target (main fromisoformat env fuel) with
  | Some _ =>
      status (main fromisoformat env fuel) ≠ None ->
      exists tr,
        events (main fromisoformat env fuel)
        = tr ++ [PgCall Close; DbRead DbClose]
        \/ (events (main fromisoformat env fuel) = tr ++ [PgCall Close]
            /\ exists e, status (main fromisoformat env fuel) = Some (Raise e))
  | None =>
      pg_calls (events (main fromisoformat env fuel)) = []
      \/ pg_calls (events (main fromisoformat env fuel)) = [InitializeSchema]
  end.
Proof.
  unfold main.
  destruct (prepare env) as [[r|[[path backup_path] pg_config]] tr] eqn:Hp.
  - apply prepare_early in Hp. destruct r; simpl; auto.
  - apply prepare_ready in Hp as (_ & _ & _ & _ & _ & _ & Hquiet).
    destruct (new_DataMigrator env path pg_config tr)
      as [[[sqlite_db a]|e] tr'] eqn:Hn.
    + destruct (try_except _ _ _) as [[r|] w]; [|simpl; by intros []].
      destruct (teardown_cases sqlite_db w) as (a' & _ & ->).
      destruct (perform Close (pg w)).1 as [[]|e]; simpl; intros _;
        exists (trace w); eauto.
    + apply new_DataMigrator_failed in Hn as [-> | ->]; simpl;
        rewrite !pg_calls_app, Hquiet; simpl; auto.
Qed.

End MainMore.

End MigratorMore.

(** ** Further runs *)

Module MoreRuns.
Import Adapter Migrator Reference Examples Factory.
Import FactoryFacts MigratorFacts FactoryMore MigratorMore.

(** "Postgres-Alchemy" counts as an SQLAlchemy backend, and "MySQL",
    which does not, is refused by the factory. *)
Lemma is_sqlalchemy_adapter_agrees_witness :
  is_sqlalchemy_adapter "Postgres-Alchemy" = true
  /\ exists msg,
      create_database_adapter {[ "db_type" := VStr "MySQL" ]}
      = Raise (ValueError msg).
Proof.
  destruct (is_sqlalchemy_adapter_agrees
              {[ "db_type" := VStr "Postgres-Alchemy" ]} "Postgres-Alchemy")
    as (Hiff & _); [vm_compute; reflexivity|].
  destruct (is_sqlalchemy_adapter_agrees {[ "db_type" := VStr "MySQL" ]} "MySQL")
    as (_ & _ & Hfalse & _); [vm_compute; reflexivity|].
  split.
  - apply Hiff. right. left.
  - apply Hfalse. vm_compute. reflexivity.
Defined.

Lemma malformed_db_paginated : paginated malformed_db malformed_stored.
Proof. intros chat_id limit offset rows. simpl. by intros [= <-]. Qed.

Lemma malformed_stored_short chat_id :
  length (malformed_stored chat_id) < 1 * batch_size.
Proof. unfold malformed_stored, batch_size. case_decide; simpl; lia. Qed.

(** The chats table of the migration test: one row read, one written. *)
Lemma migrate_table_counts_rows_witness :
  (migrate_table test_fromisoformat test_db 1 "chats" None test_world).1
  = Some (Ok 1%Z)
  /\ (1%Z = 0%Z
      \/ exists rows w1 w2,
          read_table test_fromisoformat test_db 1 "chats"
            (entered "chats" test_world) = (Some (Ok (Some rows)), w1)
          /\ write_table "chats" None rows w1 = (Some (Ok 1%Z), w2)
          /\ 1%Z = Z.of_nat (length rows)).
Proof.
  assert ((migrate_table test_fromisoformat test_db 1 "chats" None test_world).1
          = Some (Ok 1%Z)) as H by (vm_compute; reflexivity).
  split; [exact H|].
  exact (migrate_table_counts_rows test_fromisoformat test_db 1 "chats" None
           test_world 1%Z H).
Defined.

(** The message of the migration test under a [transform_func] that
    rewrites its text: the adapter receives the message as it was read. *)
Lemma messages_written_in_one_batch_witness :
  trace (write_table "messages" (Some redact) [test_message] test_world).2
  = [ PgCall (InsertMessages [test_message]);
      Logged INFO (Migrated 1 "messages") ].
Proof.
  etransitivity.
  - apply (f_equal (fun x => trace x.2)).
    apply (messages_written_in_one_batch (Some redact) [test_message] test_world).
    intros r f _ [= <-]. by eexists.
  - vm_compute. reflexivity.
Defined.

(** The verification of the migration test, on the migrated target and
    on an empty one. *)
Lemma verify_migration_report_witness :
  trace (verify_migration test_db migrated_world).2
  = [ Logged INFO Verifying_migration;
      DbRead (GetAllChats None); DbRead (GetAllChats None);
      DbRead (GetMessageCount (VInt 123));
      PgGetStats;
      Logged INFO (Count_ok "chats" 1); Logged INFO (Count_ok "messages" 1);
      Logged INFO Verification_successful ]
  /\ trace (verify_migration test_db test_world).2
     = [ Logged INFO Verifying_migration;
         DbRead (GetAllChats None); DbRead (GetAllChats None);
         DbRead (GetMessageCount (VInt 123));
         PgGetStats;
         Logged ERROR (Count_mismatch "chats" 1 0);
         Logged ERROR (Count_mismatch "messages" 1 0);
         Logged ERROR Verification_failed ].
Proof.
  split.
  - etransitivity.
    + apply (f_equal (fun x => trace x.2)).
      apply (verify_migration_report test_db [test_chat] [VInt 123] [1%Z]
               {[ "chats" := 1%Z; "messages" := 1%Z; "users" := 1%Z;
                  "media" := 1%Z ]} test_store migrated_world).
      * reflexivity.
      * constructor; [vm_compute; reflexivity | constructor].
      * constructor; [vm_compute; reflexivity | constructor].
      * vm_compute. reflexivity.
    + vm_compute. reflexivity.
  - etransitivity.
    + apply (f_equal (fun x => trace x.2)).
      apply (verify_migration_report test_db [test_chat] [VInt 123] [1%Z]
               {[ "chats" := 0%Z; "messages" := 0%Z; "users" := 0%Z;
                  "media" := 0%Z ]} Reference.empty test_world).
      * reflexivity.
      * constructor; [vm_compute; reflexivity | constructor].
      * constructor; [vm_compute; reflexivity | constructor].
      * vm_compute. reflexivity.
    + vm_compute. reflexivity.
Defined.


(** A table the migrator does not know. *)
Lemma migrate_table_unknown_witness :
  migrate_table test_fromisoformat test_db 1 "stickers" None test_world
  = (Some (Ok 0%Z),
     World Reference.empty
       [ Logged INFO (Migrating_table "stickers");
         Logged WARNING (Unknown_table "stickers") ]).
Proof.
  apply (migrate_table_unknown test_fromisoformat test_db 1 "stickers" None
           test_world).
  unfold tables. intros Hin.
  repeat (apply elem_of_cons in Hin as [Hin|Hin]; [discriminate Hin|]).
  by apply elem_of_nil in Hin.
Defined.

(** The store of the migration test has no users table. *)
Lemma read_failure_leaves_target_witness :
  exists δ,
    migrate_table test_fromisoformat test_db 1 "users" None test_world
    = (Some (Ok 0%Z),
       World Reference.empty
         ([] ++ δ ++ [Logged ERROR (Error_reading "users"
                                      (DatabaseError "no such table: users"))]))
    /\ pg_calls δ = [].
Proof.
  apply (read_failure_leaves_target test_fromisoformat test_db 1 "users" None
           test_world (DatabaseError "no such table: users")
           (World Reference.empty
              [Logged INFO (Migrating_table "users"); DbRead (SelectAll "users")])).
  vm_compute. reflexivity.
Defined.

(** One message dated "yesterday" beside the message of the migration
    test: no message is transferred. *)
Lemma malformed_date_loses_all_messages_witness :
  exists e' δ,
    migrate_table strict_fromisoformat malformed_db 1 "messages" None test_world
    = (Some (Ok 0%Z),
       World Reference.empty
         ([] ++ δ ++ [Logged ERROR (Error_reading "messages" e')]))
    /\ pg_calls δ = [].
Proof.
  apply (malformed_date_loses_all_messages strict_fromisoformat malformed_db
           malformed_stored malformed_db_paginated 1 malformed_stored_short
           [test_chat] None test_world test_chat malformed_message (VInt 123)
           "date" "yesterday"
           (ValueError "Invalid isoformat string: yesterday")).
  - reflexivity.
  - by left.
  - vm_compute. reflexivity.
  - right. by left.
  - by left.
  - vm_compute. reflexivity.
  - discriminate.
  - vm_compute. reflexivity.
Defined.

End MoreRuns.

(** ** Whole transfers, call by call *)

Module TransferFacts.
Import Adapter Migrator MigratorFacts MigratorMore.

Section Calls.
Context {A : Type} `{!DatabaseAdapter A}.

Implicit Types (w : world (A:=A)) (a : A) (cs : list adapter_call).

Lemma perform_all_prefix cs a : (perform_all cs a).1.1 `prefix_of` cs.
Proof.
  revert a. induction cs as [|c cs IH]; intros a; simpl; [done|].
  destruct (perform c a) as [[[]|e] a'].
  - specialize (IH a'). destruct (perform_all cs a') as [[made e] a''].
    by apply prefix_cons.
  - apply prefix_cons, prefix_nil.
Qed.

Lemma perform_all_complete cs a :
  (perform_all cs a).1.2 = None -> (perform_all cs a).1.1 = cs.
Proof.
  revert a. induction cs as [|c cs IH]; intros a; simpl; [done|].
  destruct (perform c a) as [[[]|e] a']; [|done].
  specialize (IH a'). destruct (perform_all cs a') as [[made e] a''].
  simpl in *. intros He. by rewrite IH.
Qed.

Lemma perform_all_app cs1 cs2 a :
  (perform_all cs1 a).1.2 = None ->
  perform_all (cs1 ++ cs2) a
  = (cs1 ++ (perform_all cs2 (perform_all cs1 a).2).1.1,
     (perform_all cs2 (perform_all cs1 a).2).1.2,
     (perform_all cs2 (perform_all cs1 a).2).2).
Proof.
  revert a. induction cs1 as [|c cs1 IH]; intros a; simpl.
  - intros _. by destruct (perform_all cs2 a) as [[made e] a'].
  - destruct (perform c a) as [[[]|e] a']; [|done].
    specialize (IH a'). destruct (perform_all cs1 a') as [[made e] a''].
    simpl in *. intros He. by rewrite (IH He).
Qed.

Lemma perform_all_app_inv cs1 cs2 a :
  (perform_all (cs1 ++ cs2) a).1.2 = None ->
  (perform_all cs1 a).1.2 = None
  /\ (perform_all cs2 (perform_all cs1 a).2).1.2 = None.
Proof.
  revert a. induction cs1 as [|c cs1 IH]; intros a; simpl; [done|].
  destruct (perform c a) as [[[]|e] a']; [|done].
  specialize (IH a').
  destruct (perform_all (cs1 ++ cs2) a') as [[made e] a''].
  destruct (perform_all cs1 a') as [[made1 e1] a1]. simpl in *. exact IH.
Qed.

Variable fromisoformat : string -> result Z.
Variable sqlite_db : SQLiteDatabase.

(** The write phase of a table whose rows go to the adapter one by
    one. *)
Lemma write_rows_exact table_name (mk : row -> adapter_call) rows count w :
  Forall (fun r => write_row (A:=A) table_name r = pg_do (mk r)) rows ->
  write_rows table_name None rows count w
  = match perform_all (mk <$> rows) (pg w) with
    | (made, None, a) =>
        (Some (Ok (count + Z.of_nat (length rows))%Z),
         World a (trace w ++ (PgCall <$> made)))
    | (made, Some e, a) =>
        (Some (Raise e), World a (trace w ++ (PgCall <$> made)))
    end.
Proof.
  intros Hrows. revert count w.
  induction Hrows as [|r rest Hr _ IH]; intros count w.
  - simpl. destruct w. by rewrite app_nil_r, Z.add_0_r.
  - assert (write_rows table_name None (r :: rest) count w
            = match perform (mk r) (pg w) with
              | (Ok _, a) =>
                  write_rows table_name None rest (count + 1)%Z
                    (World a (trace w ++ [PgCall (mk r)]))
              | (Raise e, a) =>
                  (Some (Raise e), World a (trace w ++ [PgCall (mk r)]))
              end) as ->.
    { simpl. unfold mbind at 1, M_bind, lift, mret at 1, result_ret.
      cbv beta iota. rewrite Hr. unfold mbind at 1, M_bind, pg_do.
      by destruct (perform (mk r) (pg w)) as [[[]|e] a]. }
    change (mk <$> r :: rest) with (mk r :: (mk <$> rest)).
    cbn [perform_all]. destruct (perform (mk r) (pg w)) as [[[]|e] a]; [|done].
    rewrite IH. cbn [pg trace].
    destruct (perform_all (mk <$> rest) a) as [[made [e|]] a'];
      rewrite <- app_assoc; [done|].
    do 3 f_equal. simpl length. lia.
Qed.

Lemma write_table_exact table_name (mk : row -> adapter_call) rows w :
  String.eqb table_name "messages" = false ->
  Forall (fun r => write_row (A:=A) table_name r = pg_do (mk r)) rows ->
  write_table table_name None rows w
  = match perform_all (mk <$> rows) (pg w) with
    | (made, None, a) =>
        (Some (Ok (Z.of_nat (length rows))),
         World a (trace w ++ (PgCall <$> made)
                  ++ [Logged INFO (Migrated (Z.of_nat (length rows)) table_name)]))
    | (made, Some e, a) =>
        (Some (Raise e), World a (trace w ++ (PgCall <$> made)))
    end.
Proof.
  intros Hne Hrows. unfold write_table.
  pose proof (write_rows_exact table_name mk rows 0%Z w Hrows) as Hw.
  destruct (perform_all (mk <$> rows) (pg w)) as [[made [e|]] a].
  - by rewrite (bind_raise _ _ _ _ _ Hw).
  - rewrite (bind_ok _ _ _ _ _ Hw), Hne. simpl.
    unfold mbind, M_bind, mret, M_ret, log, emit. simpl.
    by rewrite <- app_assoc.
Qed.

(** The adapter calls for a list of messages: one batch, none when the
    list is empty. *)
Lemma write_messages_exact rows w :
  write_table "messages" None rows w
  = match perform_all (match rows with
                       | [] => []
                       | _ => [InsertMessages rows]
                       end) (pg w) with
    | (made, None, a) =>
        (Some (Ok (Z.of_nat (length rows))),
         World a (trace w ++ (PgCall <$> made)
                  ++ [Logged INFO (Migrated (Z.of_nat (length rows)) "messages")]))
    | (made, Some e, a) =>
        (Some (Raise e), World a (trace w ++ (PgCall <$> made)))
    end.
Proof.
  unfold write_table.
  rewrite (bind_ok _ _ _ _ _ (write_rows_messages None rows 0 w ltac:(done))).
  destruct rows as [|r rest]; [reflexivity|].
  change (String.eqb "messages" "messages" && negb (bool_decide (r :: rest = [])))
    with true. cbv beta iota. cbn [perform_all].
  unfold mbind, M_bind, pg_do, log, emit.
  destruct (perform (InsertMessages (r :: rest)) (pg w)) as [[[]|e] a]; simpl;
    [|done].
  by rewrite <- app_assoc.
Qed.

(** The whole of [migrate_table] once its read returned rows, by the
    outcome of the adapter calls. *)
Lemma migrate_table_exact fuel table_name rows calls w w1 :
  read_table fromisoformat sqlite_db fuel table_name (entered table_name w)
  = (Some (Ok (Some rows)), w1) ->
  write_table table_name None rows w1
  = match perform_all calls (pg w1) with
    | (made, None, a) =>
        (Some (Ok (Z.of_nat (length rows))),
         World a (trace w1 ++ (PgCall <$> made)
                  ++ [Logged INFO (Migrated (Z.of_nat (length rows)) table_name)]))
    | (made, Some e, a) =>
        (Some (Raise e), World a (trace w1 ++ (PgCall <$> made)))
    end ->
  migrate_table fromisoformat sqlite_db fuel table_name None w
  = match perform_all calls (pg w1) with
    | (made, None, a) =>
        (Some (Ok (Z.of_nat (length rows))),
         World a (trace w1 ++ (PgCall <$> made)
                  ++ [Logged INFO (Migrated (Z.of_nat (length rows)) table_name)]))
    | (made, Some e, a) =>
        (Some (Ok 0%Z),
         World a (trace w1 ++ (PgCall <$> made)
                  ++ [Logged ERROR (Error_migrating table_name e)]))
    end.
Proof.
  intros Hread Hwrite.
  destruct (perform_all calls (pg w1)) as [[made [e|]] a].
  - rewrite (migrate_table_write_raises _ _ _ _ _ _ _ _ _ _ Hread Hwrite).
    simpl. by rewrite <- app_assoc.
  - by rewrite (migrate_table_written _ _ _ _ _ _ _ _ _ _ Hread Hwrite).
Qed.

(** *** The metadata table *)

Lemma read_metadata fuel pairs w :
  get_metadata sqlite_db = Ok pairs ->
  read_table fromisoformat sqlite_db fuel "metadata" (entered "metadata" w)
  = (Some (Ok (Some ((fun kv => {[ "key" := VStr kv.1; "value" := kv.2 ]} : row)
                       <$> pairs))),
     World (pg w)
       (trace w ++ [Logged INFO (Migrating_table "metadata"); DbRead GetMetadata])).
Proof.
  intros Hmeta.
  assert (_get_metadata sqlite_db (entered "metadata" w)
          = (Some (Ok ((fun kv => {[ "key" := VStr kv.1; "value" := kv.2 ]} : row)
                         <$> pairs)),
             World (pg w)
               (trace w ++ [Logged INFO (Migrating_table "metadata");
                            DbRead GetMetadata]))) as Hget.
  { unfold _get_metadata.
    rewrite (bind_ok _ _ _ _ _ (db_do_ok _ _ _ _ Hmeta)).
    unfold entered, mret, M_ret. cbn [pg trace]. by rewrite <- app_assoc. }
  change (read_table fromisoformat sqlite_db fuel "metadata")
    with (Some <$> _get_metadata sqlite_db : M (A:=A) _).
  unfold fmap, M_fmap. by rewrite (bind_ok _ _ _ _ _ Hget).
Qed.

Lemma migrate_metadata_exact fuel pairs w :
  get_metadata sqlite_db = Ok pairs ->
  migrate_table fromisoformat sqlite_db fuel "metadata" None w
  = match perform_all ((fun kv => SetMetadata (VStr kv.1) kv.2) <$> pairs)
            (pg w) with
    | (made, None, a) =>
        (Some (Ok (Z.of_nat (length pairs))),
         World a
           (trace w
            ++ [Logged INFO (Migrating_table "metadata"); DbRead GetMetadata]
            ++ (PgCall <$> made)
            ++ [Logged INFO (Migrated (Z.of_nat (length pairs)) "metadata")]))
    | (made, Some e, a) =>
        (Some (Ok 0%Z),
         World a
           (trace w
            ++ [Logged INFO (Migrating_table "metadata"); DbRead GetMetadata]
            ++ (PgCall <$> made)
            ++ [Logged ERROR (Error_migrating "metadata" e)]))
    end.
Proof.
  intros Hmeta.
  set (mkrow := fun kv : string * value =>
                  ({[ "key" := VStr kv.1; "value" := kv.2 ]} : row)).
  set (mk := fun r : row => SetMetadata (default VNone (r !! "key"))
                              (default VNone (r !! "value"))).
  assert (mk <$> (mkrow <$> pairs)
          = (fun kv => SetMetadata (VStr kv.1) kv.2) <$> pairs) as Hcalls.
  { rewrite <- list_fmap_compose. apply list_fmap_ext. intros i kv _.
    unfold compose, mk, mkrow. by simplify_map_eq. }
  pose proof (read_metadata fuel pairs w Hmeta) as Hread. fold mkrow in Hread.
  rewrite (migrate_table_exact fuel "metadata" (mkrow <$> pairs)
             (mk <$> (mkrow <$> pairs)) w _ Hread).
  - rewrite Hcalls, length_fmap. cbn [pg trace].
    destruct (perform_all _ (pg w)) as [[made [e|]] a]; by rewrite <- !app_assoc.
  - apply write_table_exact; [reflexivity|].
    apply Forall_fmap, Forall_true. intros kv.
    change (write_row (A:=A) "metadata" (mkrow kv) = pg_do (mk (mkrow kv))).
    unfold mkrow at 1. rewrite metadata_row_written.
    unfold mk, mkrow. by simplify_map_eq.
Qed.

(** X14: [migrate_table("metadata")] transfers the pairs the legacy
    store returns one by one, in their order, the value as stored: the
    adapter receives [set_metadata(key, value)] for each pair up to the
    first call that raises.  When no call raises every pair is written and
    the count returned is their number; when one raises, the pairs after
    it are not written and the count is 0. *)
Theorem metadata_transfer fuel pairs w :
  get_metadata sqlite_db = Ok pairs ->
  let calls := (fun kv => SetMetadata (VStr kv.1) kv.2) <$> pairs in
  migrate_table fromisoformat sqlite_db fuel "metadata" None w
  = match perform_all calls (pg w) with
    | (made, None, a) =>
        (Some (Ok (Z.of_nat (length pairs))),
         World a
           (trace w
            ++ [Logged INFO (Migrating_table "metadata"); DbRead GetMetadata]
            ++ (PgCall <$> made)
            ++ [Logged INFO (Migrated (Z.of_nat (length pairs)) "metadata")]))
    | (made, Some e, a) =>
        (Some (Ok 0%Z),
         World a
           (trace w
            ++ [Logged INFO (Migrating_table "metadata"); DbRead GetMetadata]
            ++ (PgCall <$> made)
            ++ [Logged ERROR (Error_migrating "metadata" e)]))
    end
  /\ (perform_all calls (pg w)).1.1 `prefix_of` calls
  /\ ((perform_all calls (pg w)).1.2 = None ->
      (perform_all calls (pg w)).1.1 = calls).
Proof.
  intros Hmeta calls. split; [by apply migrate_metadata_exact|].
  split; [apply perform_all_prefix | apply perform_all_complete].
Qed.

(** C8: [_convert_dict] maps every value that is the empty string to
    [None], but the metadata table does not go through it.
    [_get_metadata] builds its rows from the key/value pairs without
    [_convert_dict], so a metadata value that is the empty string reaches
    [set_metadata] as the empty string (the calls for the pairs before it
    returning), where [_convert_dict] would have made it [None]. *)
Theorem metadata_bypasses_normalization fuel before key after w :
  get_metadata sqlite_db = Ok (before ++ (key, VStr "") :: after) ->
  (perform_all ((fun kv => SetMetadata (VStr kv.1) kv.2) <$> before) (pg w)).1.2
  = None ->
  (forall (r : row) k,
     r !! k = Some (VStr "") -> _convert_dict r !! k = Some VNone)
  /\ exists δ,
      trace (migrate_table fromisoformat sqlite_db fuel "metadata" None w).2
      = trace w ++ δ
      /\ PgCall (SetMetadata (VStr key) (VStr "")) ∈ δ
      /\ ~ Forall clean_event δ.
Proof.
  intros Hmeta Hbefore. split.
  { intros r k Hk. by rewrite convert_dict_fmap, lookup_fmap, Hk. }
  rewrite (migrate_metadata_exact fuel _ w Hmeta).
  rewrite fmap_app, fmap_cons.
  rewrite (perform_all_app _ _ _ Hbefore).
  set (a1 := (perform_all _ (pg w)).2).
  change (SetMetadata (VStr (key, VStr "").1) (key, VStr "").2)
    with (SetMetadata (VStr key) (VStr "")).
  assert (exists made e a, perform_all
            (SetMetadata (VStr key) (VStr "")
             :: ((fun kv => SetMetadata (VStr kv.1) kv.2) <$> after)) a1
          = (SetMetadata (VStr key) (VStr "") :: made, e, a))
    as (made & e & a & ->).
  { cbn [perform_all]. destruct (perform _ a1) as [[[]|e] a'].
    - destruct (perform_all _ a') as [[made e] a'']. by eexists _, _, _.
    - by eexists [], _, _. }
  cbn [fst snd].
  assert (forall δ, PgCall (SetMetadata (VStr key) (VStr "")) ∈ δ ->
                    ~ Forall clean_event δ) as Hdirty.
  { intros δ Hin Hall. rewrite Forall_forall in Hall.
    destruct (Hall _ Hin) as [_ Hval]. by apply Hval. }
  destruct e as [e|]; eexists; (split; [reflexivity|]);
    (split; [|apply Hdirty]);
    apply elem_of_app; right; apply elem_of_app; left;
    rewrite fmap_app, fmap_cons; apply elem_of_app; right; by left.
Qed.

End Calls.

(** *** The messages, page by page *)

Section Messages.
Context {A : Type} `{!DatabaseAdapter A}.
Variable fromisoformat : string -> result Z.
Variable sqlite_db : SQLiteDatabase.
Variable stored : value -> list row.

(** Every read of a page succeeds and is served by limit and offset. *)
Hypothesis serves : forall chat_id limit offset,
  get_messages sqlite_db chat_id limit offset
  = Ok (take limit (drop offset (stored chat_id))).

Implicit Types (w : world (A:=A)).

(** A message whose dates parse is converted. *)
Lemma convert_message_parses (msg : row) :
  (forall k s, k = "date" \/ k = "edit_date" ->
               msg !! k = Some (VStr s) -> s ≠ "" ->
               exists t, fromisoformat s = Ok t) ->
  exists out, convert_message fromisoformat msg = Ok out.
Proof.
  intros Hparse.
  assert (forall k (d : row), k = "date" \/ k = "edit_date" ->
            d !! k = _convert_dict msg !! k ->
            exists out, convert_date fromisoformat k d = Ok out) as Hdate.
  { intros k d Hk Hd. rewrite convert_date_cases, Hd.
    destruct (msg !! k) as [v|] eqn:Hv.
    - destruct v as [| | |s|];
        try (rewrite convert_dict_other by (intros s; by rewrite Hv);
             rewrite Hv; by eexists).
      rewrite (convert_dict_string _ _ _ Hv).
      destruct (String.eqb_spec s "") as [->|Hne]; [by eexists|].
      destruct (String.eqb_spec s "") as [|_]; [done|].
      destruct (Hparse k s Hk Hv Hne) as [t Ht].
      unfold mbind, result_bind. rewrite Ht. by eexists.
    - rewrite convert_dict_other by (intros s; by rewrite Hv).
      rewrite Hv. by eexists. }
  unfold convert_message, mbind, result_bind.
  destruct (Hdate "date" (_convert_dict msg)) as [d1 H1]; [auto|done|].
  rewrite H1. apply convert_date_ok in H1 as (_ & Hrest & _).
  apply Hdate; [auto|]. by apply Hrest.
Qed.

(** What a converted message holds. *)
Lemma convert_message_holds (msg out : row) :
  convert_message fromisoformat msg = Ok out ->
  dom out = dom msg
  /\ (forall k, k ≠ "date" -> k ≠ "edit_date" ->
         out !! k = (fun v => if decide (v = VStr "") then VNone else v)
                      <$> msg !! k)
  /\ (forall k, k = "date" \/ k = "edit_date" ->
         match msg !! k with
         | Some (VStr s) =>
             if String.eqb s "" then out !! k = Some VNone
             else exists t, fromisoformat s = Ok t /\ out !! k = Some (VDatetime t)
         | other => out !! k = other
         end).
Proof.
  unfold convert_message, mbind, result_bind.
  destruct (convert_date fromisoformat "date" (_convert_dict msg))
    as [d1|e1] eqn:H1; [|done].
  apply convert_date_ok in H1 as (Hdom1 & Hrest1 & Hdate).
  intros H2. apply convert_date_ok in H2 as (Hdom2 & Hrest2 & Hedit).
  split; [|split].
  - rewrite Hdom2, Hdom1, convert_dict_fmap. apply dom_fmap_L.
  - intros k Hk1 Hk2.
    by rewrite Hrest2, Hrest1, convert_dict_fmap, lookup_fmap.
  - intros k [-> | ->].
    + apply (converted_date_value fromisoformat "date" msg (_convert_dict msg));
        [done|].
      rewrite Hrest2 by done. exact Hdate.
    + apply (converted_date_value fromisoformat "edit_date" msg d1);
        [by apply Hrest1|].
      exact Hedit.
Qed.

(** C7: for every chat of the listing, in the order of the listing,
    [_get_messages] asks the legacy store for pages of 1000 rows at the
    offsets 0, 1000, 2000, ... and makes its last request for the chat
    with the first page that comes back with fewer than 1000 rows (an
    empty one included).  What it returns holds every stored message of
    every listed chat, one row each and in order, with the keys of the
    message and its values: a value that is the empty string has become
    [None], a date that is a non-empty string has become the [datetime]
    parsed from it, and every other value is the stored one.  Stated for
    a store that serves pages by limit and offset, a listing whose chats
    carry an id, dates that parse, and fuel for the longest chat. *)
Theorem get_messages_collects_pages fuel chats ids w :
  get_all_chats sqlite_db None = Ok chats ->
  Forall2 (fun (chat : row) id => chat !! "id" = Some id) chats ids ->
  (forall id, id ∈ ids -> length (stored id) < fuel * 1000) ->
  (forall msg k s, msg ∈ concat (stored <$> ids) ->
     k = "date" \/ k = "edit_date" -> msg !! k = Some (VStr s) -> s ≠ "" ->
     exists t, fromisoformat s = Ok t) ->
  exists outs,
    _get_messages fromisoformat sqlite_db fuel w
    = (Some (Ok outs),
       World (pg w)
         (trace w ++ DbRead (GetAllChats None) ::
          concat ((fun id =>
                     (fun k => DbRead (GetMessages id 1000 (k * 1000)))
                       <$> seq 0 (length (stored id) / 1000 + 1)) <$> ids)))
    /\ Forall2
         (fun (msg out : row) =>
            dom out = dom msg
            /\ (forall k, k ≠ "date" -> k ≠ "edit_date" ->
                   out !! k = (fun v => if decide (v = VStr "") then VNone else v)
                                <$> msg !! k)
            /\ (forall k, k = "date" \/ k = "edit_date" ->
                   match msg !! k with
                   | Some (VStr s) =>
                       if String.eqb s "" then out !! k = Some VNone
                       else exists t, fromisoformat s = Ok t
                                      /\ out !! k = Some (VDatetime t)
                   | other => out !! k = other
                   end))
         (concat (stored <$> ids)) outs
    /\ (forall id k page,
          id ∈ ids -> k <= length (stored id) / 1000 ->
          get_messages sqlite_db id 1000 (k * 1000) = Ok page ->
          length page < 1000 <-> k = length (stored id) / 1000).
Proof.
  change 1000 with batch_size.
  intros Hchats Hids Hf Hparse.
  destruct (convertible_all fromisoformat (concat (stored <$> ids)))
    as [outs Houts].
  { intros msg Hmsg. apply convert_message_parses.
    intros k s. by apply Hparse. }
  exists outs. split; [|split].
  - unfold _get_messages.
    rewrite (bind_ok _ _ _ _ _ (db_do_ok _ _ _ _ Hchats)).
    rewrite (page_chats_pages fromisoformat sqlite_db stored serves
               fuel chats ids [] _ outs Hids Hf Houts).
    simpl. by rewrite <- app_assoc.
  - eapply Forall2_impl; [exact Houts|].
    intros msg out. apply convert_message_holds.
  - intros id k page _ Hk. rewrite serves. intros [= <-].
    destruct (page_sizes (stored id)) as [Hfull Hlast].
    split.
    + intros Hshort. destruct (decide (k = length (stored id) / batch_size));
        [done|].
      rewrite Hfull in Hshort by lia. lia.
    + by intros ->.
Qed.

End Messages.

(** *** The order of the transfers *)

(** Evaluates the comparisons of table names that are all literals. *)
Ltac decide_tables :=
  repeat match goal with
         | |- context [String.eqb ?s ?t] =>
             let b := eval vm_compute in (String.eqb s t) in
             change (String.eqb s t) with b
         end;
  cbn [andb].

Section Order.
Context {A : Type} `{!DatabaseAdapter A}.
Variable fromisoformat : string -> result Z.
Variable sqlite_db : SQLiteDatabase.

Implicit Types (w : world (A:=A)).

(** The events of a table's own transfer. *)
Lemma emits_write_rows_own table_name rows count :
  table_name ∈ tables ->
  emits (A:=A) (fun ev => table_of ev = Some table_name)
    (write_rows table_name None rows count) (fun _ => True).
Proof.
  intros Ht. unfold tables in Ht.
  repeat (apply elem_of_cons in Ht as [->|Ht]); try (by apply elem_of_nil in Ht);
    (revert count; induction rows as [|r rest IH]; intros count; simpl;
     [emits_step|]; emits_step; [emits_step|]; emits_step; [|apply IH];
     unfold write_row; decide_tables; repeat emits_step).
Qed.

Lemma emits_write_table_own table_name rows :
  table_name ∈ tables ->
  emits (A:=A) (fun ev => table_of ev = Some table_name)
    (write_table table_name None rows) (fun _ => True).
Proof.
  intros Ht. unfold write_table.
  apply (emits_bind _ _ _ (fun _ => True));
    [by apply emits_write_rows_own|].
  intros count _. unfold tables in Ht.
  repeat (apply elem_of_cons in Ht as [->|Ht]); try (by apply elem_of_nil in Ht);
    decide_tables; repeat emits_step.
Qed.

Lemma emits_page_loop_own fuel chat_id offset all_messages :
  emits (A:=A) (fun ev => table_of ev = Some "messages")
    (page_loop fromisoformat sqlite_db fuel chat_id offset all_messages)
    (fun _ => True).
Proof.
  revert offset all_messages.
  induction fuel as [|fuel IH]; intros offset all_messages; simpl.
  - emits_step.
  - emits_step; [emits_step|]. emits_step; [emits_step|].
    emits_step; [emits_step|]. emits_step; [emits_step | apply IH].
Qed.

Lemma emits_page_chats_own fuel chats all_messages :
  emits (A:=A) (fun ev => table_of ev = Some "messages")
    (page_chats fromisoformat sqlite_db fuel chats all_messages) (fun _ => True).
Proof.
  revert all_messages. induction chats as [|chat rest IH]; intros acc; simpl.
  - emits_step.
  - emits_step; [emits_step|].
    emits_step; [apply emits_page_loop_own | apply IH].
Qed.

(** One table: the line that names it, the first read of its source,
    and then only events that work on this table. *)
Lemma segment_of_reader {X} fuel table_name c (r : result X)
    (k : X -> M (A:=A) (list row)) :
  read_table fromisoformat sqlite_db fuel table_name
  = (Some <$> (raw ← db_do c r; k raw) : M (A:=A) _) ->
  table_name ∈ tables ->
  (forall raw, emits (fun ev => table_of ev = Some table_name) (k raw)
                 (fun _ => True)) ->
  forall w, exists more,
    trace (migrate_table fromisoformat sqlite_db fuel table_name None w).2
    = trace w ++ Logged INFO (Migrating_table table_name) :: DbRead c :: more
    /\ Forall (fun ev => table_of ev = Some table_name) more.
Proof.
  intros Hread Ht Hk w.
  set (W := World (pg w)
              (trace w ++ [Logged INFO (Migrating_table table_name); DbRead c])).
  assert (read_table fromisoformat sqlite_db fuel table_name
            (entered table_name w)
          = match r with
            | Ok raw => (Some <$> k raw) W
            | Raise e => (Some (Raise e), W)
            end) as Hr.
  { rewrite Hread. unfold fmap, M_fmap, mbind, M_bind, db_do, entered, W.
    destruct r as [raw|e]; cbn [pg trace]; by rewrite <- app_assoc. }
  destruct r as [raw|e].
  - destruct (Hk raw W) as [(δr & Htr & HQr) _].
    unfold fmap, M_fmap, mbind, M_bind in Hr.
    destruct (k raw W) as [[[rows|e]|] W2] eqn:Hkr; cbn [fst snd] in Htr.
    + destruct (emits_write_table_own table_name rows Ht W2)
        as [(δw & Htw & HQw) _].
      pose proof (total_write_table table_name None rows W2) as Htot.
      destruct (write_table table_name None rows W2) as [[[n|e]|] W3] eqn:Hw;
        cbn [fst snd] in Htw; [| |done].
      * rewrite (migrate_table_written _ _ _ _ _ _ _ _ _ _ Hr Hw).
        exists (δr ++ δw). cbn [snd]. rewrite Htw, Htr. unfold W. cbn [trace].
        rewrite <- !app_assoc. split; [done|]. by apply Forall_app.
      * rewrite (migrate_table_write_raises _ _ _ _ _ _ _ _ _ _ Hr Hw).
        exists (δr ++ δw ++ [Logged ERROR (Error_migrating table_name e)]).
        cbn [snd trace]. rewrite Htw, Htr. unfold W. cbn [trace].
        rewrite <- !app_assoc. split; [done|].
        apply Forall_app. split; [done|]. apply Forall_app. split; [done|].
        by apply Forall_singleton.
    + rewrite (migrate_table_read_raises _ _ _ _ _ _ _ _ Hr).
      exists (δr ++ [Logged ERROR (Error_reading table_name e)]).
      cbn [snd trace]. rewrite Htr. unfold W. cbn [trace].
      rewrite <- !app_assoc. split; [done|].
      apply Forall_app. split; [done|]. by apply Forall_singleton.
    + exists δr. split; [|done].
      unfold migrate_table, mbind, M_bind, try_except, fmap, M_fmap, mbind,
        M_bind, log, emit. simpl. fold (entered table_name w).
      rewrite Hr. cbn [snd]. rewrite Htr. unfold W. cbn [trace].
      by rewrite <- !app_assoc.
  - rewrite (migrate_table_read_raises _ _ _ _ _ _ _ _ Hr).
    exists [Logged ERROR (Error_reading table_name e)].
    cbn [snd trace]. unfold W. cbn [trace]. rewrite <- !app_assoc.
    split; [done|]. by apply Forall_singleton.
Qed.

(** The seven tables with the first read of each. *)
Lemma segments_of_tables fuel :
  Forall (fun '(t, c) =>
            forall w, exists more,
              trace (migrate_table fromisoformat sqlite_db fuel t None w).2
              = trace w ++ Logged INFO (Migrating_table t) :: DbRead c :: more
              /\ Forall (fun ev => table_of ev = Some t) more)
    [ ("users", SelectAll "users"); ("chats", GetAllChats (Some true));
      ("messages", GetAllChats None); ("media", SelectAll "media");
      ("reactions", SelectAll "reactions");
      ("sync_status", SelectAll "sync_status"); ("metadata", GetMetadata) ].
Proof.
  repeat apply Forall_cons_2; try apply Forall_nil_2.
  - apply (segment_of_reader fuel "users" _ (select_all sqlite_db "users")
             (fun rows => mret (_convert_dict <$> rows)));
      [reflexivity | unfold tables; set_solver | intros; emits_step].
  - apply (segment_of_reader fuel "chats" _
             (get_all_chats sqlite_db (Some true))
             (fun chats => mret (_convert_dict <$> chats)));
      [reflexivity | unfold tables; set_solver | intros; emits_step].
  - apply (segment_of_reader fuel "messages" _ (get_all_chats sqlite_db None)
             (fun chats => page_chats fromisoformat sqlite_db fuel chats []));
      [reflexivity | unfold tables; set_solver
      | intros; apply emits_page_chats_own].
  - apply (segment_of_reader fuel "media" _ (select_all sqlite_db "media")
             (fun rows => mret (_convert_dict <$> rows)));
      [reflexivity | unfold tables; set_solver | intros; emits_step].
  - apply (segment_of_reader fuel "reactions" _
             (select_all sqlite_db "reactions")
             (fun rows => mret (_convert_dict <$> rows)));
      [reflexivity | unfold tables; set_solver | intros; emits_step].
  - apply (segment_of_reader fuel "sync_status" _
             (select_all sqlite_db "sync_status")
             (fun rows => mret (_convert_dict <$> rows)));
      [reflexivity | unfold tables; set_solver | intros; emits_step].
  - apply (segment_of_reader fuel "metadata" _ (get_metadata sqlite_db)
             (fun metadata =>
                mret ((fun kv => {[ "key" := VStr kv.1; "value" := kv.2 ]} : row)
                        <$> metadata)));
      [reflexivity | unfold tables; set_solver | intros; emits_step].
Qed.


(** The loop over the tables, segment by segment. *)
Lemma migrate_tables_segments fuel (plan : list (string * db_call)) :
  Forall (fun '(t, c) =>
            forall w, exists more,
              trace (migrate_table fromisoformat sqlite_db fuel t None w).2
              = trace w ++ Logged INFO (Migrating_table t) :: DbRead c :: more
              /\ Forall (fun ev => table_of ev = Some t) more) plan ->
  (forall t w,
     (migrate_table fromisoformat sqlite_db fuel t None w).1 ≠ None) ->
  forall total_migrated w, exists n w1 segments,
    migrate_tables fromisoformat sqlite_db fuel plan.*1 total_migrated w
    = (Some (Ok n), w1)
    /\ trace w1 = trace w ++ concat segments
    /\ Forall2 (fun '(t, c) seg =>
                  exists more,
                    seg = Logged INFO (Migrating_table t) :: DbRead c :: more
                    /\ Forall (fun ev => table_of ev = Some t) more)
         plan segments.
Proof.
  intros Hplan Hreturns.
  induction Hplan as [|[t c] plan Hseg _ IH]; intros total_migrated w.
  - exists total_migrated, w, []. simpl. split; [done|].
    rewrite app_nil_r. by split.
  - destruct (Hseg w) as (more & Htr & Hmore).
    pose proof (Hreturns t w) as Hret.
    destruct (migrate_table_returns fromisoformat sqlite_db fuel t None w)
      as [Hnone|[count Hcount]]; [done|].
    destruct (migrate_table fromisoformat sqlite_db fuel t None w)
      as [r w'] eqn:Hm. simpl in Htr, Hcount. subst r.
    destruct (IH (total_migrated + count)%Z w') as (n & w1 & segments & Hrest & Ht & Hsegs).
    exists n, w1,
      ((Logged INFO (Migrating_table t) :: DbRead c :: more) :: segments).
    split; [|split].
    + simpl. by rewrite (bind_ok _ _ _ _ _ Hm).
    + rewrite Ht, Htr. simpl. by rewrite <- app_assoc.
    + constructor; [by exists more | done].
Qed.

Lemma pg_calls_fmap (cs : list adapter_call) : pg_calls (PgCall <$> cs) = cs.
Proof. induction cs as [|c cs IH]; [done|]. simpl. f_equal. exact IH. Qed.

(** A table that is read with one call and written row by row, when
    no adapter call raises. *)
Lemma single_read_calls {X} fuel table_name c (r : result X)
    (f : X -> list row) (mk : row -> adapter_call) w :
  read_table fromisoformat sqlite_db fuel table_name
  = (Some <$> (raw ← db_do c r; mret (f raw)) : M (A:=A) _) ->
  String.eqb table_name "messages" = false ->
  Forall (fun row => write_row (A:=A) table_name row = pg_do (mk row))
    (match r with Ok raw => f raw | Raise _ => [] end) ->
  (perform_all (mk <$> match r with Ok raw => f raw | Raise _ => [] end)
     (pg w)).1.2 = None ->
  exists n δ,
    migrate_table fromisoformat sqlite_db fuel table_name None w
    = (Some (Ok n),
       World (perform_all (mk <$> match r with Ok raw => f raw | Raise _ => [] end)
                (pg w)).2 (trace w ++ δ))
    /\ pg_calls δ = mk <$> match r with Ok raw => f raw | Raise _ => [] end.
Proof.
  intros Hread Hne Hrows Hok.
  set (W := World (pg w)
              (trace w ++ [Logged INFO (Migrating_table table_name); DbRead c])).
  assert (read_table fromisoformat sqlite_db fuel table_name
            (entered table_name w)
          = match r with
            | Ok raw => (Some (Ok (Some (f raw))), W)
            | Raise e => (Some (Raise e), W)
            end) as Hr.
  { rewrite Hread. unfold fmap, M_fmap, mbind, M_bind, db_do, entered, W.
    destruct r as [raw|e]; cbn [pg trace]; by rewrite <- app_assoc. }
  destruct r as [raw|e].
  - pose proof (write_table_exact table_name mk (f raw) W Hne Hrows) as Hw.
    rewrite (migrate_table_exact fromisoformat sqlite_db fuel table_name (f raw)
               (mk <$> f raw) w W Hr Hw).
    pose proof (perform_all_complete _ _ Hok) as Hmade.
    change (pg W) with (pg w).
    destruct (perform_all (mk <$> f raw) (pg w)) as [[made e] a].
    simpl in Hok, Hmade. subst e made.
    eexists _, _. split.
    + unfold W. cbn [trace fst snd]. rewrite <- app_assoc. reflexivity.
    + rewrite !pg_calls_app, pg_calls_fmap. simpl. by rewrite app_nil_r.
  - rewrite (migrate_table_read_raises _ _ _ _ _ _ _ _ Hr).
    eexists _, _. split.
    + unfold W. cbn [pg trace perform_all snd fmap list_fmap].
      rewrite <- app_assoc. reflexivity.
    + reflexivity.
Qed.

(** The messages, when their read returns [outs] and the batch insert
    does not raise. *)
Lemma messages_calls fuel stored chats ids outs w :
  (forall chat_id limit offset,
     get_messages sqlite_db chat_id limit offset
     = Ok (take limit (drop offset (stored chat_id)))) ->
  get_all_chats sqlite_db None = Ok chats ->
  Forall2 (fun (chat : row) id => chat !! "id" = Some id) chats ids ->
  (forall id, id ∈ ids -> length (stored id) < fuel * batch_size) ->
  Forall2 (fun msg out => convert_message fromisoformat msg = Ok out)
    (concat (stored <$> ids)) outs ->
  (perform_all (match outs with [] => [] | _ => [InsertMessages outs] end)
     (pg w)).1.2 = None ->
  exists n δ,
    migrate_table fromisoformat sqlite_db fuel "messages" None w
    = (Some (Ok n),
       World (perform_all (match outs with
                           | [] => []
                           | _ => [InsertMessages outs]
                           end) (pg w)).2 (trace w ++ δ))
    /\ pg_calls δ = match outs with [] => [] | _ => [InsertMessages outs] end.
Proof.
  intros Hserves Hchats Hids Hf Houts Hok.
  set (reads := DbRead (GetAllChats None) ::
                concat ((fun id => spec_page_requests id (length (stored id)))
                          <$> ids)).
  set (W := World (pg w)
              (trace w ++ Logged INFO (Migrating_table "messages") :: reads)).
  assert (read_table fromisoformat sqlite_db fuel "messages"
            (entered "messages" w) = (Some (Ok (Some outs)), W)) as Hr.
  { change (read_table fromisoformat sqlite_db fuel "messages")
      with (Some <$> _get_messages fromisoformat sqlite_db fuel : M (A:=A) _).
    unfold fmap, M_fmap.
    assert (_get_messages fromisoformat sqlite_db fuel (entered "messages" w)
            = (Some (Ok outs), W)) as Hget.
    { unfold _get_messages.
      rewrite (bind_ok _ _ _ _ _ (db_do_ok _ _ _ _ Hchats)).
      rewrite (page_chats_pages fromisoformat sqlite_db stored Hserves
                 fuel chats ids [] _ outs Hids Hf Houts).
      unfold W, reads, entered. cbn [pg trace]. simpl.
      by rewrite <- !app_assoc. }
    by rewrite (bind_ok _ _ _ _ _ Hget). }
  pose proof (write_messages_exact outs W) as Hw.
  rewrite (migrate_table_exact fromisoformat sqlite_db fuel "messages" outs
             _ w W Hr Hw).
  pose proof (perform_all_complete _ _ Hok) as Hmade.
  change (pg W) with (pg w).
  destruct (perform_all _ (pg w)) as [[made e] a].
  simpl in Hok, Hmade. subst e made.
  eexists _, _. split.
  - unfold W. cbn [trace fst snd].
    rewrite <- app_assoc. reflexivity.
  - assert (pg_calls reads = []) as Hreads.
    { unfold reads.
      change (pg_calls (concat ((fun id => spec_page_requests id
                                             (length (stored id))) <$> ids)) = []).
      clear. induction ids as [|id ids IH]; [done|].
      change (pg_calls (spec_page_requests id (length (stored id))
                        ++ concat ((fun id => spec_page_requests id
                                                (length (stored id))) <$> ids))
              = []).
      rewrite pg_calls_app, IH, app_nil_r. unfold spec_page_requests.
      induction (seq 0 _) as [|k ks IHk]; [done|]. exact IHk. }
    change (Logged INFO (Migrating_table "messages") :: reads)
      with ([Logged INFO (Migrating_table "messages")] ++ reads).
    rewrite !pg_calls_app, pg_calls_fmap, Hreads. cbn. by rewrite app_nil_r.
Qed.

(** The loop over the tables, call by call, when no call raises. *)
Lemma migrate_tables_calls fuel (steps : list (string * list adapter_call)) :
  Forall (fun '(t, calls) =>
            forall w, (perform_all calls (pg w)).1.2 = None ->
              exists n δ,
                migrate_table fromisoformat sqlite_db fuel t None w
                = (Some (Ok n),
                   World (perform_all calls (pg w)).2 (trace w ++ δ))
                /\ pg_calls δ = calls) steps ->
  forall total_migrated w,
    (perform_all (concat steps.*2) (pg w)).1.2 = None ->
    exists n δ,
      migrate_tables fromisoformat sqlite_db fuel steps.*1 total_migrated w
      = (Some (Ok n),
         World (perform_all (concat steps.*2) (pg w)).2 (trace w ++ δ))
      /\ pg_calls δ = concat steps.*2.
Proof.
  intros Hsteps.
  induction Hsteps as [|[t calls] steps Hstep _ IH]; intros total_migrated w Hok.
  - exists total_migrated, []. simpl. destruct w. by rewrite app_nil_r.
  - change (((t, calls) :: steps).*1) with (t :: steps.*1).
    change (concat ((t, calls) :: steps).*2) with (calls ++ concat steps.*2)
      in Hok |- *.
    apply perform_all_app_inv in Hok as Hboth. destruct Hboth as [Hok1 Hok2].
    destruct (Hstep w Hok1) as (count & δ1 & Hm & Hc1).
    cbn [migrate_tables]. rewrite (bind_ok _ _ _ _ _ Hm).
    destruct (IH (total_migrated + count)%Z
                (World (perform_all calls (pg w)).2 (trace w ++ δ1)) Hok2)
      as (n & δ2 & Hrest & Hc2).
    exists n, (δ1 ++ δ2). rewrite Hrest. cbn [pg trace].
    rewrite (perform_all_app _ _ _ Hok1). cbn [snd].
    rewrite <- app_assoc, pg_calls_app, Hc1, Hc2. done.
Qed.

End Order.

Section OrderMain.
Context {A : Type} `{!DatabaseAdapter A}.
Variable fromisoformat : string -> result Z.

Implicit Types (env : Env (A:=A)) (w : world (A:=A)).

Lemma verify_migration_begins sqlite_db w :
  exists δ,
    trace (verify_migration sqlite_db w).2
    = trace w ++ Logged INFO Verifying_migration :: δ.
Proof.
  unfold verify_migration.
  destruct (log_then_trace (fun _ => True) INFO Verifying_migration
              (chats ← db_do (GetAllChats None) (get_all_chats sqlite_db None);
               let n_chats := Z.of_nat (length chats) in
               chats ← db_do (GetAllChats None) (get_all_chats sqlite_db None);
               n_messages ← sum_message_counts sqlite_db chats 0%Z;
               let sqlite_stats :=
                 [("chats", n_chats); ("messages", n_messages)] in
               pg_stats ← pg_get_stats;
               success ← compare_counts sqlite_stats pg_stats true;
               (if (success : bool) then log INFO Verification_successful
                else log ERROR Verification_failed);;
               mret success) (fun _ => True) w) as (δ & Ht & _).
  - repeat first [ apply emits_sum_message_counts; done
                 | apply emits_compare_counts; done
                 | emits_step
                 | progress cbv zeta ].
  - by exists δ.
Qed.

(** What [main] does after the loop over the tables starts with the
    verification. *)
Lemma main_after_tables env fuel path backup_path pg_config tr sqlite_db a tr'
    n w1 :
  prepare env = (inr (path, backup_path, pg_config), tr) ->
  new_DataMigrator env path pg_config tr = (Ok (sqlite_db, a), tr') ->
  migrate_tables fromisoformat sqlite_db fuel tables 0%Z (World a tr')
  = (Some (Ok n), w1) ->
  exists rest,
    events (main fromisoformat env fuel)
    = trace w1 ++ Logged INFO Verifying_migration :: rest.
Proof.
  intros Hp Hn Hm. unfold main. rewrite Hp, Hn.
  unfold try_except at 1, orchestrate. rewrite (bind_ok _ _ _ _ _ Hm).
  destruct (verify_migration_begins sqlite_db w1) as (δ & Hv).
  unfold mbind at 1, M_bind at 1.
  destruct (verify_migration sqlite_db w1) as [[[verified|e]|] wv];
    cbn [fst snd] in Hv.
  - assert (exists code δ', forall w,
              (if (verified : bool) then
                 log INFO Migration_completed;;
                 log INFO (Total_migrated n);;
                 log INFO (Backup_available backup_path);;
                 log INFO (To_use_the_new_database 0);;
                 log INFO (To_use_the_new_database 1);;
                 log INFO (To_use_the_new_database 2);;
                 log INFO (To_use_the_new_database 3);;
                 mret 0%Z
               else log ERROR Migration_verification_failed;; mret 1%Z) w
              = (Some (Ok code), World (pg w) (trace w ++ δ')))
      as (code & δ' & ->).
    { destruct verified; eexists _, _; intros w;
        unfold mbind, M_bind, log, emit, mret, M_ret; cbn [pg trace];
        rewrite <- ?app_assoc; reflexivity. }
    destruct (teardown_cases sqlite_db (World (pg wv) (trace wv ++ δ')))
      as (a' & _ & ->).
    cbn [pg trace].
    destruct (perform Close (pg wv)).1 as [[]|e]; cbn [events trace]; rewrite Hv;
      rewrite <- !app_assoc; by eexists.
  - unfold mbind, M_bind, log, emit, mret, M_ret. cbn [pg trace].
    destruct (teardown_cases sqlite_db
                (World (pg wv) (trace wv ++ [Logged ERROR (Migration_failed e)])))
      as (a' & _ & ->).
    cbn [pg trace].
    destruct (perform Close (pg wv)).1 as [[]|e']; cbn [events trace]; rewrite Hv;
      rewrite <- !app_assoc; by eexists.
  - cbn [events]. rewrite Hv. by eexists.
Qed.

(** C6: [main] processes the seven tables in the order users, chats,
    messages, media, reactions, sync_status, metadata.  For every
    environment the tables it enters are an initial part of this list.
    Once the migrator is built, what [main] does between the constructor
    and the verification falls into seven stretches, one per table in this
    order: each starts with the line that names the table, goes on with
    the first read of that table's source in the legacy store, and holds
    nothing but reads, adapter writes and lines of that table.  And when
    no adapter call raises, the adapter calls of these stretches are, in
    this order, one upsert per user row, one per chat row, the batch of
    the messages, one upsert per media row, one insert per reaction, one
    update per sync status and one [set_metadata] per pair (a table whose
    read raises giving none). *)
Theorem tables_processed_in_order env fuel :
  invocations (events (main fromisoformat env fuel))
    `prefix_of` ["users"; "chats"; "messages"; "media"; "reactions";
                 "sync_status"; "metadata"]
  /\ forall path backup_path pg_config tr sqlite_db a tr' stored,
      prepare env = (inr (path, backup_path, pg_config), tr) ->
      new_DataMigrator env path pg_config tr = (Ok (sqlite_db, a), tr') ->
      paginated sqlite_db stored ->
      (forall chat_id, length (stored chat_id) < fuel * batch_size) ->
      exists segments rest,
        events (main fromisoformat env fuel)
        = tr' ++ concat segments ++ Logged INFO Verifying_migration :: rest
        /\ Forall2
             (fun '(t, c) segment =>
                exists more,
                  segment
                  = Logged INFO (Migrating_table t) :: DbRead c :: more
                  /\ Forall (fun ev => table_of ev = Some t) more)
             [ ("users", SelectAll "users"); ("chats", GetAllChats (Some true));
               ("messages", GetAllChats None); ("media", SelectAll "media");
               ("reactions", SelectAll "reactions");
               ("sync_status", SelectAll "sync_status");
               ("metadata", GetMetadata) ]
             segments
        /\ forall chats ids outs sync_calls,
             get_all_chats sqlite_db None = Ok chats ->
             Forall2 (fun (chat : row) id => chat !! "id" = Some id) chats ids ->
             (forall chat_id limit offset,
                get_messages sqlite_db chat_id limit offset
                = Ok (take limit (drop offset (stored chat_id)))) ->
             Forall2 (fun msg out => convert_message fromisoformat msg = Ok out)
               (concat (stored <$> ids)) outs ->
             let rows_of := fun r : result (list row) =>
               match r with Ok raw => _convert_dict <$> raw | Raise _ => [] end in
             Forall2
               (fun (r : row) call =>
                  exists chat_id last_message_id message_count,
                    r !! "chat_id" = Some chat_id
                    /\ r !! "last_message_id" = Some last_message_id
                    /\ r !! "message_count" = Some message_count
                    /\ call
                       = UpdateSyncStatus chat_id last_message_id message_count)
               (rows_of (select_all sqlite_db "sync_status")) sync_calls ->
             let plan :=
               (UpsertUser <$> rows_of (select_all sqlite_db "users"))
               ++ (UpsertChat <$> rows_of (get_all_chats sqlite_db (Some true)))
               ++ match outs with [] => [] | _ => [InsertMessages outs] end
               ++ (UpsertMedia <$> rows_of (select_all sqlite_db "media"))
               ++ ((fun r => InsertReactions [r])
                     <$> rows_of (select_all sqlite_db "reactions"))
               ++ sync_calls
               ++ match get_metadata sqlite_db with
                  | Ok pairs => (fun kv => SetMetadata (VStr kv.1) kv.2) <$> pairs
                  | Raise _ => []
                  end in
             (perform_all plan a).1.2 = None ->
             pg_calls (concat segments) = plan.
Proof.
  split; [apply main_enters_tables_in_order|].
  intros path backup_path pg_config tr sqlite_db a tr' stored Hp Hn Hs Hf.
  destruct (migrate_tables_segments fromisoformat sqlite_db fuel _
              (segments_of_tables fromisoformat sqlite_db fuel)
              (fun t w =>
                 total_migrate_table fromisoformat sqlite_db stored Hs fuel Hf
                   t None w)
              0%Z (World a tr')) as (n & w1 & segments & Hm & Ht & Hsegs).
  change (_.*1) with tables in Hm. cbn [trace] in Ht.
  destruct (main_after_tables env fuel _ _ _ _ _ _ _ n w1 Hp Hn Hm) as [rest Hev].
  exists segments, rest. split; [by rewrite Hev, Ht, <- app_assoc|].
  split; [exact Hsegs|].
  intros chats ids outs sync_calls Hchats Hids Hserves Houts rows_of Hsync plan
    Hok.
  set (mk_sync := fun r : row =>
         UpdateSyncStatus (default VNone (r !! "chat_id"))
           (default VNone (r !! "last_message_id"))
           (default VNone (r !! "message_count"))).
  assert (sync_calls = mk_sync <$> rows_of (select_all sqlite_db "sync_status")
          /\ Forall (fun r => write_row (A:=A) "sync_status" r
                              = pg_do (mk_sync r))
               (rows_of (select_all sqlite_db "sync_status")))
    as [Hcalls Hwrites].
  { clear -Hsync. induction Hsync as [|r call rows calls Hr _ [IH1 IH2]];
      [by split|].
    destruct Hr as (x & y & z & Hx & Hy & Hz & ->). split.
    - rewrite fmap_cons, <- IH1. f_equal. unfold mk_sync.
      by rewrite Hx, Hy, Hz.
    - constructor; [|done].
      change (write_row (A:=A) "sync_status" r)
        with (chat_id ← lift (getitem r "chat_id");
              last_message_id ← lift (getitem r "last_message_id");
              message_count ← lift (getitem r "message_count");
              pg_do (UpdateSyncStatus chat_id last_message_id message_count)
              : M (A:=A) unit).
      unfold getitem, mk_sync. by rewrite Hx, Hy, Hz. }
  set (mkrow := fun kv : string * value =>
                  ({[ "key" := VStr kv.1; "value" := kv.2 ]} : row)).
  set (mk_meta := fun r : row => SetMetadata (default VNone (r !! "key"))
                                   (default VNone (r !! "value"))).
  assert (mk_meta <$> match get_metadata sqlite_db with
                      | Ok pairs => mkrow <$> pairs
                      | Raise _ => []
                      end
          = match get_metadata sqlite_db with
            | Ok pairs => (fun kv => SetMetadata (VStr kv.1) kv.2) <$> pairs
            | Raise _ => []
            end) as Hmeta.
  { destruct (get_metadata sqlite_db) as [pairs|e]; [|done].
    rewrite <- list_fmap_compose. apply list_fmap_ext. intros i kv _.
    unfold compose, mk_meta, mkrow. by simplify_map_eq. }
  destruct (migrate_tables_calls fromisoformat sqlite_db fuel
              [ ("users", UpsertUser <$> rows_of (select_all sqlite_db "users"));
                ("chats",
                 UpsertChat <$> rows_of (get_all_chats sqlite_db (Some true)));
                ("messages",
                 match outs with [] => [] | _ => [InsertMessages outs] end);
                ("media", UpsertMedia <$> rows_of (select_all sqlite_db "media"));
                ("reactions",
                 (fun r => InsertReactions [r])
                   <$> rows_of (select_all sqlite_db "reactions"));
                ("sync_status",
                 mk_sync <$> rows_of (select_all sqlite_db "sync_status"));
                ("metadata",
                 mk_meta <$> match get_metadata sqlite_db with
                             | Ok pairs => mkrow <$> pairs
                             | Raise _ => []
                             end) ]) with (total_migrated := 0%Z) (w := World a tr')
    as (n' & δ & Hm' & Hδ).
  - repeat apply Forall_cons_2; try apply Forall_nil_2; intros w.
    + apply (single_read_calls fromisoformat sqlite_db fuel "users"
               (SelectAll "users")
               (select_all sqlite_db "users") (fmap _convert_dict) UpsertUser);
        [reflexivity | reflexivity | by apply Forall_true].
    + apply (single_read_calls fromisoformat sqlite_db fuel "chats"
               (GetAllChats (Some true))
               (get_all_chats sqlite_db (Some true)) (fmap _convert_dict)
               UpsertChat);
        [reflexivity | reflexivity | by apply Forall_true].
    + apply (messages_calls fromisoformat sqlite_db fuel stored chats ids);
        try done; intros id _; apply Hf.
    + apply (single_read_calls fromisoformat sqlite_db fuel "media"
               (SelectAll "media")
               (select_all sqlite_db "media") (fmap _convert_dict) UpsertMedia);
        [reflexivity | reflexivity | by apply Forall_true].
    + apply (single_read_calls fromisoformat sqlite_db fuel "reactions"
               (SelectAll "reactions")
               (select_all sqlite_db "reactions") (fmap _convert_dict)
               (fun r => InsertReactions [r]));
        [reflexivity | reflexivity | by apply Forall_true].
    + apply (single_read_calls fromisoformat sqlite_db fuel "sync_status"
               (SelectAll "sync_status")
               (select_all sqlite_db "sync_status") (fmap _convert_dict) mk_sync);
        [reflexivity | reflexivity | exact Hwrites].
    + apply (single_read_calls fromisoformat sqlite_db fuel "metadata"
               GetMetadata
               (get_metadata sqlite_db) (fmap mkrow) mk_meta);
        [reflexivity | reflexivity |].
      destruct (get_metadata sqlite_db) as [pairs|e]; [|done].
      apply Forall_fmap, Forall_true. intros kv.
      change (write_row (A:=A) "metadata" (mkrow kv) = pg_do (mk_meta (mkrow kv))).
      unfold mkrow at 1. rewrite metadata_row_written.
      unfold mk_meta, mkrow. by simplify_map_eq.
  - cbn [fmap list_fmap snd concat pg]. rewrite app_nil_r, Hmeta, <- Hcalls.
    exact Hok.
  - change (_.*1) with tables in Hm'. rewrite Hm in Hm'.
    injection Hm' as _ Hw1. rewrite Hw1 in Ht. cbn [trace] in Ht.
    apply app_inv_head in Ht. rewrite <- Ht, Hδ.
    cbn [fmap list_fmap snd concat]. by rewrite app_nil_r, Hmeta, <- Hcalls.
Qed.

End OrderMain.

End TransferFacts.

Module TransferRuns.
Import Adapter Migrator Reference Examples.
Import MigratorFacts TransferFacts Runs.

(** The metadata of the migration test: one pair, one [set_metadata]. *)
Lemma metadata_transfer_witness :
  migrate_table test_fromisoformat test_db 1 "metadata" None test_world
  = (Some (Ok 1%Z),
     World (perform (SetMetadata (VStr "owner_id") (VStr "456")) Reference.empty).2
       [ Logged INFO (Migrating_table "metadata");
         DbRead GetMetadata;
         PgCall (SetMetadata (VStr "owner_id") (VStr "456"));
         Logged INFO (Migrated 1 "metadata") ]).
Proof.
  destruct (metadata_transfer test_fromisoformat test_db 1
              [("owner_id", VStr "456")] test_world eq_refl) as [H _].
  etransitivity; [exact H|]. vm_compute. reflexivity.
Defined.

(** The store whose metadata value is the empty string: the value
    reaches [set_metadata]. *)
Lemma metadata_bypasses_normalization_witness :
  _convert_dict {[ "key" := VStr "note"; "value" := VStr "" ]} !! "value"
  = Some VNone
  /\ exists δ,
      trace (migrate_table test_fromisoformat blank_metadata_db 1 "metadata"
               None test_world).2 = trace test_world ++ δ
      /\ PgCall (SetMetadata (VStr "note") (VStr "")) ∈ δ
      /\ ~ Forall clean_event δ.
Proof.
  destruct (metadata_bypasses_normalization test_fromisoformat blank_metadata_db
              1 [] "note" [] test_world eq_refl eq_refl) as [Hconv Hrun].
  split; [|exact Hrun]. apply Hconv. reflexivity.
Defined.

Lemma paged_db_serves chat_id limit offset :
  get_messages paged_db chat_id limit offset
  = Ok (take limit (drop offset (paged_stored chat_id))).
Proof. reflexivity. Qed.

Lemma paged_stored_short id :
  id ∈ [VInt 123] -> length (paged_stored id) < 3 * 1000.
Proof.
  intros _. unfold paged_stored. case_decide; [|simpl; lia].
  rewrite length_replicate. lia.
Qed.

Lemma paged_dates_parse (msg : row) (k s : string) :
  msg ∈ concat (paged_stored <$> [VInt 123]) ->
  k = "date" \/ k = "edit_date" ->
  msg !! k = Some (VStr s) -> s ≠ "" -> exists t, test_fromisoformat s = Ok t.
Proof. intros _ _ _ _. by exists 0%Z. Qed.

(** A chat of 2500 messages: three requests, at offsets 0, 1000 and
    2000, and all 2500 messages collected. *)
Lemma get_messages_collects_pages_witness :
  exists outs,
    _get_messages test_fromisoformat paged_db 3 test_world
    = (Some (Ok outs),
       World Reference.empty
         [ DbRead (GetAllChats None);
           DbRead (GetMessages (VInt 123) 1000 0);
           DbRead (GetMessages (VInt 123) 1000 1000);
           DbRead (GetMessages (VInt 123) 1000 2000) ])
    /\ length outs = 2500.
Proof.
  destruct (get_messages_collects_pages test_fromisoformat paged_db paged_stored
              paged_db_serves 3 [test_chat] [VInt 123] test_world eq_refl)
    as (outs & Hrun & Hconv & _).
  - constructor; [vm_compute; reflexivity | constructor].
  - exact paged_stored_short.
  - exact paged_dates_parse.
  - exists outs. split.
    + etransitivity; [exact Hrun|]. vm_compute. reflexivity.
    + rewrite <- (Forall2_length _ _ _ Hconv). vm_compute. reflexivity.
Defined.

Lemma full_db_paginated : paginated full_db test_stored.
Proof. intros chat_id limit offset rows. by intros [= <-]. Qed.

(** The store with all seven tables: seven stretches in the order of the
    tables, and the adapter calls of the whole transfer. *)
Lemma tables_processed_in_order_witness :
  exists tr' segments rest,
    events (main test_fromisoformat full_env 1)
    = tr' ++ concat segments ++ Logged INFO Verifying_migration :: rest
    /\ Forall2
         (fun '(t, c) segment =>
            exists more,
              segment = Logged INFO (Migrating_table t) :: DbRead c :: more
              /\ Forall (fun ev => table_of ev = Some t) more)
         [ ("users", SelectAll "users"); ("chats", GetAllChats (Some true));
           ("messages", GetAllChats None); ("media", SelectAll "media");
           ("reactions", SelectAll "reactions");
           ("sync_status", SelectAll "sync_status");
           ("metadata", GetMetadata) ]
         segments
    /\ pg_calls (concat segments)
       = [ UpsertUser test_user;
           UpsertChat test_chat;
           InsertMessages [<["date" := VDatetime 0]> test_message];
           UpsertMedia (<["file_name" := VNone]> test_media);
           InsertReactions [test_reaction];
           UpdateSyncStatus (VInt 123) (VInt 1) (VInt 1);
           SetMetadata (VStr "owner_id") (VStr "456") ].
Proof.
  destruct (tables_processed_in_order test_fromisoformat full_env 1) as [_ H].
  edestruct (fun path backup_path pg_config tr tr' =>
               H path backup_path pg_config tr full_db Reference.empty tr'
                 test_stored)
    as (segments & rest & Hev & Hsegs & Hcalls);
    [ reflexivity | reflexivity
    | exact full_db_paginated | exact test_stored_short | ].
  eexists _, segments, rest. split; [exact Hev|]. split; [exact Hsegs|].
  etransitivity.
  - apply (Hcalls [test_chat] [VInt 123]
             [<["date" := VDatetime 0]> test_message]
             [UpdateSyncStatus (VInt 123) (VInt 1) (VInt 1)]).
    + reflexivity.
    + constructor; [vm_compute; reflexivity | constructor].
    + intros chat_id limit offset. reflexivity.
    + constructor; [vm_compute; reflexivity | constructor].
    + constructor; [|constructor].
      exists (VInt 123), (VInt 1), (VInt 1).
      repeat split; vm_compute; reflexivity.
    + vm_compute. reflexivity.
  - vm_compute. reflexivity.
Defined.

End TransferRuns.
